(** * SCRAM client conversation of the mongo-c-driver (mongoc-scram.c)

    A shallow embedding of [src/libmongoc/src/mongoc/mongoc-scram.c] and the
    properties of it that the specification states.

    Conventions of the embedding.
    - A C byte ([uint8_t], [char]) is a [Byte.byte]; [u8] gives its unsigned
      value and [char_val] the value of a (signed) [char].
    - [uint32_t] and [int32_t] values are [Z]; every conversion and every
      unsigned operation writes its wrap-around out ([to_uint32],
      [to_int32]).
    - A NUL-terminated C string is a [list byte]; code that reads up to the
      terminator reads [c_str l], the bytes before the first NUL.
    - An output buffer is the pair of the bytes written so far and the
      cursor [*outbuflen].
    - A function that can fail to return normally (an assertion that aborts,
      a loop that does not end) returns an [option]. *)

From Stdlib Require Import String DecimalString ZArith List Bool Lia.
From Stdlib Require Import Strings.Byte.
From Stdlib Require Init.Byte.
Import ListNotations.

Local Open Scope Z_scope.

Abbreviation byte := Init.Byte.byte.

(** * Part I: the embedding *)

(** ** Machine integers and bytes *)

Module Int.

Definition to_uint32 (z : Z) : Z := z mod 4294967296.

Definition to_int32 (z : Z) : Z :=
  let u := to_uint32 z in
  if u <? 2147483648 then u else u - 4294967296.

Definition to_int64 (z : Z) : Z :=
  let u := z mod 18446744073709551616 in
  if u <? 9223372036854775808 then u else u - 18446744073709551616.

Definition UINT32_MAX : Z := 4294967295.
Definition INT32_MAX : Z := 2147483647.
Definition INT64_MAX : Z := 9223372036854775807.
Definition INT64_MIN : Z := -9223372036854775808.

End Int.
Import Int.

Definition u8 (b : byte) : Z := Z.of_N (Byte.to_N b).

Definition byte_of_Z (z : Z) : byte :=
  match Byte.of_N (Z.to_N (z mod 256)) with
  | Some b => b
  | None => Byte.x00
  end.

(** The value of a [char] holding the byte [b] where [char] is signed. *)
Definition char_val (b : byte) : Z :=
  if u8 b <? 128 then u8 b else u8 b - 256.

Definition byte_xor (a b : byte) : byte := byte_of_Z (Z.lxor (u8 a) (u8 b)).

Definition bytes_eqb (a b : list byte) : bool :=
  if list_eq_dec Byte.byte_eq_dec a b then true else false.

(** [p[i]] for an array or a string held in [l]; past the end of a string the
    terminator is read. *)
Definition byte_at (l : list byte) (i : nat) : byte := nth i l Byte.x00.

(** ** C strings *)

(** The bytes of a NUL-terminated string stored in [l]: everything before the
    first NUL (the end of the list stands for the terminator). *)
Fixpoint c_str (l : list byte) : list byte :=
  match l with
  | [] => []
  | b :: r => if Byte.eqb b Byte.x00 then [] else b :: c_str r
  end.

Definition strlen (l : list byte) : Z := Z.of_nat (length (c_str l)).

(** [bson_strdup]: a fresh copy of the string. *)
Definition bson_strdup (l : list byte) : list byte := c_str l.

(** [strcmp (a, b) == 0]. *)
Definition strcmp_eq (a b : list byte) : bool := bytes_eqb (c_str a) (c_str b).

(** [memcmp (a, b, n) == 0] over the first [n] bytes of two arrays. *)
Definition memcmp_eq (a b : list byte) (n : nat) : bool :=
  bytes_eqb (firstn n a) (firstn n b).

(** A C string literal. *)
Definition lit (s : string) : list byte := list_byte_of_string s.

Definition no_nul (l : list byte) : Prop := Forall (fun b => b <> Byte.x00) l.

(** ** Error records *)

Inductive error_domain := MONGOC_ERROR_SCRAM.

Inductive error_code :=
| MONGOC_ERROR_SCRAM_NOT_DONE
| MONGOC_ERROR_SCRAM_PROTOCOL_ERROR.

Record bson_error_t := {
  domain : error_domain;
  code : error_code;
  message : string
}.

(** Modelled from the spec: [bson_set_error] belongs to libbson, which is not
    among the sources; it fills the caller's error record with the domain, the
    code and the formatted message, replacing what the record held.  [None] is
    a record nothing was written to. *)
Definition bson_set_error (_ : option bson_error_t) (d : error_domain)
    (c : error_code) (msg : string) : option bson_error_t :=
  Some {| domain := d; code := c; message := msg |}.

Definition protocol_error (err : option bson_error_t) (msg : string)
    : option bson_error_t :=
  bson_set_error err MONGOC_ERROR_SCRAM MONGOC_ERROR_SCRAM_PROTOCOL_ERROR msg.

(** [true] when the record holds a SCRAM protocol error whose message
    contains [needle]. *)
Fixpoint contains (needle hay : string) : bool :=
  match hay with
  | EmptyString => String.prefix needle hay
  | String _ rest => String.prefix needle hay || contains needle rest
  end.

Definition is_protocol_error (err : option bson_error_t) : bool :=
  match err with
  | Some {| code := MONGOC_ERROR_SCRAM_PROTOCOL_ERROR |} => true
  | _ => false
  end.

Definition protocol_error_with (needle : string) (err : option bson_error_t)
    : bool :=
  match err with
  | Some e => is_protocol_error err && contains needle (message e)
  | None => false
  end.

(** ** The buffer writer *)

(** [_mongoc_scram_buf_write]: [outbuf] holds the bytes written so far and
    [outbuflen] is the cursor.  The sum of the [uint32_t] cursor and the
    [int32_t] length is taken in [uint32_t].  Returns the success flag, the
    buffer and the cursor. *)
Definition _mongoc_scram_buf_write (src : list byte) (src_len : Z)
    (outbuf : list byte) (outbufmax : Z) (outbuflen : Z)
    : bool * list byte * Z :=
  let src_len := if src_len <? 0 then to_int32 (strlen src) else src_len in
  if to_uint32 (outbuflen + src_len) >=? outbufmax then
    (false, outbuf, outbuflen)
  else
    (true,
     firstn (Z.to_nat outbuflen) outbuf ++ firstn (Z.to_nat src_len) src,
     to_uint32 (outbuflen + src_len)).

(** The number of bytes a call asks to append: [src_len], or the length of
    the string when [src_len] is negative. *)
Definition write_len (src : list byte) (src_len : Z) : Z :=
  if src_len <? 0 then to_int32 (strlen src) else src_len.

(** ** Base64 codec *)

Module B64.

Definition Base64 : list byte :=
  lit "ABCDEFGHIJKLMNOPQRSTUVWXYZabcdefghijklmnopqrstuvwxyz0123456789+/".

Definition Pad64 : byte := Byte.x3d.

Definition enc (i : Z) : byte := byte_at Base64 (Z.to_nat i).

Fixpoint index_of (c : byte) (l : list byte) (i : Z) : option Z :=
  match l with
  | [] => None
  | x :: r => if Byte.eqb c x then Some i else index_of c r (i + 1)
  end.

Definition dec (c : byte) : option Z := index_of c Base64 0.

Fixpoint encode (l : list byte) : list byte :=
  match l with
  | [] => []
  | [a] =>
      [enc (Z.shiftr (u8 a) 2);
       enc (Z.shiftl (Z.land (u8 a) 3) 4);
       Pad64; Pad64]
  | [a; b] =>
      [enc (Z.shiftr (u8 a) 2);
       enc (Z.lor (Z.shiftl (Z.land (u8 a) 3) 4) (Z.shiftr (u8 b) 4));
       enc (Z.shiftl (Z.land (u8 b) 15) 2);
       Pad64]
  | a :: b :: c :: r =>
      enc (Z.shiftr (u8 a) 2)
      :: enc (Z.lor (Z.shiftl (Z.land (u8 a) 3) 4) (Z.shiftr (u8 b) 4))
      :: enc (Z.lor (Z.shiftl (Z.land (u8 b) 15) 2) (Z.shiftr (u8 c) 6))
      :: enc (Z.land (u8 c) 63)
      :: encode r
  end.

Fixpoint decode (fuel : nat) (l : list byte) : option (list byte) :=
  match fuel with
  | O => None
  | S fuel =>
      match l with
      | [] => Some []
      | a :: b :: c :: d :: r =>
          match dec a, dec b with
          | Some ia, Some ib =>
              let o1 := byte_of_Z (Z.lor (Z.shiftl ia 2) (Z.shiftr ib 4)) in
              if Byte.eqb c Pad64 then
                if Byte.eqb d Pad64 then
                  match r with [] => Some [o1] | _ => None end
                else None
              else
                match dec c with
                | Some ic =>
                    let o2 :=
                      byte_of_Z (Z.lor (Z.shiftl (Z.land ib 15) 4)
                                       (Z.shiftr ic 2)) in
                    if Byte.eqb d Pad64 then
                      match r with [] => Some [o1; o2] | _ => None end
                    else
                      match dec d with
                      | Some id =>
                          let o3 :=
                            byte_of_Z (Z.lor (Z.shiftl (Z.land ic 3) 6) id) in
                          match decode fuel r with
                          | Some rest => Some (o1 :: o2 :: o3 :: rest)
                          | None => None
                          end
                      | None => None
                      end
                | None => None
                end
          | _, _ => None
          end
      | _ => None
      end
  end.

End B64.

(** Modelled from the spec: [mcommon_b64_ntop] (common-b64.c) is not among
    the sources.  The spec's section 4.4: standard base64 with [+], [/] and [=]
    padding and no line wrapping, written to a caller-supplied buffer with an
    explicit maximum; overflow (the text and its terminator do not fit) is a
    failure.  [None] is the return value -1, [Some text] a return of the
    length of [text]. *)
Definition mcommon_b64_ntop (src : list byte) (srclength : Z) (targsize : Z)
    : option (list byte) :=
  let text := B64.encode (firstn (Z.to_nat srclength) src) in
  if Z.of_nat (length text) <? targsize then Some text else None.

(** Modelled from the spec: [mcommon_b64_pton] (common-b64.c) is not among
    the sources.  The spec's section 4.4: decodes standard base64, rejects
    invalid characters with the failure sentinel -1 and fails when the bytes
    do not fit the target.  [None] is -1. *)
Definition mcommon_b64_pton (src : list byte) (targsize : Z)
    : option (list byte) :=
  let s := c_str src in
  match B64.decode (S (length s)) s with
  | Some bytes =>
      if Z.of_nat (length bytes) <=? targsize then Some bytes else None
  | None => None
  end.

(** ** Decimal numbers *)

Definition isspace (b : byte) : bool :=
  (u8 b =? 32) || ((9 <=? u8 b) && (u8 b <=? 13)).

Definition isdigit (b : byte) : bool := (48 <=? u8 b) && (u8 b <=? 57).

Fixpoint skip_spaces (l : list byte) : list byte :=
  match l with
  | b :: r => if isspace b then skip_spaces r else l
  | [] => []
  end.

Fixpoint read_digits (acc : Z) (l : list byte) : Z * list byte :=
  match l with
  | b :: r => if isdigit b then read_digits (acc * 10 + (u8 b - 48)) r
              else (acc, l)
  | [] => (acc, [])
  end.

(** Modelled from the spec: [bson_ascii_strtoll] belongs to libbson, which is
    not among the sources.  The spec's step 2, item 6, has the attribute
    parsed as a base-10 signed integer, and the comment at the call has the
    end pointer left at the character that failed to parse.  This is C's
    [strtoll] in base 10: optional white space, an optional sign, decimal
    digits; the value is clamped to the range of [int64_t]; without a digit
    the value is 0 and the end pointer is the start of the string.  Returns
    the value and what the end pointer points to. *)
Definition bson_ascii_strtoll (s : list byte) : Z * list byte :=
  let str := c_str s in
  let t := skip_spaces str in
  let '(neg, t1) :=
    match t with
    | b :: r => if Byte.eqb b Byte.x2d then (true, r)
                else if Byte.eqb b Byte.x2b then (false, r) else (false, t)
    | [] => (false, t)
    end in
  match t1 with
  | b :: _ =>
      if isdigit b then
        let '(n, rest) := read_digits 0 t1 in
        let v := if neg then - n else n in
        (Z.max INT64_MIN (Z.min INT64_MAX v), rest)
      else (0, str)
  | [] => (0, str)
  end.

(** Decimal text of an [int], for [%d]. *)
Definition decimal (z : Z) : string :=
  (if z <? 0 then "-" else "")
  ++ DecimalString.NilZero.string_of_uint (N.to_uint (Z.to_N (Z.abs z))).

(** ** The UTF-8 scanner *)

(** [_mongoc_char_between_chars]: the three arguments are [char]s; the
    callers pass the bounds as integer constants, which are converted to
    [char] first. *)
Definition _mongoc_char_between_chars (c : byte) (lower upper : Z) : bool :=
  (char_val c >=? char_val (byte_of_Z lower))
  && (char_val c <=? char_val (byte_of_Z upper)).

(** [_mongoc_utf8_char_length]: [c] is the string from the character on. *)
Definition _mongoc_utf8_char_length (c : list byte) : Z :=
  let c0 := char_val (byte_at c 0) in
  if Z.land c0 0x80 =? 0 then 1
  else if Z.land c0 0xe0 =? 0xc0 then 2
  else if Z.land c0 0xf0 =? 0xe0 then 3
  else if Z.land c0 0xf8 =? 0xf0 then 4
  else 1.

Definition _mongoc_utf8_is_valid (c : list byte) (length : Z) : bool :=
  let c0 := byte_at c 0 in
  let c1 := byte_at c 1 in
  let c2 := byte_at c 2 in
  let c3 := byte_at c 3 in
  if length =? 1 then _mongoc_char_between_chars c0 0x00 0x7F
  else if length =? 2 then
    _mongoc_char_between_chars c0 0xC2 0xDF
    && _mongoc_char_between_chars c1 0x80 0xBF
  else if length =? 3 then
    (_mongoc_char_between_chars c0 0xE0 0xE0
     && _mongoc_char_between_chars c1 0xA0 0xBF
     && _mongoc_char_between_chars c2 0x80 0xBF)
    || (_mongoc_char_between_chars c0 0xE1 0xEC
        && _mongoc_char_between_chars c1 0x80 0xBF
        && _mongoc_char_between_chars c2 0x80 0xBF)
    || (_mongoc_char_between_chars c0 0xED 0xED
        && _mongoc_char_between_chars c1 0x80 0x9F
        && _mongoc_char_between_chars c2 0x80 0xBF)
    || (_mongoc_char_between_chars c0 0xEE 0xEF
        && _mongoc_char_between_chars c1 0x80 0xBF
        && _mongoc_char_between_chars c2 0x80 0xBF)
  else if length =? 4 then
    (_mongoc_char_between_chars c0 0xF0 0xF0
     && _mongoc_char_between_chars c1 0x90 0xBF
     && _mongoc_char_between_chars c2 0x80 0xBF
     && _mongoc_char_between_chars c3 0x80 0xBF)
    || (_mongoc_char_between_chars c0 0xF1 0xF3
        && _mongoc_char_between_chars c1 0x80 0xBF
        && _mongoc_char_between_chars c2 0x80 0xBF
        && _mongoc_char_between_chars c3 0x80 0xBF)
    || (_mongoc_char_between_chars c0 0xF4 0xF4
        && _mongoc_char_between_chars c1 0x80 0x8F
        && _mongoc_char_between_chars c2 0x80 0xBF
        && _mongoc_char_between_chars c3 0x80 0xBF)
  else true.

(** The [while] loop of [_mongoc_utf8_string_length], which runs until [c]
    points at the terminator; [c] is the rest of the string.  [None]: the fuel ran out before the loop ended. *)
Fixpoint utf8_string_length_loop (fuel : nat) (c : list byte) (str_length : Z)
    : option Z :=
  match fuel with
  | O => None
  | S fuel =>
      if Byte.eqb (byte_at c 0) Byte.x00 then Some str_length
      else
        let char_length := _mongoc_utf8_char_length c in
        if negb (_mongoc_utf8_is_valid c char_length) then Some (-1)
        else
          utf8_string_length_loop fuel (skipn (Z.to_nat char_length) c)
            (str_length + 1)
  end.

(** [_mongoc_utf8_string_length]: every turn of the loop moves past at least
    one byte, so one unit of fuel per byte and one for the terminator
    suffice ([_mongoc_utf8_string_length_total]). *)
Definition _mongoc_utf8_string_length (s : list byte) : option Z :=
  utf8_string_length_loop (S (length s)) s 0.

Definition _mongoc_utf8_to_unicode (c : list byte) (length : Z) : Z :=
  let c0 := char_val (byte_at c 0) in
  let c1 := char_val (byte_at c 1) in
  let c2 := char_val (byte_at c 2) in
  let c3 := char_val (byte_at c 3) in
  if length =? 1 then to_uint32 c0
  else if length =? 2 then
    to_uint32 (Z.lor (Z.shiftl (Z.land c0 0x1f) 6) (Z.land c1 0x3f))
  else if length =? 3 then
    to_uint32 (Z.lor (Z.lor (Z.shiftl (Z.land c0 0x0f) 12)
                            (Z.shiftl (Z.land c1 0x3f) 6))
                     (Z.land c2 0x3f))
  else if length =? 4 then
    to_uint32 (Z.lor (Z.lor (Z.lor (Z.shiftl (Z.land c0 0x07) 18)
                                   (Z.shiftl (Z.land c1 0x3f) 12))
                            (Z.shiftl (Z.land c2 0x3f) 6))
                     (Z.land c3 0x3f))
  else 0.

(** [_mongoc_unicode_codepoint_length], on the value it is called with. *)
Definition _mongoc_unicode_codepoint_length (c : Z) : Z :=
  if c <=? 0x7F then 1
  else if c <=? 0x07FF then 2
  else if c <=? 0xFFFF then 3
  else if c <=? 0x10FFFF then 4
  else -1.

(** ** Code-range tables *)

(** The [for (int i = 0; i < size; i += 2)] loop of
    [_mongoc_is_code_in_table]; [n] bounds the number of turns. *)
Fixpoint is_code_in_table_loop (n : nat) (i : Z) (code : Z) (table : list Z)
    (size : Z) : bool :=
  match n with
  | O => false
  | S n =>
      if i <? size then
        if (code >=? nth (Z.to_nat i) table 0)
           || (code <=? nth (Z.to_nat (i + 1)) table 0)
        then true
        else is_code_in_table_loop n (i + 2) code table size
      else false
  end.

Definition _mongoc_is_code_in_table (code : Z) (table : list Z) (size : Z)
    : bool :=
  is_code_in_table_loop (Z.to_nat size) 0 code table size.

Definition lengthof (table : list Z) : Z := Z.of_nat (length table).

(** The tables of RFC 3454 that [_mongoc_sasl_prep_impl] consults.  Their
    header is not among the sources: they are parameters. *)
Record sasl_prep_tables := {
  non_ascii_space_character_ranges : list Z;
  commonly_mapped_to_nothing_ranges : list Z;
  prohibited_output_ranges : list Z;
  unassigned_codepoint_ranges : list Z;
  LCat_bidi_ranges : list Z;
  RandALCat_bidi_ranges : list Z
}.

(** ** Password preparation *)

Fixpoint _mongoc_sasl_prep_required (str : list byte) : bool :=
  match str with
  | [] => false
  | b :: r =>
      if Byte.eqb b Byte.x00 then false
      else
        let c := u8 b in
        if (c <? 32) || (c >=? 127) then true
        else _mongoc_sasl_prep_required r
  end.

(** The conversion loop of [_mongoc_sasl_prep_impl]: [n] characters decoded
    from [c] on. *)
Fixpoint utf8_decode_loop (n : nat) (c : list byte) : list Z :=
  match n with
  | O => []
  | S n =>
      let char_length := _mongoc_utf8_char_length c in
      _mongoc_utf8_to_unicode c char_length
      :: utf8_decode_loop n (skipn (Z.to_nat char_length) c)
  end.

(** Step a (map) of [_mongoc_sasl_prep_impl]: the read cursor [i] runs over
    the code points and the write cursor [curr] never passes it, so the pass
    is a filter over the list read. *)
Definition sasl_prep_map (t : sasl_prep_tables) (unicode_utf8 : list Z)
    : list Z :=
  flat_map
    (fun u =>
       if _mongoc_is_code_in_table u (non_ascii_space_character_ranges t)
            (lengthof (non_ascii_space_character_ranges t))
       then [0x200]
       else if _mongoc_is_code_in_table u
                 (commonly_mapped_to_nothing_ranges t)
                 (lengthof (commonly_mapped_to_nothing_ranges t))
       then []
       else [u])
    unicode_utf8.

(** Step d (bidi) of [_mongoc_sasl_prep_impl]: the two flags after the
    scan, which stops at an LCat code point seen after a RandALCat one. *)
Fixpoint sasl_prep_bidi (t : sasl_prep_tables) (l : list Z)
    (contains_LCat contains_RandALCar : bool) : bool * bool :=
  match l with
  | [] => (contains_LCat, contains_RandALCar)
  | u :: r =>
      let lcat :=
        _mongoc_is_code_in_table u (LCat_bidi_ranges t)
          (lengthof (LCat_bidi_ranges t)) in
      if lcat && contains_RandALCar then (true, contains_RandALCar)
      else
        sasl_prep_bidi t r (contains_LCat || lcat)
          (contains_RandALCar
           || _mongoc_is_code_in_table u (RandALCat_bidi_ranges t)
                (lengthof (RandALCat_bidi_ranges t)))
  end.

(** [_mongoc_sasl_prep_impl] (built with MONGOC_ENABLE_ICU).  The result is
    the returned string ([None] for NULL) and the error record.  The prohibit
    and bidi checks have empty bodies in the source and the function ends in
    [return NULL]: what the passes compute is bound and dropped.  The outer
    [option] is the fuel of [_mongoc_utf8_string_length]. *)
Definition _mongoc_sasl_prep_impl (t : sasl_prep_tables) (name : string)
    (in_utf8 : list byte) (in_utf8_len : Z) (err : option bson_error_t)
    : option (option (list byte) * option bson_error_t) :=
  match _mongoc_utf8_string_length in_utf8 with
  | None => None
  | Some in_utf8_actual_len =>
      if in_utf8_actual_len =? -1 then
        Some (None,
              protocol_error err
                ("could not calculate UTF-8 length of " ++ name))
      else
        let unicode_utf8 :=
          utf8_decode_loop (Z.to_nat in_utf8_actual_len) in_utf8 in
        let unicode_utf8 := sasl_prep_map t unicode_utf8 in
        let '(contains_LCat, contains_RandALCar) :=
          sasl_prep_bidi t unicode_utf8 false false in
        let out_utf8_len :=
          fold_left
            (fun acc u => acc + _mongoc_unicode_codepoint_length u)
            unicode_utf8 0 in
        Some (None, err)
  end.

(** [_mongoc_sasl_prep]: [icu] is the build configuration, [Some] tables when
    MONGOC_ENABLE_ICU is defined. *)
Definition _mongoc_sasl_prep (icu : option sasl_prep_tables)
    (in_utf8 : list byte) (in_utf8_len : Z) (err : option bson_error_t)
    : option (option (list byte) * option bson_error_t) :=
  match icu with
  | Some t => _mongoc_sasl_prep_impl t "password" in_utf8 in_utf8_len err
  | None =>
      if _mongoc_sasl_prep_required in_utf8 then
        Some (None,
              protocol_error err
                "SCRAM Failure: ICU required to SASLPrep password")
      else Some (Some (bson_strdup in_utf8), err)
  end.

(** ** Sessions and cache entries *)

Inductive mongoc_crypto_hash_algorithm_t :=
| MONGOC_CRYPTO_ALGORITHM_SHA_1
| MONGOC_CRYPTO_ALGORITHM_SHA_256
| MONGOC_CRYPTO_ALGORITHM_OTHER.

Definition MONGOC_SCRAM_SHA_1_HASH_SIZE : Z := 20.
Definition MONGOC_SCRAM_SHA_256_HASH_SIZE : Z := 32.
Definition MONGOC_SCRAM_HASH_MAX_SIZE : Z := MONGOC_SCRAM_SHA_256_HASH_SIZE.
Definition MONGOC_SCRAM_SERVER_KEY : list byte := lit "Server Key".
Definition MONGOC_SCRAM_CLIENT_KEY : list byte := lit "Client Key".

Record mongoc_scram_cache_t := {
  cache_hashed_password : option (list byte);
  cache_decoded_salt : list byte;
  cache_iterations : Z;
  cache_client_key : list byte;
  cache_server_key : list byte;
  cache_salted_password : list byte
}.

Record mongoc_scram_t := {
  step : Z;
  user : option (list byte);
  pass : option (list byte);
  hashed_password : option (list byte);
  decoded_salt : list byte;
  iterations : Z;
  client_key : list byte;
  server_key : list byte;
  salted_password : list byte;
  encoded_nonce : list byte;
  encoded_nonce_len : Z;
  auth_message : list byte;
  auth_messagemax : Z;
  auth_messagelen : Z;
  algorithm : mongoc_crypto_hash_algorithm_t;
  cache : option mongoc_scram_cache_t
}.

(** What a step hands back: the return value, the session, the output buffer
    with its cursor and the error record. *)
Record step_result := {
  rval : bool;
  scram_out : mongoc_scram_t;
  outbuf_out : list byte;
  outbuflen_out : Z;
  error_out : option bson_error_t
}.

Definition _scram_hash_size (scram : mongoc_scram_t) : Z :=
  match algorithm scram with
  | MONGOC_CRYPTO_ALGORITHM_SHA_1 => MONGOC_SCRAM_SHA_1_HASH_SIZE
  | MONGOC_CRYPTO_ALGORITHM_SHA_256 => MONGOC_SCRAM_SHA_256_HASH_SIZE
  | MONGOC_CRYPTO_ALGORITHM_OTHER => 0
  end.

(** [memcpy (dst, src, n)] onto the start of the array [dst]. *)
Definition memcpy (dst src : list byte) (n : Z) : list byte :=
  firstn (Z.to_nat n) src ++ skipn (Z.to_nat n) dst.

(** [!*p] for an array [p]. *)
Definition first_is_zero (p : list byte) : bool :=
  Byte.eqb (byte_at p 0) Byte.x00.

(** Modelled from the spec: [mongoc_memcmp] (mongoc-memcmp.c) is not among
    the sources.  The spec's section 7 has it compare without a short cut on
    a mismatch: the differences of all [len] byte pairs are accumulated and
    the result is 0 when there is none and -1 otherwise. *)
Definition mongoc_memcmp (b1 b2 : list byte) (len : Z) : Z :=
  let d :=
    fold_left
      (fun acc i => Z.lor acc (Z.lxor (u8 (byte_at b1 i)) (u8 (byte_at b2 i))))
      (seq 0 (Z.to_nat len)) 0 in
  if d =? 0 then 0 else -1.

(** ** The conversation *)

Section Conversation.

(** The build configuration: the tables when MONGOC_ENABLE_ICU is defined. *)
Variable icu : option sasl_prep_tables.

(** The capabilities the module consumes: the HMAC and the hash of the
    session's algorithm ([mongoc_crypto_hmac], [mongoc_crypto_hash]), the
    MongoDB password digest ([_mongoc_hex_md5]) and the random source
    ([_mongoc_rand_bytes]; [None] when it reports a failure). *)
Variable crypto_hmac :
  mongoc_crypto_hash_algorithm_t -> list byte -> list byte -> list byte.
Variable crypto_hash :
  mongoc_crypto_hash_algorithm_t -> list byte -> list byte.
Variable _mongoc_hex_md5 : list byte -> list byte.
Variable _mongoc_rand_bytes : Z -> option (list byte).

(** Two sizes of mongoc-scram-private.h, which is not among the sources:
    MONGOC_SCRAM_B64_HASH_MAX_SIZE, the size of the [decoded_salt] arrays and
    of the buffer a signature is encoded into, and the size of the
    [encoded_nonce] array. *)
Variable MONGOC_SCRAM_B64_HASH_MAX_SIZE : Z.
Variable sizeof_encoded_nonce : Z.

(** [mongoc_crypto_hmac (&scram->crypto, key, key_len, data, data_len, out)]:
    the digest is written to the start of [out]. *)
Definition mongoc_crypto_hmac (scram : mongoc_scram_t) (key : list byte)
    (key_len : Z) (data : list byte) (data_len : Z) (out : list byte)
    : list byte :=
  let digest :=
    crypto_hmac (algorithm scram) (firstn (Z.to_nat key_len) key)
      (firstn (Z.to_nat data_len) data) in
  memcpy out digest (Z.of_nat (length digest)).

Definition mongoc_crypto_hash (scram : mongoc_scram_t) (data : list byte)
    (data_len : Z) (out : list byte) : list byte :=
  let digest :=
    crypto_hash (algorithm scram) (firstn (Z.to_nat data_len) data) in
  memcpy out digest (Z.of_nat (length digest)).

Definition sizeof_key : Z := MONGOC_SCRAM_HASH_MAX_SIZE.
Definition sizeof_decoded_salt : Z := MONGOC_SCRAM_B64_HASH_MAX_SIZE.

Definition _mongoc_scram_cache_apply_secrets (entry : mongoc_scram_cache_t)
    (scram : mongoc_scram_t) : mongoc_scram_t :=
  {| step := step scram; user := user scram; pass := pass scram;
     hashed_password := hashed_password scram;
     decoded_salt := decoded_salt scram; iterations := iterations scram;
     client_key := memcpy (client_key scram) (cache_client_key entry)
                     sizeof_key;
     server_key := memcpy (server_key scram) (cache_server_key entry)
                     sizeof_key;
     salted_password :=
       memcpy (salted_password scram) (cache_salted_password entry)
         sizeof_key;
     encoded_nonce := encoded_nonce scram;
     encoded_nonce_len := encoded_nonce_len scram;
     auth_message := auth_message scram;
     auth_messagemax := auth_messagemax scram;
     auth_messagelen := auth_messagelen scram;
     algorithm := algorithm scram; cache := cache scram |}.

Definition zeros (n : Z) : list byte := repeat Byte.x00 (Z.to_nat n).

(** [bson_malloc0] followed by the copies: a copy of a NULL string stays
    NULL. *)
Definition _mongoc_scram_cache_copy (entry : option mongoc_scram_cache_t)
    : option mongoc_scram_cache_t :=
  match entry with
  | None => None
  | Some entry =>
      Some
        {| cache_hashed_password :=
             option_map bson_strdup (cache_hashed_password entry);
           cache_decoded_salt :=
             memcpy (zeros sizeof_decoded_salt) (cache_decoded_salt entry)
               sizeof_decoded_salt;
           cache_iterations := cache_iterations entry;
           cache_client_key :=
             memcpy (zeros sizeof_key) (cache_client_key entry) sizeof_key;
           cache_server_key :=
             memcpy (zeros sizeof_key) (cache_server_key entry) sizeof_key;
           cache_salted_password :=
             memcpy (zeros sizeof_key) (cache_salted_password entry)
               sizeof_key |}
  end.

(** [_mongoc_scram_cache_has_presecrets]: the salts are compared over
    [sizeof (cache->decoded_salt)] bytes. *)
Definition _mongoc_scram_cache_has_presecrets (entry : mongoc_scram_cache_t)
    (scram : mongoc_scram_t) : bool :=
  match cache_hashed_password entry, hashed_password scram with
  | Some cache_pw, Some scram_pw =>
      strcmp_eq cache_pw scram_pw
      && (cache_iterations entry =? iterations scram)
      && memcmp_eq (cache_decoded_salt entry) (decoded_salt scram)
           (Z.to_nat sizeof_decoded_salt)
  | _, _ => false
  end.

Definition with_cache (scram : mongoc_scram_t)
    (c : option mongoc_scram_cache_t) : mongoc_scram_t :=
  {| step := step scram; user := user scram; pass := pass scram;
     hashed_password := hashed_password scram;
     decoded_salt := decoded_salt scram; iterations := iterations scram;
     client_key := client_key scram; server_key := server_key scram;
     salted_password := salted_password scram;
     encoded_nonce := encoded_nonce scram;
     encoded_nonce_len := encoded_nonce_len scram;
     auth_message := auth_message scram;
     auth_messagemax := auth_messagemax scram;
     auth_messagelen := auth_messagelen scram;
     algorithm := algorithm scram; cache := c |}.

Definition _mongoc_scram_get_cache (scram : mongoc_scram_t)
    : option mongoc_scram_cache_t :=
  _mongoc_scram_cache_copy (cache scram).

Definition _mongoc_scram_set_cache (scram : mongoc_scram_t)
    (entry : option mongoc_scram_cache_t) : mongoc_scram_t :=
  with_cache scram (_mongoc_scram_cache_copy entry).

Definition _mongoc_scram_set_pass (scram : mongoc_scram_t)
    (pass' : option (list byte)) : mongoc_scram_t :=
  {| step := step scram; user := user scram;
     pass := option_map bson_strdup pass';
     hashed_password := hashed_password scram;
     decoded_salt := decoded_salt scram; iterations := iterations scram;
     client_key := client_key scram; server_key := server_key scram;
     salted_password := salted_password scram;
     encoded_nonce := encoded_nonce scram;
     encoded_nonce_len := encoded_nonce_len scram;
     auth_message := auth_message scram;
     auth_messagemax := auth_messagemax scram;
     auth_messagelen := auth_messagelen scram;
     algorithm := algorithm scram; cache := cache scram |}.

Definition _mongoc_scram_set_user (scram : mongoc_scram_t)
    (user' : option (list byte)) : mongoc_scram_t :=
  {| step := step scram; user := option_map bson_strdup user';
     pass := pass scram;
     hashed_password := hashed_password scram;
     decoded_salt := decoded_salt scram; iterations := iterations scram;
     client_key := client_key scram; server_key := server_key scram;
     salted_password := salted_password scram;
     encoded_nonce := encoded_nonce scram;
     encoded_nonce_len := encoded_nonce_len scram;
     auth_message := auth_message scram;
     auth_messagemax := auth_messagemax scram;
     auth_messagelen := auth_messagelen scram;
     algorithm := algorithm scram; cache := cache scram |}.

(** [_mongoc_scram_init]: everything zero, then the algorithm. *)
Definition _mongoc_scram_init (algo : mongoc_crypto_hash_algorithm_t)
    : mongoc_scram_t :=
  {| step := 0; user := None; pass := None; hashed_password := None;
     decoded_salt := zeros sizeof_decoded_salt; iterations := 0;
     client_key := zeros sizeof_key; server_key := zeros sizeof_key;
     salted_password := zeros sizeof_key;
     encoded_nonce := zeros sizeof_encoded_nonce; encoded_nonce_len := 0;
     auth_message := []; auth_messagemax := 0; auth_messagelen := 0;
     algorithm := algo; cache := None |}.

(** [_mongoc_scram_update_cache]: a fresh entry from the session's presecrets
    and secrets.  [bson_strdup] of the session's [hashed_password]. *)
Definition _mongoc_scram_update_cache (scram : mongoc_scram_t)
    : mongoc_scram_t :=
  with_cache scram
    (Some
       {| cache_hashed_password :=
            option_map bson_strdup (hashed_password scram);
          cache_decoded_salt :=
            memcpy (zeros sizeof_decoded_salt) (decoded_salt scram)
              sizeof_decoded_salt;
          cache_iterations := iterations scram;
          cache_client_key :=
            memcpy (zeros sizeof_key) (client_key scram) sizeof_key;
          cache_server_key :=
            memcpy (zeros sizeof_key) (server_key scram) sizeof_key;
          cache_salted_password :=
            memcpy (zeros sizeof_key) (salted_password scram) sizeof_key |}).

Definition with_auth_message (scram : mongoc_scram_t) (m : list byte)
    (max len : Z) : mongoc_scram_t :=
  {| step := step scram; user := user scram; pass := pass scram;
     hashed_password := hashed_password scram;
     decoded_salt := decoded_salt scram; iterations := iterations scram;
     client_key := client_key scram; server_key := server_key scram;
     salted_password := salted_password scram;
     encoded_nonce := encoded_nonce scram;
     encoded_nonce_len := encoded_nonce_len scram;
     auth_message := m; auth_messagemax := max; auth_messagelen := len;
     algorithm := algorithm scram; cache := cache scram |}.

Definition with_encoded_nonce (scram : mongoc_scram_t) (n : list byte)
    (len : Z) : mongoc_scram_t :=
  {| step := step scram; user := user scram; pass := pass scram;
     hashed_password := hashed_password scram;
     decoded_salt := decoded_salt scram; iterations := iterations scram;
     client_key := client_key scram; server_key := server_key scram;
     salted_password := salted_password scram;
     encoded_nonce := n; encoded_nonce_len := len;
     auth_message := auth_message scram;
     auth_messagemax := auth_messagemax scram;
     auth_messagelen := auth_messagelen scram;
     algorithm := algorithm scram; cache := cache scram |}.

Definition with_presecrets (scram : mongoc_scram_t)
    (pw : option (list byte)) (it : Z) (salt : list byte) : mongoc_scram_t :=
  {| step := step scram; user := user scram; pass := pass scram;
     hashed_password := pw; decoded_salt := salt; iterations := it;
     client_key := client_key scram; server_key := server_key scram;
     salted_password := salted_password scram;
     encoded_nonce := encoded_nonce scram;
     encoded_nonce_len := encoded_nonce_len scram;
     auth_message := auth_message scram;
     auth_messagemax := auth_messagemax scram;
     auth_messagelen := auth_messagelen scram;
     algorithm := algorithm scram; cache := cache scram |}.

Definition with_secrets (scram : mongoc_scram_t)
    (ck sk sp : list byte) : mongoc_scram_t :=
  {| step := step scram; user := user scram; pass := pass scram;
     hashed_password := hashed_password scram;
     decoded_salt := decoded_salt scram; iterations := iterations scram;
     client_key := ck; server_key := sk; salted_password := sp;
     encoded_nonce := encoded_nonce scram;
     encoded_nonce_len := encoded_nonce_len scram;
     auth_message := auth_message scram;
     auth_messagemax := auth_messagemax scram;
     auth_messagelen := auth_messagelen scram;
     algorithm := algorithm scram; cache := cache scram |}.

Definition with_step (scram : mongoc_scram_t) (n : Z) : mongoc_scram_t :=
  {| step := n; user := user scram; pass := pass scram;
     hashed_password := hashed_password scram;
     decoded_salt := decoded_salt scram; iterations := iterations scram;
     client_key := client_key scram; server_key := server_key scram;
     salted_password := salted_password scram;
     encoded_nonce := encoded_nonce scram;
     encoded_nonce_len := encoded_nonce_len scram;
     auth_message := auth_message scram;
     auth_messagemax := auth_messagemax scram;
     auth_messagelen := auth_messagelen scram;
     algorithm := algorithm scram; cache := cache scram |}.

Definition returns (r : bool) (scram : mongoc_scram_t) (outbuf : list byte)
    (outbuflen : Z) (error : option bson_error_t) : option step_result :=
  Some {| rval := r; scram_out := scram; outbuf_out := outbuf;
          outbuflen_out := outbuflen; error_out := error |}.

(** *** Step 1 *)

(** The loop of [_mongoc_scram_start] over the user name, from [ptr] on. *)
Fixpoint start_user_loop (ptr : list byte) (outbuf : list byte)
    (outbufmax outbuflen : Z) : bool * list byte * Z :=
  match ptr with
  | [] => (true, outbuf, outbuflen)
  | c :: rest =>
      if Byte.eqb c Byte.x00 then (true, outbuf, outbuflen)
      else
        let w :=
          if Byte.eqb c Byte.x2c then
            _mongoc_scram_buf_write (lit "=2C") (-1) outbuf outbufmax
              outbuflen
          else if Byte.eqb c Byte.x3d then
            _mongoc_scram_buf_write (lit "=3D") (-1) outbuf outbufmax
              outbuflen
          else _mongoc_scram_buf_write ptr 1 outbuf outbufmax outbuflen in
        match w with
        | (true, outbuf, outbuflen) =>
            start_user_loop rest outbuf outbufmax outbuflen
        | (false, outbuf, outbuflen) => (false, outbuf, outbuflen)
        end
  end.

Definition step1_BUFFER_AUTH : string :=
  "SCRAM Failure: could not buffer auth message in sasl step1".
Definition step1_BUFFER : string :=
  "SCRAM Failure: could not buffer sasl step1".

(** [_mongoc_scram_start].  [None]: an assertion aborts.  The memory that
    [bson_malloc] hands out for [auth_message] holds nothing yet. *)
Definition _mongoc_scram_start (scram : mongoc_scram_t) (outbuf : list byte)
    (outbufmax outbuflen : Z) (error : option bson_error_t)
    : option step_result :=
  if outbufmax =? 0 then None
  else
    match user scram with
    | None =>
        returns false scram outbuf outbuflen
          (protocol_error error "SCRAM Failure: username is not set")
    | Some usr =>
        let scram :=
          with_auth_message scram [] outbufmax (auth_messagelen scram) in
        match _mongoc_rand_bytes 24 with
        | None =>
            returns false scram outbuf outbuflen
              (protocol_error error
                 "SCRAM Failure: could not generate a cryptographically secure nonce in sasl step 1")
        | Some nonce =>
            match mcommon_b64_ntop nonce 24 sizeof_encoded_nonce with
            | None =>
                returns false
                  (with_encoded_nonce scram (encoded_nonce scram) (-1))
                  outbuf outbuflen
                  (protocol_error error
                     "SCRAM Failure: could not encode nonce")
            | Some text =>
                let scram :=
                  with_encoded_nonce scram text (Z.of_nat (length text)) in
                let BUFFER ob ol :=
                  returns false scram ob ol
                    (protocol_error error step1_BUFFER) in
                match
                  _mongoc_scram_buf_write (lit "n,,n=") (-1) outbuf outbufmax
                    outbuflen
                with
                | (false, ob, ol) => BUFFER ob ol
                | (true, outbuf, outbuflen) =>
                match start_user_loop usr outbuf outbufmax outbuflen with
                | (false, ob, ol) => BUFFER ob ol
                | (true, outbuf, outbuflen) =>
                match
                  _mongoc_scram_buf_write (lit ",r=") (-1) outbuf outbufmax
                    outbuflen
                with
                | (false, ob, ol) => BUFFER ob ol
                | (true, outbuf, outbuflen) =>
                match
                  _mongoc_scram_buf_write (encoded_nonce scram)
                    (encoded_nonce_len scram) outbuf outbufmax outbuflen
                with
                | (false, ob, ol) => BUFFER ob ol
                | (true, outbuf, outbuflen) =>
                let BUFFER_AUTH s :=
                  returns false s outbuf outbuflen
                    (protocol_error error step1_BUFFER_AUTH) in
                match
                  _mongoc_scram_buf_write (skipn 3 outbuf)
                    (to_int32 (to_uint32 (outbuflen - 3)))
                    (auth_message scram) (auth_messagemax scram)
                    (auth_messagelen scram)
                with
                | (false, m, l) =>
                    BUFFER_AUTH
                      (with_auth_message scram m (auth_messagemax scram) l)
                | (true, m, l) =>
                let scram :=
                  with_auth_message scram m (auth_messagemax scram) l in
                match
                  _mongoc_scram_buf_write (lit ",") (-1)
                    (auth_message scram) (auth_messagemax scram)
                    (auth_messagelen scram)
                with
                | (false, m, l) =>
                    BUFFER_AUTH
                      (with_auth_message scram m (auth_messagemax scram) l)
                | (true, m, l) =>
                    returns true
                      (with_auth_message scram m (auth_messagemax scram) l)
                      outbuf outbuflen error
                end end end end end end
            end
        end
    end.

(** *** Key derivation *)

(** [output[k] ^= intermediate_digest[k]] for [k] below [hash_size]. *)
Fixpoint xor_into (hash_size : nat) (output digest : list byte) : list byte :=
  match hash_size, output with
  | S n, o :: output => byte_xor o (byte_at digest 0)
                        :: xor_into n output (tl digest)
  | _, _ => output
  end.

(** The loop [for (uint32_t i = 2u; i <= iterations; i++)] of
    [_mongoc_scram_salt_password]: [intermediate_digest] holds the first
    [hash_size] bytes of the local array.  [None]: the fuel ran out before
    the loop ended. *)
Fixpoint salt_password_loop (fuel : nat) (scram : mongoc_scram_t)
    (password : list byte) (password_len : Z) (i iterations : Z)
    (output intermediate_digest : list byte) : option (list byte) :=
  match fuel with
  | O => None
  | S fuel =>
      if i <=? iterations then
        let hash_size := _scram_hash_size scram in
        let intermediate_digest :=
          firstn (Z.to_nat hash_size)
            (mongoc_crypto_hmac scram password password_len
               intermediate_digest hash_size intermediate_digest) in
        let output :=
          xor_into (Z.to_nat hash_size) output intermediate_digest in
        salt_password_loop fuel scram password password_len
          (to_uint32 (i + 1)) iterations output intermediate_digest
      else Some output
  end.

(** [_mongoc_scram_salt_password]: the session with [salted_password]
    computed.  [start_key] is the part of the local array that is written,
    the salt followed by the four bytes of the block index. *)
Definition _mongoc_scram_salt_password (fuel : nat) (scram : mongoc_scram_t)
    (password : list byte) (password_len : Z) (salt : list byte)
    (salt_len : Z) (iterations : Z) : option mongoc_scram_t :=
  let start_key :=
    firstn (Z.to_nat salt_len) salt
    ++ [Byte.x00; Byte.x00; Byte.x00; Byte.x01] in
  let output :=
    mongoc_crypto_hmac scram password password_len start_key
      (_scram_hash_size scram) (salted_password scram) in
  let intermediate_digest :=
    firstn (Z.to_nat (_scram_hash_size scram)) output in
  match
    salt_password_loop fuel scram password password_len 2 iterations output
      intermediate_digest
  with
  | Some output =>
      Some (with_secrets scram (client_key scram) (server_key scram) output)
  | None => None
  end.

(** [client_proof[i] = client_key[i] ^ client_signature[i]] for [i] below
    [hash_size]. *)
Definition xor_proof (hash_size : nat) (ck sig : list byte) : list byte :=
  map (fun i => byte_xor (byte_at ck i) (byte_at sig i)) (seq 0 hash_size).

(** [_mongoc_scram_generate_client_proof]: the return value, the session and
    the output buffer with its cursor. *)
Definition _mongoc_scram_generate_client_proof (scram : mongoc_scram_t)
    (outbuf : list byte) (outbufmax outbuflen : Z)
    : bool * mongoc_scram_t * list byte * Z :=
  let hash_size := _scram_hash_size scram in
  let scram :=
    if first_is_zero (client_key scram) then
      with_secrets scram
        (mongoc_crypto_hmac scram (salted_password scram) hash_size
           MONGOC_SCRAM_CLIENT_KEY (strlen MONGOC_SCRAM_CLIENT_KEY)
           (client_key scram))
        (server_key scram) (salted_password scram)
    else scram in
  let stored_key :=
    mongoc_crypto_hash scram (client_key scram) hash_size [] in
  let client_signature :=
    mongoc_crypto_hmac scram stored_key hash_size (auth_message scram)
      (auth_messagelen scram) [] in
  let client_proof :=
    xor_proof (Z.to_nat hash_size) (client_key scram) client_signature in
  match
    mcommon_b64_ntop client_proof hash_size (to_uint32 (outbufmax - outbuflen))
  with
  | None => (false, scram, outbuf, outbuflen)
  | Some text =>
      (true, scram, firstn (Z.to_nat outbuflen) outbuf ++ text,
       to_uint32 (outbuflen + Z.of_nat (length text)))
  end.

(** *** Step 2 *)

Record step2_vals := {
  val_r : option (list byte);
  val_s : option (list byte);
  val_i : option (list byte)
}.

Inductive parsed (A : Type) :=
| Parsed (vals : A)
| ParseError (msg : string).
Arguments Parsed {A} vals.
Arguments ParseError {A} msg.

(** [memchr (ptr, ',', end - ptr)]: the bytes before the first comma and,
    when there is one, the bytes after it. *)
Fixpoint split_comma (ptr : list byte) : list byte * option (list byte) :=
  match ptr with
  | [] => ([], None)
  | c :: rest =>
      if Byte.eqb c Byte.x2c then ([], Some rest)
      else let '(v, next) := split_comma rest in (c :: v, next)
  end.

(** [%c] of a byte. *)
Definition format_c (c : byte) : string := string_of_list_byte [c].

(** [%s] of a string. *)
Definition format_s (s : list byte) : string := string_of_list_byte (c_str s).

(** The parsing loop of [_mongoc_scram_step2] from [ptr] on; [after] is the
    byte that follows the message in memory, which the test for ['='] reads
    when the message ends in a key.  [None]: that byte is ['='] and the
    search for the comma starts past the end of the message (undefined), or
    the fuel ran out. *)
Fixpoint step2_parse (fuel : nat) (ptr : list byte) (after : byte)
    (v : step2_vals) : option (parsed step2_vals) :=
  match fuel with
  | O => None
  | S fuel =>
      match ptr with
      | [] => Some (Parsed v)
      | k :: ptr1 =>
          let current_val : option (list byte -> step2_vals) :=
            if Byte.eqb k "r"%byte then
              Some (fun x =>
                      {| val_r := Some x; val_s := val_s v; val_i := val_i v |})
            else if Byte.eqb k "s"%byte then
              Some (fun x =>
                      {| val_r := val_r v; val_s := Some x; val_i := val_i v |})
            else if Byte.eqb k "i"%byte then
              Some (fun x =>
                      {| val_r := val_r v; val_s := val_s v; val_i := Some x |})
            else None in
          match current_val with
          | None =>
              Some (ParseError
                      ("SCRAM Failure: unknown key (" ++ format_c k
                       ++ ") in sasl step 2"))
          | Some current_val =>
              match ptr1 with
              | [] =>
                  if Byte.eqb after "="%byte then None
                  else
                    Some (ParseError
                            "SCRAM Failure: invalid parse state in sasl step 2")
              | c :: ptr2 =>
                  if negb (Byte.eqb c "="%byte) then
                    Some (ParseError
                            "SCRAM Failure: invalid parse state in sasl step 2")
                  else
                    let '(value, next_comma) := split_comma ptr2 in
                    match next_comma with
                    | Some ptr3 =>
                        step2_parse fuel ptr3 after (current_val value)
                    | None => Some (Parsed (current_val value))
                    end
              end
          end
      end
  end.

Definition step2_BUFFER_AUTH : string :=
  "SCRAM Failure: could not buffer auth message in sasl step2".
Definition step2_BUFFER : string :=
  "SCRAM Failure: could not buffer sasl step2".

(** The password that step 2 derives keys from: the MongoDB digest for
    SHA-1, the SASLprep of the password for SHA-256.  [None]: no normal
    return (a NULL user or password is formatted or measured, or the
    assertion on the algorithm aborts). *)
Definition step2_hashed_password (scram : mongoc_scram_t)
    (error : option bson_error_t)
    : option (option (list byte) * option bson_error_t) :=
  match algorithm scram with
  | MONGOC_CRYPTO_ALGORITHM_SHA_1 =>
      match user scram, pass scram with
      | Some u, Some p =>
          Some (Some (_mongoc_hex_md5 (c_str u ++ lit ":mongo:" ++ c_str p)),
                error)
      | _, _ => None
      end
  | MONGOC_CRYPTO_ALGORITHM_SHA_256 =>
      match pass scram with
      | Some p => _mongoc_sasl_prep icu p (to_int32 (strlen p)) error
      | None => None
      end
  | MONGOC_CRYPTO_ALGORITHM_OTHER => None
  end.

(** [_mongoc_scram_step2]; [inbuf] is the memory at the message and
    [inbuflen] its length.  [None]: no normal return. *)
Definition _mongoc_scram_step2 (scram : mongoc_scram_t) (inbuf : list byte)
    (inbuflen : Z) (outbuf : list byte) (outbufmax outbuflen : Z)
    (error : option bson_error_t) : option step_result :=
  let expected_salt_length := to_int32 (_scram_hash_size scram - 4) in
  if outbufmax =? 0 then None
  else
  match step2_hashed_password scram error with
  | None => None
  | Some (None, error) => returns false scram outbuf outbuflen error
  | Some (Some hashed_password, error) =>
  let FAIL s ob ol e := returns false s ob ol e in
  let BUFFER_AUTH s ob ol :=
    FAIL s ob ol (protocol_error error step2_BUFFER_AUTH) in
  match
    _mongoc_scram_buf_write inbuf (to_int32 inbuflen) (auth_message scram)
      (auth_messagemax scram) (auth_messagelen scram)
  with
  | (false, m, l) =>
      BUFFER_AUTH (with_auth_message scram m (auth_messagemax scram) l)
        outbuf outbuflen
  | (true, m, l) =>
  let scram := with_auth_message scram m (auth_messagemax scram) l in
  match
    _mongoc_scram_buf_write (lit ",") (-1) (auth_message scram)
      (auth_messagemax scram) (auth_messagelen scram)
  with
  | (false, m, l) =>
      BUFFER_AUTH (with_auth_message scram m (auth_messagemax scram) l)
        outbuf outbuflen
  | (true, m, l) =>
  let scram := with_auth_message scram m (auth_messagemax scram) l in
  let msg := firstn (Z.to_nat inbuflen) inbuf in
  match
    step2_parse (S (length msg)) msg (byte_at inbuf (Z.to_nat inbuflen))
      {| val_r := None; val_s := None; val_i := None |}
  with
  | None => None
  | Some (ParseError m) => FAIL scram outbuf outbuflen (protocol_error error m)
  | Some (Parsed v) =>
  match val_r v, val_s v, val_i v with
  | None, _, _ =>
      FAIL scram outbuf outbuflen
        (protocol_error error "SCRAM Failure: no r param in sasl step 2")
  | Some _, None, _ =>
      FAIL scram outbuf outbuflen
        (protocol_error error "SCRAM Failure: no s param in sasl step 2")
  | Some _, Some _, None =>
      FAIL scram outbuf outbuflen
        (protocol_error error "SCRAM Failure: no i param in sasl step 2")
  | Some val_r, Some val_s, Some val_i =>
  let val_r_len := Z.of_nat (length val_r) in
  (* verify our nonce *)
  let error :=
    if (val_r_len <? encoded_nonce_len scram)
       || negb (mongoc_memcmp val_r (encoded_nonce scram)
                  (encoded_nonce_len scram) =? 0)
    then
      protocol_error error
        "SCRAM Failure: client nonce not repeated in sasl step 2"
    else error in
  let outbuflen := 0 in
  let BUFFER ob ol := FAIL scram ob ol (protocol_error error step2_BUFFER) in
  match
    _mongoc_scram_buf_write (lit "c=biws,r=") (-1) outbuf outbufmax outbuflen
  with
  | (false, ob, ol) => BUFFER ob ol
  | (true, outbuf, outbuflen) =>
  match
    _mongoc_scram_buf_write val_r (to_int32 val_r_len) outbuf outbufmax
      outbuflen
  with
  | (false, ob, ol) => BUFFER ob ol
  | (true, outbuf, outbuflen) =>
  match
    _mongoc_scram_buf_write outbuf (to_int32 outbuflen) (auth_message scram)
      (auth_messagemax scram) (auth_messagelen scram)
  with
  | (false, m, l) =>
      FAIL (with_auth_message scram m (auth_messagemax scram) l) outbuf
        outbuflen (protocol_error error step2_BUFFER_AUTH)
  | (true, m, l) =>
  let scram := with_auth_message scram m (auth_messagemax scram) l in
  let BUFFER ob ol := FAIL scram ob ol (protocol_error error step2_BUFFER) in
  match _mongoc_scram_buf_write (lit ",p=") (-1) outbuf outbufmax outbuflen
  with
  | (false, ob, ol) => BUFFER ob ol
  | (true, outbuf, outbuflen) =>
  match mcommon_b64_pton val_s MONGOC_SCRAM_B64_HASH_MAX_SIZE with
  | None =>
      FAIL scram outbuf outbuflen
        (protocol_error error
           "SCRAM Failure: unable to decode salt in sasl step2")
  | Some salt =>
  let decoded_salt_len := Z.of_nat (length salt) in
  let decoded_salt_local :=
    memcpy (zeros MONGOC_SCRAM_B64_HASH_MAX_SIZE) salt decoded_salt_len in
  if negb (expected_salt_length =? decoded_salt_len) then
    FAIL scram outbuf outbuflen
      (protocol_error error
         ("SCRAM Failure: invalid salt length of " ++ decimal decoded_salt_len
          ++ " in sasl step2"))
  else
  let '(parsed_value, tmp) := bson_ascii_strtoll val_i in
  let iterations := to_int32 parsed_value in
  if negb (Byte.eqb (byte_at tmp 0) Byte.x00) then
    FAIL scram outbuf outbuflen
      (protocol_error error
         "SCRAM Failure: unable to parse iterations in sasl step2")
  else if iterations <? 0 then
    FAIL scram outbuf outbuflen
      (protocol_error error
         "SCRAM Failure: iterations is negative in sasl step2")
  else if iterations <? 4096 then
    FAIL scram outbuf outbuflen
      (protocol_error error
         "SCRAM Failure: iterations must be at least 4096")
  else
  (* Save the presecrets for caching *)
  let scram :=
    with_presecrets scram (Some (bson_strdup hashed_password))
      (to_uint32 iterations)
      (memcpy (decoded_salt scram) decoded_salt_local sizeof_decoded_salt)
  in
  let scram :=
    match cache scram with
    | Some entry =>
        if _mongoc_scram_cache_has_presecrets entry scram then
          _mongoc_scram_cache_apply_secrets entry scram
        else scram
    | None => scram
    end in
  match
    (if first_is_zero (salted_password scram) then
       _mongoc_scram_salt_password (Z.to_nat iterations) scram
         hashed_password (to_uint32 (strlen hashed_password))
         decoded_salt_local decoded_salt_len (to_uint32 iterations)
     else Some scram)
  with
  | None => None
  | Some scram =>
      let '(_, scram, outbuf, outbuflen) :=
        _mongoc_scram_generate_client_proof scram outbuf outbufmax outbuflen
      in
      returns true scram outbuf outbuflen error
  end
  end end end end end end end end end
  end.

(** *** Step 3 *)

(** [_mongoc_scram_verify_server_signature]: the return value and the
    session, whose [server_key] the call may fill. *)
Definition _mongoc_scram_verify_server_signature (scram : mongoc_scram_t)
    (verification : list byte) (len : Z) : bool * mongoc_scram_t :=
  let hash_size := _scram_hash_size scram in
  let scram :=
    if first_is_zero (server_key scram) then
      with_secrets scram (client_key scram)
        (mongoc_crypto_hmac scram (salted_password scram) hash_size
           MONGOC_SCRAM_SERVER_KEY (strlen MONGOC_SCRAM_SERVER_KEY)
           (server_key scram))
        (salted_password scram)
    else scram in
  let server_signature :=
    mongoc_crypto_hmac scram (server_key scram) hash_size
      (auth_message scram) (auth_messagelen scram) [] in
  match
    mcommon_b64_ntop server_signature hash_size
      MONGOC_SCRAM_B64_HASH_MAX_SIZE
  with
  | None => (false, scram)
  | Some encoded_server_signature =>
      let encoded_server_signature_len :=
        Z.of_nat (length encoded_server_signature) in
      ((len =? to_uint32 encoded_server_signature_len)
       && (mongoc_memcmp verification encoded_server_signature len =? 0),
       scram)
  end.

Record step3_vals := {
  val_e : option (list byte);
  val_v : option (list byte)
}.

(** The parsing loop of [_mongoc_scram_step3]; see [step2_parse]. *)
Fixpoint step3_parse (fuel : nat) (ptr : list byte) (after : byte)
    (v : step3_vals) : option (parsed step3_vals) :=
  match fuel with
  | O => None
  | S fuel =>
      match ptr with
      | [] => Some (Parsed v)
      | k :: ptr1 =>
          let current_val : option (list byte -> step3_vals) :=
            if Byte.eqb k "e"%byte then
              Some (fun x => {| val_e := Some x; val_v := val_v v |})
            else if Byte.eqb k "v"%byte then
              Some (fun x => {| val_e := val_e v; val_v := Some x |})
            else None in
          match current_val with
          | None =>
              Some (ParseError
                      ("SCRAM Failure: unknown key (" ++ format_c k
                       ++ ") in sasl step 3"))
          | Some current_val =>
              match ptr1 with
              | [] =>
                  if Byte.eqb after "="%byte then None
                  else
                    Some (ParseError
                            "SCRAM Failure: invalid parse state in sasl step 3")
              | c :: ptr2 =>
                  if negb (Byte.eqb c "="%byte) then
                    Some (ParseError
                            "SCRAM Failure: invalid parse state in sasl step 3")
                  else
                    let '(value, next_comma) := split_comma ptr2 in
                    match next_comma with
                    | Some ptr3 =>
                        step3_parse fuel ptr3 after (current_val value)
                    | None => Some (Parsed (current_val value))
                    end
              end
          end
      end
  end.

(** [_mongoc_scram_step3].  [None]: no normal return. *)
Definition _mongoc_scram_step3 (scram : mongoc_scram_t) (inbuf : list byte)
    (inbuflen : Z) (outbuf : list byte) (outbufmax outbuflen : Z)
    (error : option bson_error_t) : option step_result :=
  if outbufmax =? 0 then None
  else
    let msg := firstn (Z.to_nat inbuflen) inbuf in
    match
      step3_parse (S (length msg)) msg (byte_at inbuf (Z.to_nat inbuflen))
        {| val_e := None; val_v := None |}
    with
    | None => None
    | Some (ParseError m) =>
        returns false scram outbuf outbuflen (protocol_error error m)
    | Some (Parsed v) =>
        let outbuflen := 0 in
        match val_e v, val_v v with
        | Some e, _ =>
            returns false scram outbuf outbuflen
              (protocol_error error
                 ("SCRAM Failure: authentication failure in sasl step 3 : "
                  ++ format_s e))
        | None, None =>
            returns false scram outbuf outbuflen
              (protocol_error error
                 "SCRAM Failure: no v param in sasl step 3")
        | None, Some v =>
            let '(ok, scram) :=
              _mongoc_scram_verify_server_signature scram v
                (Z.of_nat (length v)) in
            if negb ok then
              returns false scram outbuf outbuflen
                (protocol_error error
                   "SCRAM Failure: could not verify server signature in sasl step 3")
            else
              (* Update the cache if authentication succeeds *)
              returns true (_mongoc_scram_update_cache scram) outbuf
                outbuflen error
        end
    end.

(** [_mongoc_scram_step]: [scram->step++] on an [int], then the dispatch. *)
Definition _mongoc_scram_step (scram : mongoc_scram_t) (inbuf : list byte)
    (inbuflen : Z) (outbuf : list byte) (outbufmax outbuflen : Z)
    (error : option bson_error_t) : option step_result :=
  let scram := with_step scram (step scram + 1) in
  if step scram =? 1 then
    _mongoc_scram_start scram outbuf outbufmax outbuflen error
  else if step scram =? 2 then
    _mongoc_scram_step2 scram inbuf inbuflen outbuf outbufmax outbuflen error
  else if step scram =? 3 then
    _mongoc_scram_step3 scram inbuf inbuflen outbuf outbufmax outbuflen error
  else
    returns false scram outbuf outbuflen
      (bson_set_error error MONGOC_ERROR_SCRAM MONGOC_ERROR_SCRAM_NOT_DONE
         "SCRAM Failure: maximum steps detected").

End Conversation.

Arguments Parsed {A} vals.
Arguments ParseError {A} msg.

(** * Part II: properties *)

(** ** Integers, bytes and strings *)

Lemma to_uint32_range z : 0 <= to_uint32 z < 4294967296.
Proof. unfold to_uint32. apply Z.mod_pos_bound. lia. Qed.

Lemma to_uint32_small z : 0 <= z < 4294967296 -> to_uint32 z = z.
Proof. intros H. unfold to_uint32. apply Z.mod_small. exact H. Qed.

Lemma to_int32_small z : 0 <= z < 2147483648 -> to_int32 z = z.
Proof.
  intros H. unfold to_int32. rewrite to_uint32_small by lia.
  destruct (Z.ltb_spec z 2147483648); lia.
Qed.

Lemma to_int32_range z : -2147483648 <= to_int32 z < 2147483648.
Proof.
  unfold to_int32. pose proof (to_uint32_range z).
  destruct (Z.ltb_spec (to_uint32 z) 2147483648); lia.
Qed.

Lemma u8_range b : 0 <= u8 b < 256.
Proof. destruct b; vm_compute; split; congruence. Qed.

Lemma byte_of_Z_u8 b : byte_of_Z (u8 b) = b.
Proof. destruct b; reflexivity. Qed.

Lemma u8_inj a b : u8 a = u8 b -> a = b.
Proof.
  intros H. rewrite <- (byte_of_Z_u8 a), <- (byte_of_Z_u8 b), H.
  reflexivity.
Qed.

Lemma bytes_eqb_eq a b : bytes_eqb a b = true <-> a = b.
Proof.
  unfold bytes_eqb. destruct (list_eq_dec Byte.byte_eq_dec a b); split;
    congruence.
Qed.

Lemma byte_eqb_refl b : Byte.eqb b b = true.
Proof. apply Byte.byte_dec_lb. reflexivity. Qed.

Lemma byte_eqb_neq a b : a <> b -> Byte.eqb a b = false.
Proof.
  intros H. destruct (Byte.eqb a b) eqn:E; [|reflexivity].
  apply Byte.byte_dec_bl in E. contradiction.
Qed.

Lemma c_str_no_nul l : no_nul l -> c_str l = l.
Proof.
  induction 1 as [|b r Hb _ IH]; simpl; [reflexivity|].
  rewrite byte_eqb_neq by assumption. now rewrite IH.
Qed.

Lemma c_str_is_no_nul l : no_nul (c_str l).
Proof.
  induction l as [|b r IH]; simpl; [constructor|].
  destruct (Byte.eqb b Byte.x00) eqn:E; constructor; auto.
  intros ->. discriminate.
Qed.

Lemma c_str_idem l : c_str (c_str l) = c_str l.
Proof. apply c_str_no_nul, c_str_is_no_nul. Qed.

Lemma no_nul_skipn n l : no_nul l -> no_nul (skipn n l).
Proof.
  unfold no_nul. intros H. rewrite <- (firstn_skipn n l) in H.
  apply Forall_app in H. tauto.
Qed.

Lemma no_nul_app a b : no_nul a -> no_nul b -> no_nul (a ++ b).
Proof. unfold no_nul. intros. apply Forall_app. auto. Qed.

(** ** The buffer writer (C10) *)

Section BufWrite.

Variables (src : list byte) (src_len : Z) (outbuf : list byte).
Variables (outbufmax outbuflen : Z).

Let result := _mongoc_scram_buf_write src src_len outbuf outbufmax outbuflen.
Let ok := fst (fst result).
Let outbuflen' := snd result.

(** Whatever the arguments, a write that succeeds leaves the cursor below
    the capacity, and a write that fails leaves buffer and cursor alone. *)
Lemma buf_write_cursor_below_max : ok = true -> 0 <= outbuflen' < outbufmax.
Proof.
  subst ok outbuflen' result. unfold _mongoc_scram_buf_write.
  set (n := if src_len <? 0 then _ else _).
  pose proof (to_uint32_range (outbuflen + n)).
  destruct (Z.geb_spec (to_uint32 (outbuflen + n)) outbufmax); simpl;
    [discriminate | lia].
Qed.

Lemma buf_write_failure_frame :
  ok = false -> result = (false, outbuf, outbuflen).
Proof.
  subst ok result. unfold _mongoc_scram_buf_write.
  set (n := if src_len <? 0 then _ else _).
  destruct (to_uint32 (outbuflen + n) >=? outbufmax); simpl;
    [reflexivity | discriminate].
Qed.

(** C10, as amended: a write that succeeds leaves the cursor strictly below
    [outbufmax], whatever the arguments; and when the cursor plus the length
    to append stays within 32 bits, the write succeeds exactly when that sum
    is strictly below [outbufmax], so that a write that would fill the
    buffer exactly fails, and a write that succeeds appends the bytes and
    advances the cursor by their number. *)
Theorem buf_write_succeeds_iff_room :
  (ok = true -> 0 <= outbuflen' < outbufmax)
  /\ (0 <= outbuflen ->
      0 <= write_len src src_len ->
      outbuflen + write_len src src_len < 4294967296 ->
      (ok = true <-> outbuflen + write_len src src_len < outbufmax)
      /\ (outbuflen + write_len src src_len = outbufmax -> ok = false)
      /\ (ok = true ->
          outbuflen' = outbuflen + write_len src src_len
          /\ snd (fst result)
             = firstn (Z.to_nat outbuflen) outbuf
               ++ firstn (Z.to_nat (write_len src src_len)) src)).
Proof.
  split; [exact buf_write_cursor_below_max|].
  intros Hlen Hn Hsum.
  subst ok outbuflen' result. unfold _mongoc_scram_buf_write, write_len in *.
  set (n := if src_len <? 0 then _ else _) in *.
  rewrite (to_uint32_small (outbuflen + n)) by lia.
  destruct (Z.geb_spec (outbuflen + n) outbufmax); simpl.
  - repeat split; intros; try discriminate; lia.
  - repeat split; intros; try reflexivity; try lia.
Qed.

End BufWrite.

(** At the upper end of the 32-bit range the sum of cursor and length wraps
    around: ten bytes at cursor 4294967290 of a buffer of 4294967295 bytes
    are accepted, and the cursor becomes 4, although cursor plus length is
    not below the capacity. *)
Lemma buf_write_wraps_around :
  let r :=
    _mongoc_scram_buf_write (lit "0123456789") 10 [] 4294967295 4294967290 in
  fst (fst r) = true
  /\ snd r = 4
  /\ ~ (4294967290 + write_len (lit "0123456789") 10 < 4294967295).
Proof.
  cbv zeta. split; [reflexivity | split; [reflexivity | ]].
  unfold write_len. simpl. lia.
Qed.

Lemma buf_write_succeeds_iff_room_witness :
  0 <= write_len (lit "n,,n=") (-1)
  /\ 0 + write_len (lit "n,,n=") (-1) < 4294967296
  /\ (fst (fst (_mongoc_scram_buf_write (lit "n,,n=") (-1) [] 8 0)) = true
      <-> 0 + write_len (lit "n,,n=") (-1) < 8).
Proof.
  assert (H1 : 0 <= write_len (lit "n,,n=") (-1))
    by (vm_compute; discriminate).
  assert (H2 : 0 + write_len (lit "n,,n=") (-1) < 4294967296)
    by (vm_compute; reflexivity).
  split; [exact H1|]. split; [exact H2|].
  exact (proj1 (proj2 (buf_write_succeeds_iff_room (lit "n,,n=") (-1) [] 8 0)
                  (Z.le_refl 0) H1 H2)).
Defined.

(** ** Password preparation without ICU (C7) *)

(** A byte in [0x00,0x1F] or [0x7F,0xFF]. *)
Definition needs_icu (b : byte) : Prop := u8 b <= 0x1F \/ 0x7F <= u8 b.

Lemma sasl_prep_required_spec s :
  _mongoc_sasl_prep_required s = true <-> Exists needs_icu (c_str s).
Proof.
  unfold needs_icu.
  induction s as [|b r IH]; simpl.
  - split; [discriminate | intros H; inversion H].
  - destruct (Byte.eqb b Byte.x00) eqn:E.
    + split; [discriminate | intros H; inversion H].
    + destruct (Z.ltb_spec (u8 b) 32); simpl.
      * split; [intros _; constructor; lia | reflexivity].
      * destruct (Z.geb_spec (u8 b) 127).
        -- split; [intros _; constructor; lia | reflexivity].
        -- rewrite IH. split; intros H1.
           ++ now apply Exists_cons_tl.
           ++ inversion H1; subst; [lia | assumption].
Qed.

Definition ICU_required : string :=
  "SCRAM Failure: ICU required to SASLPrep password".

(** C7: built without ICU, [_mongoc_sasl_prep] applied to the string held in
    [in_utf8] (its bytes up to the terminator, [c_str in_utf8]) fails, with
    the protocol error "ICU required to SASLPrep password" and a NULL
    result, if and only if the string has a byte in [0x00,0x1F] or
    [0x7F,0xFF]; for every other string it returns a copy of the string and
    leaves the error record alone. *)
Theorem sasl_prep_without_icu in_utf8 in_utf8_len err :
  let r := _mongoc_sasl_prep None in_utf8 in_utf8_len err in
  (r = Some (None, protocol_error err ICU_required)
   <-> Exists needs_icu (c_str in_utf8))
  /\ (r = Some (Some (c_str in_utf8), err)
      <-> ~ Exists needs_icu (c_str in_utf8))
  /\ protocol_error_with "ICU required to SASLPrep password"
       (protocol_error err ICU_required) = true.
Proof.
  cbv zeta. unfold _mongoc_sasl_prep, bson_strdup.
  pose proof (sasl_prep_required_spec in_utf8) as H.
  destruct (_mongoc_sasl_prep_required in_utf8).
  - assert (E : Exists needs_icu (c_str in_utf8)) by now apply H.
    repeat split; auto; try discriminate; intros; try contradiction.
  - assert (E : ~ Exists needs_icu (c_str in_utf8)).
    { intros C. apply H in C. discriminate. }
    repeat split; auto; try discriminate; intros; try contradiction.
Qed.

(** Printable ASCII passes through: a string of bytes in [0x20,0x7E] is
    returned unchanged. *)
Lemma sasl_prep_without_icu_printable s len err :
  Forall (fun b => 0x20 <= u8 b <= 0x7E) s ->
  _mongoc_sasl_prep None s len err = Some (Some s, err).
Proof.
  intros H.
  assert (N : no_nul s).
  { eapply Forall_impl; [|exact H]. intros b Hb ->. vm_compute in Hb.
    destruct Hb as [Hb _]. now apply Hb. }
  unfold _mongoc_sasl_prep, bson_strdup.
  destruct (_mongoc_sasl_prep_required s) eqn:R.
  - apply sasl_prep_required_spec in R. rewrite (c_str_no_nul s N) in R.
    apply Exists_exists in R. destruct R as [b [Hin Hb]].
    rewrite Forall_forall in H. specialize (H b Hin).
    unfold needs_icu in Hb. lia.
  - now rewrite (c_str_no_nul s N).
Qed.

(** ** The UTF-8 scanner (C9) *)

Lemma u8_byte_of_Z z : 0 <= z < 256 -> u8 (byte_of_Z z) = z.
Proof.
  intros H. unfold byte_of_Z, u8. rewrite Z.mod_small by exact H.
  destruct (Byte.of_N (Z.to_N z)) as [b|] eqn:E.
  - apply Byte.to_of_N in E. rewrite E. lia.
  - apply Byte.of_N_None_iff in E. lia.
Qed.

(** Comparing as [char]s is comparing the byte values, as long as both
    bounds lie on the same side of 0x80: the signedness of [char] does not
    show in [_mongoc_utf8_is_valid]. *)
Lemma between_chars_unsigned c lower upper :
  0 <= lower <= upper /\ upper < 128 \/ 128 <= lower <= upper /\ upper < 256 ->
  _mongoc_char_between_chars c lower upper
  = (lower <=? u8 c) && (u8 c <=? upper).
Proof.
  intros H. unfold _mongoc_char_between_chars, char_val.
  rewrite !u8_byte_of_Z by lia. pose proof (u8_range c).
  destruct (Z.ltb_spec (u8 c) 128), (Z.ltb_spec lower 128),
    (Z.ltb_spec upper 128); try lia;
    destruct (Z.leb_spec lower (u8 c)), (Z.leb_spec (u8 c) upper);
    simpl; try lia;
    repeat match goal with
           | |- context [?a >=? ?b] => destruct (Z.geb_spec a b); try lia
           | |- context [?a <=? ?b] => destruct (Z.leb_spec a b); try lia
           end; reflexivity.
Qed.

(** A continuation byte, 0x80 to 0xBF. *)
Definition is_continuation (b : byte) : Prop := 0x80 <= u8 b <= 0xBF.

Lemma between_chars_range c lower upper :
  0 <= lower <= upper /\ upper < 128 \/ 128 <= lower <= upper /\ upper < 256 ->
  _mongoc_char_between_chars c lower upper = true ->
  lower <= u8 c <= upper.
Proof.
  intros H E. rewrite between_chars_unsigned in E by exact H.
  apply andb_prop in E. destruct E as [E1 E2].
  apply Z.leb_le in E1. apply Z.leb_le in E2. lia.
Qed.

Lemma between_chars_false c lower upper :
  0 <= lower <= upper /\ upper < 128 \/ 128 <= lower <= upper /\ upper < 256 ->
  u8 c < lower \/ upper < u8 c ->
  _mongoc_char_between_chars c lower upper = false.
Proof.
  intros H E. rewrite between_chars_unsigned by exact H.
  destruct (Z.leb_spec lower (u8 c)), (Z.leb_spec (u8 c) upper); simpl;
    try reflexivity; lia.
Qed.

(** The length [_mongoc_utf8_char_length] gives by the value of the leading
    byte. *)
Lemma utf8_char_length_spec c :
  let b := u8 (byte_at c 0) in
  _mongoc_utf8_char_length c
  = if b <? 0x80 then 1
    else if b <? 0xC0 then 1
    else if b <? 0xE0 then 2
    else if b <? 0xF0 then 3
    else if b <? 0xF8 then 4
    else 1.
Proof.
  cbv zeta. unfold _mongoc_utf8_char_length.
  generalize (byte_at c 0). intros b. destruct b; reflexivity.
Qed.

Lemma utf8_char_length_cases c :
  _mongoc_utf8_char_length c = 1 \/ _mongoc_utf8_char_length c = 2
  \/ _mongoc_utf8_char_length c = 3 \/ _mongoc_utf8_char_length c = 4.
Proof.
  rewrite utf8_char_length_spec. cbv zeta.
  repeat match goal with
         | |- context [if ?b then _ else _] => destruct b
         end; auto.
Qed.

Ltac split_bool :=
  repeat match goal with
         | H : _ && _ = true |- _ => apply andb_prop in H; destruct H
         | H : _ || _ = true |- _ => apply orb_prop in H; destruct H
         end.

Ltac between_ranges :=
  repeat match goal with
         | H : _mongoc_char_between_chars _ _ _ = true |- _ =>
             apply between_chars_range in H; [|lia]
         end.

(** In a character the scanner accepts, every byte after the leading one is
    a continuation byte. *)
Lemma utf8_is_valid_continuations c :
  _mongoc_utf8_is_valid c (_mongoc_utf8_char_length c) = true ->
  forall j, (1 <= j)%nat -> Z.of_nat j < _mongoc_utf8_char_length c ->
  is_continuation (byte_at c j).
Proof.
  intros V j Hj1 HjL. unfold is_continuation.
  destruct (utf8_char_length_cases c) as [E|[E|[E|E]]];
    rewrite E in V, HjL; unfold _mongoc_utf8_is_valid in V; simpl in V.
  - lia.
  - assert (j = 1%nat) by lia. subst j. split_bool. between_ranges. lia.
  - assert (j = 1%nat \/ j = 2%nat) as [-> | ->] by lia;
      split_bool; between_ranges; lia.
  - assert (j = 1%nat \/ j = 2%nat \/ j = 3%nat) as [-> | [-> | ->]] by lia;
      split_bool; between_ranges; lia.
Qed.

Lemma byte_at_app_l (pre tail : list byte) j :
  (j < length pre)%nat -> byte_at (pre ++ tail) j = byte_at pre j.
Proof. intros H. unfold byte_at. now apply app_nth1. Qed.

Lemma byte_at_nonzero_in_range (c : list byte) j :
  byte_at c j <> Byte.x00 -> (j < length c)%nat.
Proof.
  intros H. destruct (Nat.lt_ge_cases j (length c)) as [L|G]; [exact L|].
  exfalso. apply H. unfold byte_at. now apply nth_overflow.
Qed.

Lemma continuation_nonzero b : is_continuation b -> b <> Byte.x00.
Proof. intros H ->. unfold is_continuation in H. vm_compute in H. intuition. Qed.

(** A character the scanner accepts lies within the string. *)
Lemma utf8_is_valid_within c :
  byte_at c 0 <> Byte.x00 ->
  _mongoc_utf8_is_valid c (_mongoc_utf8_char_length c) = true ->
  (1 <= Z.to_nat (_mongoc_utf8_char_length c) <= length c)%nat.
Proof.
  intros H0 V.
  pose proof (utf8_char_length_cases c) as HL.
  split; [lia|].
  destruct (Z.eq_dec (_mongoc_utf8_char_length c) 1) as [E|NE].
  - rewrite E. apply byte_at_nonzero_in_range in H0. simpl. lia.
  - assert (C : is_continuation
                  (byte_at c (Z.to_nat (_mongoc_utf8_char_length c) - 1))).
    { apply (utf8_is_valid_continuations c V); lia. }
    apply continuation_nonzero, byte_at_nonzero_in_range in C. lia.
Qed.

Lemma utf8_char_length_app pre tail :
  pre <> [] ->
  _mongoc_utf8_char_length (pre ++ tail) = _mongoc_utf8_char_length pre.
Proof.
  intros H. unfold _mongoc_utf8_char_length.
  destruct pre; [contradiction | reflexivity].
Qed.

(** The validity of a character depends on its own bytes only. *)
Lemma utf8_is_valid_app pre tail L :
  (L = 1 \/ L = 2 \/ L = 3 \/ L = 4) -> (Z.to_nat L <= length pre)%nat ->
  _mongoc_utf8_is_valid (pre ++ tail) L = _mongoc_utf8_is_valid pre L.
Proof.
  intros HL Hlen. unfold _mongoc_utf8_is_valid.
  destruct HL as [-> | [-> | [-> | ->]]]; simpl in *;
    rewrite ?byte_at_app_l by lia; reflexivity.
Qed.

(** Fuel beyond the length of the string changes nothing, and the loop ends
    within it. *)
Lemma utf8_string_length_loop_fuel f1 :
  forall f2 c acc, (length c < f1)%nat -> (length c < f2)%nat ->
  utf8_string_length_loop f1 c acc = utf8_string_length_loop f2 c acc.
Proof.
  induction f1 as [|f1 IH]; intros f2 c acc H1 H2; [lia|].
  destruct f2 as [|f2]; [lia|]. simpl.
  destruct (Byte.eqb (byte_at c 0) Byte.x00) eqn:E0; [reflexivity|].
  destruct (_mongoc_utf8_is_valid c (_mongoc_utf8_char_length c)) eqn:V;
    [|reflexivity]. simpl.
  assert (N0 : byte_at c 0 <> Byte.x00) by (intros C; rewrite C in E0; discriminate).
  pose proof (utf8_is_valid_within c N0 V) as W.
  apply IH; rewrite length_skipn; lia.
Qed.

Lemma utf8_string_length_loop_S f c acc :
  utf8_string_length_loop (S f) c acc
  = if Byte.eqb (byte_at c 0) Byte.x00 then Some acc
    else if negb (_mongoc_utf8_is_valid c (_mongoc_utf8_char_length c))
         then Some (-1)
         else
           utf8_string_length_loop f
             (skipn (Z.to_nat (_mongoc_utf8_char_length c)) c) (acc + 1).
Proof. reflexivity. Qed.

(** The equation of the scanner: one turn of the loop. *)
Lemma utf8_scan_eq c acc :
  utf8_string_length_loop (S (length c)) c acc
  = if Byte.eqb (byte_at c 0) Byte.x00 then Some acc
    else if negb (_mongoc_utf8_is_valid c (_mongoc_utf8_char_length c))
         then Some (-1)
         else
           let rest := skipn (Z.to_nat (_mongoc_utf8_char_length c)) c in
           utf8_string_length_loop (S (length rest)) rest (acc + 1).
Proof.
  rewrite utf8_string_length_loop_S.
  destruct (Byte.eqb (byte_at c 0) Byte.x00) eqn:E0; [reflexivity|].
  destruct (_mongoc_utf8_is_valid c (_mongoc_utf8_char_length c)) eqn:V;
    [|reflexivity]. cbv zeta. unfold negb.
  assert (N0 : byte_at c 0 <> Byte.x00) by (intros C; rewrite C in E0; discriminate).
  pose proof (utf8_is_valid_within c N0 V) as W.
  apply utf8_string_length_loop_fuel; rewrite ?length_skipn; lia.
Qed.

(** [_mongoc_utf8_string_length] returns on every string. *)
Lemma _mongoc_utf8_string_length_total s :
  exists n, _mongoc_utf8_string_length s = Some n.
Proof.
  unfold _mongoc_utf8_string_length.
  generalize 0. remember (length s) as k eqn:Hk.
  revert s Hk. induction k as [k IH] using lt_wf_ind. intros s Hk acc.
  subst k. rewrite utf8_scan_eq.
  destruct (Byte.eqb (byte_at s 0) Byte.x00) eqn:E0; [eauto|].
  destruct (_mongoc_utf8_is_valid s (_mongoc_utf8_char_length s)) eqn:V;
    simpl; [|eauto].
  assert (N0 : byte_at s 0 <> Byte.x00) by (intros C; rewrite C in E0; discriminate).
  pose proof (utf8_is_valid_within s N0 V) as W.
  eapply IH; [|reflexivity]. rewrite length_skipn. lia.
Qed.

(** A leading byte that makes the scanner fail. *)
Definition rejected_at (tail : list byte) : Prop :=
  byte_at tail 0 <> Byte.x00
  /\ _mongoc_utf8_is_valid tail (_mongoc_utf8_char_length tail) = false.

Lemma utf8_scan_rejected tail acc :
  rejected_at tail ->
  utf8_string_length_loop (S (length tail)) tail acc = Some (-1).
Proof.
  intros [N0 V]. rewrite utf8_scan_eq, V.
  rewrite byte_eqb_neq by exact N0. reflexivity.
Qed.

(** The scanner fails on a string in which a byte that is no continuation
    byte, and at which it fails, follows any bytes at all. *)
Lemma utf8_scan_rejects_after_any pre tail :
  no_nul pre -> rejected_at tail -> ~ is_continuation (byte_at tail 0) ->
  forall acc,
  utf8_string_length_loop (S (length (pre ++ tail))) (pre ++ tail) acc
  = Some (-1).
Proof.
  intros Hpre Htail Hnc.
  remember (length pre) as k eqn:Hk. revert pre Hk Hpre.
  induction k as [k IH] using lt_wf_ind. intros pre Hk Hpre acc.
  destruct pre as [|b pre'].
  - simpl app. now apply utf8_scan_rejected.
  - rewrite utf8_scan_eq. set (c := (b :: pre') ++ tail).
    assert (N0 : byte_at c 0 <> Byte.x00) by (inversion Hpre; assumption).
    rewrite byte_eqb_neq by exact N0.
    destruct (_mongoc_utf8_is_valid c (_mongoc_utf8_char_length c)) eqn:V;
      [|reflexivity]. simpl negb. cbv iota zeta.
    pose proof (utf8_is_valid_within c N0 V) as W.
    assert (In_pre : (Z.to_nat (_mongoc_utf8_char_length c)
                      <= length (b :: pre'))%nat).
    { destruct (Nat.le_gt_cases (Z.to_nat (_mongoc_utf8_char_length c))
                  (length (b :: pre'))) as [L|G]; [exact L|].
      exfalso. apply Hnc.
      assert (C : is_continuation (byte_at c (length (b :: pre')))).
      { apply (utf8_is_valid_continuations c V); simpl length in *; lia. }
      unfold c, byte_at in C. rewrite app_nth2 in C by lia.
      now rewrite Nat.sub_diag in C. }
    assert (Sk : skipn (Z.to_nat (_mongoc_utf8_char_length c)) c
                 = skipn (Z.to_nat (_mongoc_utf8_char_length c)) (b :: pre')
                   ++ tail).
    { unfold c at 2. rewrite skipn_app.
      replace (Z.to_nat (_mongoc_utf8_char_length c) - length (b :: pre'))%nat
        with 0%nat by lia. reflexivity. }
    rewrite Sk.
    eapply IH; [|reflexivity|].
    + rewrite Hk, length_skipn. lia.
    + now apply no_nul_skipn.
Qed.

(** The scanner fails on a string in which a byte at which it fails follows
    a prefix that it accepts. *)
Lemma utf8_scan_rejects_after_valid pre tail :
  no_nul pre -> rejected_at tail ->
  forall acc r,
  utf8_string_length_loop (S (length pre)) pre acc = Some r -> r <> -1 ->
  utf8_string_length_loop (S (length (pre ++ tail))) (pre ++ tail) acc
  = Some (-1).
Proof.
  intros Hpre Htail.
  remember (length pre) as k eqn:Hk. revert pre Hk Hpre.
  induction k as [k IH] using lt_wf_ind. intros pre Hk Hpre acc r Hr Hr1.
  destruct pre as [|b pre'].
  - simpl app. now apply utf8_scan_rejected.
  - rewrite Hk in Hr. rewrite utf8_scan_eq in Hr. rewrite utf8_scan_eq.
    set (p := b :: pre') in *. set (c := p ++ tail).
    assert (N0 : byte_at p 0 <> Byte.x00) by (inversion Hpre; assumption).
    assert (N0' : byte_at c 0 <> Byte.x00) by exact N0.
    rewrite byte_eqb_neq in Hr by exact N0.
    rewrite byte_eqb_neq by exact N0'.
    assert (EL : _mongoc_utf8_char_length c = _mongoc_utf8_char_length p).
    { apply utf8_char_length_app. discriminate. }
    destruct (_mongoc_utf8_is_valid p (_mongoc_utf8_char_length p)) eqn:V.
    2:{ simpl in Hr. congruence. }
    pose proof (utf8_is_valid_within p N0 V) as W.
    rewrite EL.
    unfold c at 1.
    rewrite utf8_is_valid_app by (apply utf8_char_length_cases || lia).
    rewrite V.
    simpl negb in *. cbv iota zeta in *.
    unfold c. rewrite skipn_app.
    replace (Z.to_nat (_mongoc_utf8_char_length p) - length p)%nat
      with 0%nat by lia.
    rewrite skipn_0.
    eapply IH; [|reflexivity| |exact Hr|exact Hr1].
    + rewrite Hk, length_skipn. lia.
    + now apply no_nul_skipn.
Qed.

Lemma rejected_continuation b post :
  is_continuation b -> rejected_at (b :: post).
Proof.
  intros C. split; [now apply continuation_nonzero|].
  unfold is_continuation in C.
  rewrite utf8_char_length_spec. cbv zeta. change (byte_at (b :: post) 0) with b.
  destruct (Z.ltb_spec (u8 b) 0x80); [lia|].
  destruct (Z.ltb_spec (u8 b) 0xC0); [|lia].
  change (_mongoc_utf8_is_valid (b :: post) 1)
    with (_mongoc_char_between_chars b 0x00 0x7F).
  apply between_chars_false; lia.
Qed.

Lemma rejected_overlong_slash post :
  rejected_at (Byte.xc0 :: Byte.xaf :: post).
Proof. split; [discriminate | reflexivity]. Qed.

Lemma rejected_surrogate b2 post :
  0x9F < u8 b2 -> rejected_at (Byte.xed :: b2 :: post).
Proof.
  intros H. split; [discriminate|].
  change (_mongoc_utf8_char_length (Byte.xed :: b2 :: post)) with 3.
  unfold _mongoc_utf8_is_valid. simpl Z.eqb. cbv iota.
  change (byte_at (Byte.xed :: b2 :: post) 1) with b2.
  rewrite (between_chars_false b2 0x80 0x9F) by lia.
  reflexivity.
Qed.

(** C9: in a string (a sequence [pre] of bytes other than NUL, followed by
    the bytes named) the validator fails, [_mongoc_utf8_string_length] with
    -1 and [_mongoc_utf8_is_valid] with false at the character,
    - on a continuation byte 0x80..0xBF where a character starts, that is
      after a prefix that the validator accepts;
    - on the overlong encoding 0xC0 0xAF of the slash, wherever it stands;
    - on 0xED followed by a byte above 0x9F, the encoding of a UTF-16
      surrogate, wherever it stands. *)
Theorem utf8_validator_rejects pre post b b2 :
  no_nul pre ->
  (is_continuation b ->
   (exists n, _mongoc_utf8_string_length pre = Some n /\ n <> -1) ->
   _mongoc_utf8_string_length (pre ++ b :: post) = Some (-1)
   /\ _mongoc_utf8_is_valid (b :: post)
        (_mongoc_utf8_char_length (b :: post)) = false)
  /\ (_mongoc_utf8_string_length (pre ++ Byte.xc0 :: Byte.xaf :: post)
      = Some (-1)
      /\ _mongoc_utf8_is_valid (Byte.xc0 :: Byte.xaf :: post)
           (_mongoc_utf8_char_length (Byte.xc0 :: Byte.xaf :: post)) = false)
  /\ (0x9F < u8 b2 ->
      _mongoc_utf8_string_length (pre ++ Byte.xed :: b2 :: post) = Some (-1)
      /\ _mongoc_utf8_is_valid (Byte.xed :: b2 :: post)
           (_mongoc_utf8_char_length (Byte.xed :: b2 :: post)) = false).
Proof.
  intros Hpre. unfold _mongoc_utf8_string_length.
  split; [|split; [split|]].
  - intros C [n [Hn Hn1]]. split.
    + eapply utf8_scan_rejects_after_valid;
        eauto using rejected_continuation.
    + now apply rejected_continuation.
  - apply utf8_scan_rejects_after_any;
      [assumption | apply rejected_overlong_slash |].
    unfold is_continuation. vm_compute. intuition.
  - apply rejected_overlong_slash.
  - intros S. split.
    + apply utf8_scan_rejects_after_any;
        [assumption | now apply rejected_surrogate |].
      unfold is_continuation. vm_compute. intuition.
    + now apply rejected_surrogate.
Qed.

Lemma utf8_validator_rejects_witness :
  no_nul (lit "ab")
  /\ _mongoc_utf8_string_length (lit "ab" ++ Byte.x80 :: lit "c") = Some (-1)
  /\ _mongoc_utf8_string_length (lit "ab" ++ Byte.xc0 :: Byte.xaf :: lit "c")
     = Some (-1)
  /\ _mongoc_utf8_string_length (lit "ab" ++ Byte.xed :: Byte.xa0 :: lit "c")
     = Some (-1).
Proof.
  assert (N : no_nul (lit "ab")) by (repeat constructor; discriminate).
  assert (C : is_continuation Byte.x80) by (vm_compute; intuition discriminate).
  pose proof (utf8_validator_rejects (lit "ab") (lit "c") Byte.x80 Byte.xa0
                N) as [A [B S]].
  split; [exact N|]. split; [|split].
  - apply A; [exact C|]. exists 2. split; [reflexivity | discriminate].
  - apply B.
  - apply S. reflexivity.
Defined.

(** ** Password preparation with ICU (C2) *)

(** C2 (what the code does): built with ICU, [_mongoc_sasl_prep] returns
    NULL for every input and every choice of tables, so it never returns
    the SASLprep of a password; for the password "pencil" it returns NULL and
    leaves the error record untouched. *)
Theorem sasl_prep_with_icu_returns_NULL t in_utf8 in_utf8_len err :
  (exists err',
     _mongoc_sasl_prep (Some t) in_utf8 in_utf8_len err = Some (None, err'))
  /\ _mongoc_sasl_prep (Some t) (lit "pencil") 6 err = Some (None, err).
Proof.
  unfold _mongoc_sasl_prep, _mongoc_sasl_prep_impl. split.
  - destruct (_mongoc_utf8_string_length_total in_utf8) as [n ->].
    destruct (n =? -1); [eauto|].
    destruct (sasl_prep_bidi _ _ _ _). eauto.
  - change (_mongoc_utf8_string_length (lit "pencil")) with (Some 6).
    cbv iota beta. change (6 =? -1) with false. cbv iota.
    destruct (sasl_prep_bidi _ _ _ _). reflexivity.
Qed.

(** ** The presecrets of a cache entry (C8) *)

Lemma strcmp_eq_spec a b : strcmp_eq a b = true <-> c_str a = c_str b.
Proof. apply bytes_eqb_eq. Qed.

Lemma memcmp_eq_spec a b n :
  memcmp_eq a b n = true <-> firstn n a = firstn n b.
Proof. apply bytes_eqb_eq. Qed.

(** A [decoded_salt] array as step 2 fills it: [size] bytes, zero from the
    length of the salt on. *)
Definition salt_padded (size salt_len : Z) (a : list byte) : Prop :=
  length a = Z.to_nat size
  /\ skipn (Z.to_nat salt_len) a = zeros (size - salt_len).

Lemma salt_padded_eq size salt_len a b :
  0 <= salt_len <= size ->
  salt_padded size salt_len a -> salt_padded size salt_len b ->
  (firstn (Z.to_nat size) a = firstn (Z.to_nat size) b
   <-> firstn (Z.to_nat salt_len) a = firstn (Z.to_nat salt_len) b).
Proof.
  intros R [La Za] [Lb Zb].
  rewrite <- La at 1. rewrite <- Lb. rewrite !firstn_all.
  split.
  - now intros ->.
  - intros E. rewrite <- (firstn_skipn (Z.to_nat salt_len) a),
      <- (firstn_skipn (Z.to_nat salt_len) b), E, Za, Zb. reflexivity.
Qed.

(** C8, as amended: [_mongoc_scram_cache_has_presecrets] returns true if and
    only if both [hashed_password] strings are present and equal as strings,
    the iteration counts are equal, and the two [decoded_salt] arrays are
    equal over their whole size, [sizeof (decoded_salt)] bytes; for arrays
    that are zero past the [hash_size - 4] bytes of the salt, as step 2
    stores them, that is equality of the salts over [hash_size - 4] bytes. *)
Theorem cache_has_presecrets_iff (sizeof_salt : Z)
    (entry : mongoc_scram_cache_t) (scram : mongoc_scram_t) :
  (_mongoc_scram_cache_has_presecrets sizeof_salt entry scram = true
   <-> (exists cache_pw scram_pw,
          cache_hashed_password entry = Some cache_pw
          /\ hashed_password scram = Some scram_pw
          /\ c_str cache_pw = c_str scram_pw)
       /\ cache_iterations entry = iterations scram
       /\ firstn (Z.to_nat sizeof_salt) (cache_decoded_salt entry)
          = firstn (Z.to_nat sizeof_salt) (decoded_salt scram))
  /\ (0 <= _scram_hash_size scram - 4 <= sizeof_salt ->
      salt_padded sizeof_salt (_scram_hash_size scram - 4)
        (cache_decoded_salt entry) ->
      salt_padded sizeof_salt (_scram_hash_size scram - 4)
        (decoded_salt scram) ->
      (_mongoc_scram_cache_has_presecrets sizeof_salt entry scram = true
       <-> (exists cache_pw scram_pw,
              cache_hashed_password entry = Some cache_pw
              /\ hashed_password scram = Some scram_pw
              /\ c_str cache_pw = c_str scram_pw)
           /\ cache_iterations entry = iterations scram
           /\ firstn (Z.to_nat (_scram_hash_size scram - 4))
                (cache_decoded_salt entry)
              = firstn (Z.to_nat (_scram_hash_size scram - 4))
                  (decoded_salt scram))).
Proof.
  assert (Main :
    _mongoc_scram_cache_has_presecrets sizeof_salt entry scram = true
    <-> (exists cache_pw scram_pw,
           cache_hashed_password entry = Some cache_pw
           /\ hashed_password scram = Some scram_pw
           /\ c_str cache_pw = c_str scram_pw)
        /\ cache_iterations entry = iterations scram
        /\ firstn (Z.to_nat sizeof_salt) (cache_decoded_salt entry)
           = firstn (Z.to_nat sizeof_salt) (decoded_salt scram)).
  { unfold _mongoc_scram_cache_has_presecrets, sizeof_decoded_salt.
    destruct (cache_hashed_password entry) as [cp|],
      (hashed_password scram) as [sp|].
    - rewrite !andb_true_iff, strcmp_eq_spec, Z.eqb_eq, memcmp_eq_spec.
      split.
      + intros [[E1 E2] E3]. repeat split; eauto.
      + intros [[x [y [Ex [Ey E1]]]] [E2 E3]].
        inversion Ex; inversion Ey; subst. auto.
    - split; [discriminate|]. intros [[x [y [_ [Ey _]]]] _]. discriminate.
    - split; [discriminate|]. intros [[x [y [Ex _]]] _]. discriminate.
    - split; [discriminate|]. intros [[x [y [Ex _]]] _]. discriminate. }
  split; [exact Main|].
  intros R Pc Ps. rewrite Main.
  rewrite (salt_padded_eq _ _ _ _ R Pc Ps). reflexivity.
Qed.

Module PresecretsSample.

Definition digest : list byte := lit "5f4dcc3b5aa765d61d8327deb882cf99".

(** An entry that a SHA-256 session left (a salt of 28 bytes) and a SHA-1
    session whose salt is the first 16 of these bytes; the arrays have 64
    bytes (any size above 28 shows the same). *)
Definition entry : mongoc_scram_cache_t :=
  {| cache_hashed_password := Some digest;
     cache_decoded_salt := repeat Byte.x01 28 ++ repeat Byte.x00 36;
     cache_iterations := 4096;
     cache_client_key := repeat Byte.x02 32;
     cache_server_key := repeat Byte.x03 32;
     cache_salted_password := repeat Byte.x04 32 |}.

Definition scram : mongoc_scram_t :=
  {| step := 2; user := Some (lit "user"); pass := Some (lit "pencil");
     hashed_password := Some digest;
     decoded_salt := repeat Byte.x01 16 ++ repeat Byte.x00 48;
     iterations := 4096;
     client_key := repeat Byte.x00 32; server_key := repeat Byte.x00 32;
     salted_password := repeat Byte.x00 32;
     encoded_nonce := lit "ZnlrbytkMmxiYkZnT05Sdjlxa3hkYXdM";
     encoded_nonce_len := 32;
     auth_message := []; auth_messagemax := 4096; auth_messagelen := 0;
     algorithm := MONGOC_CRYPTO_ALGORITHM_SHA_1; cache := Some entry |}.

(** The SHA-256 session that left the entry. *)
Definition scram256 : mongoc_scram_t :=
  {| step := 2; user := Some (lit "user"); pass := Some digest;
     hashed_password := Some digest;
     decoded_salt := repeat Byte.x01 28 ++ repeat Byte.x00 36;
     iterations := 4096;
     client_key := repeat Byte.x00 32; server_key := repeat Byte.x00 32;
     salted_password := repeat Byte.x00 32;
     encoded_nonce := lit "ZnlrbytkMmxiYkZnT05Sdjlxa3hkYXdM";
     encoded_nonce_len := 32;
     auth_message := []; auth_messagemax := 4096; auth_messagelen := 0;
     algorithm := MONGOC_CRYPTO_ALGORITHM_SHA_256; cache := Some entry |}.

End PresecretsSample.

(** The three presecrets match in the sense of the claim (equal strings,
    equal counts, salts equal over [hash_size - 4] = 16 bytes), and
    [_mongoc_scram_cache_has_presecrets] returns false: the arrays differ at
    byte 16. *)
Lemma cache_has_presecrets_compares_whole_array :
  let entry := PresecretsSample.entry in
  let scram := PresecretsSample.scram in
  _mongoc_scram_cache_has_presecrets 64 entry scram = false
  /\ cache_hashed_password entry = hashed_password scram
  /\ cache_iterations entry = iterations scram
  /\ firstn (Z.to_nat (_scram_hash_size scram - 4)) (cache_decoded_salt entry)
     = firstn (Z.to_nat (_scram_hash_size scram - 4)) (decoded_salt scram).
Proof. cbv zeta. repeat split; reflexivity. Qed.

Lemma cache_has_presecrets_iff_witness :
  let entry := PresecretsSample.entry in
  let scram := PresecretsSample.scram256 in
  0 <= _scram_hash_size scram - 4 <= 64
  /\ salt_padded 64 (_scram_hash_size scram - 4) (cache_decoded_salt entry)
  /\ salt_padded 64 (_scram_hash_size scram - 4) (decoded_salt scram)
  /\ _mongoc_scram_cache_has_presecrets 64 entry scram = true.
Proof.
  cbv zeta.
  assert (R : 0 <= _scram_hash_size PresecretsSample.scram256 - 4 <= 64)
    by (vm_compute; split; discriminate).
  assert (P1 : salt_padded 64 (_scram_hash_size PresecretsSample.scram256 - 4)
                 (cache_decoded_salt PresecretsSample.entry))
    by (split; reflexivity).
  assert (P2 : salt_padded 64 (_scram_hash_size PresecretsSample.scram256 - 4)
                 (decoded_salt PresecretsSample.scram256))
    by (split; reflexivity).
  split; [exact R|]. split; [exact P1|]. split; [exact P2|].
  apply (proj2 (proj2 (cache_has_presecrets_iff 64 PresecretsSample.entry
                         PresecretsSample.scram256) R P1 P2)).
  split; [|split; reflexivity].
  exists PresecretsSample.digest, PresecretsSample.digest.
  split; [reflexivity|]. split; reflexivity.
Defined.

(** ** The salted password (C4) *)

(** The XOR of two byte strings of one length. *)
Definition xor_bytes (a b : list byte) : list byte :=
  map (fun p => byte_xor (fst p) (snd p)) (combine a b).

Section Hi.

Variable HMAC : list byte -> list byte -> list byte.
Variables (password salt : list byte).

(** The spec's [Hi], in its words: [U 1] is the HMAC of the salt followed by
    the four bytes 0, 0, 0, 1, [U i] is the HMAC of [U (i - 1)], the key is
    the password, and the salted password for the count [c] is the XOR of
    [U 1] to [U c]. *)
Fixpoint spec_U (i : nat) : list byte :=
  match i with
  | O => []
  | S O => HMAC password (salt ++ [Byte.x00; Byte.x00; Byte.x00; Byte.x01])
  | S i' => HMAC password (spec_U i')
  end.

Definition spec_Hi (c : nat) : list byte :=
  fold_left xor_bytes (map spec_U (seq 2 (c - 1))) (spec_U 1).

End Hi.

Lemma xor_into_spec n : forall output digest,
  length digest = n -> (n <= length output)%nat ->
  firstn n (xor_into n output digest) = xor_bytes (firstn n output) digest
  /\ skipn n (xor_into n output digest) = skipn n output.
Proof.
  induction n as [|n IH]; intros output digest Hd Ho.
  - destruct digest; [|discriminate]. simpl.
    destruct output; split; reflexivity.
  - destruct digest as [|d digest]; [discriminate|].
    destruct output as [|o output]; [simpl in Ho; lia|].
    simpl in Hd, Ho. destruct (IH output digest) as [E1 E2]; try lia.
    simpl. unfold xor_bytes in *. simpl. rewrite E1, E2. split; reflexivity.
Qed.

Lemma xor_bytes_length a b :
  length a = length b -> length (xor_bytes a b) = length a.
Proof.
  intros H. unfold xor_bytes. rewrite length_map, length_combine. lia.
Qed.

Section SaltPassword.

Variable crypto_hmac :
  mongoc_crypto_hash_algorithm_t -> list byte -> list byte -> list byte.
Variable scram : mongoc_scram_t.
Variables (password : list byte) (c : Z).

Let hs : nat := Z.to_nat (_scram_hash_size scram).
Let HMAC := crypto_hmac (algorithm scram).

(** The provider's contract: a digest has [hash_size] bytes. *)
Hypothesis hmac_length : forall k d, length (HMAC k d) = hs.

Lemma crypto_hmac_call key data out :
  length data = hs -> (length out <= hs)%nat ->
  mongoc_crypto_hmac crypto_hmac scram key (Z.of_nat (length key)) data
    (_scram_hash_size scram) out
  = HMAC key data.
Proof.
  intros Hd Ho. unfold mongoc_crypto_hmac, memcpy.
  rewrite !Nat2Z.id. fold hs. fold HMAC.
  rewrite (firstn_all2 key) by lia. rewrite (firstn_all2 data) by lia.
  rewrite firstn_all2 by lia.
  rewrite skipn_all2 by (rewrite hmac_length; lia).
  apply app_nil_r.
Qed.

Lemma salt_password_loop_spec salt n : forall fuel (i : nat) output inter,
  Z.of_nat i + Z.of_nat n = c + 1 -> (2 <= i)%nat -> c < 4294967295 ->
  (n < fuel)%nat ->
  inter = spec_U HMAC password salt (i - 1) ->
  (hs <= length output)%nat ->
  exists output',
    salt_password_loop crypto_hmac fuel scram password
      (Z.of_nat (length password)) (Z.of_nat i) c output inter
    = Some output'
    /\ firstn hs output'
       = fold_left xor_bytes (map (spec_U HMAC password salt) (seq i n))
           (firstn hs output)
    /\ skipn hs output' = skipn hs output.
Proof.
  induction n as [|n IH]; intros fuel i output inter Hi Hi2 Hc Hf Hinter Hout;
    (destruct fuel as [|fuel]; [lia|]); simpl salt_password_loop.
  - destruct (Z.leb_spec (Z.of_nat i) c); [lia|]. eauto.
  - destruct (Z.leb_spec (Z.of_nat i) c); [|lia].
    assert (Li : length inter = hs).
    { subst inter. destruct i as [|[|[|i]]]; try lia; simpl;
        apply hmac_length. }
    rewrite (crypto_hmac_call password inter inter Li) by lia.
    fold hs. rewrite (firstn_all2 (HMAC password inter))
      by (rewrite hmac_length; lia).
    assert (EU : HMAC password inter = spec_U HMAC password salt i).
    { subst inter. destruct i as [|[|i]]; try lia. simpl.
      rewrite ?Nat.sub_0_r. reflexivity. }
    destruct (xor_into_spec hs output (HMAC password inter)
                (hmac_length _ _) Hout) as [X1 X2].
    rewrite to_uint32_small by lia.
    replace (Z.of_nat i + 1) with (Z.of_nat (S i)) by lia.
    destruct (IH fuel (S i) (xor_into hs output (HMAC password inter))
                (HMAC password inter)) as [o' [E1 [E2 E3]]]; try lia.
    + simpl. rewrite ?Nat.sub_0_r. exact EU.
    + rewrite <- (firstn_skipn hs (xor_into _ _ _)), length_app, X1, X2.
      rewrite xor_bytes_length, length_skipn, length_firstn;
        rewrite ?length_firstn, ?hmac_length; lia.
    + exists o'. split; [exact E1|]. split; [|congruence].
      rewrite E2, X1, EU. reflexivity.
Qed.

(** C4: for a session with a supported algorithm, a password, a salt of
    [hash_size - 4] bytes and an iteration count [c] from 1 to 4294967294,
    [_mongoc_scram_salt_password] returns (any fuel of at least [c] turns is
    enough) and leaves in the first [hash_size] bytes of [salted_password]
    the XOR of [U 1] to [U c], with [U 1] the HMAC of the salt followed by
    0, 0, 0, 1 and [U i] the HMAC of [U (i - 1)], all keyed by the password;
    the rest of the session is unchanged. *)
Theorem salt_password_computes_Hi (salt : list byte) (salt_len : Z)
    (fuel : nat) :
  salt_len = _scram_hash_size scram - 4 ->
  0 <= salt_len <= Z.of_nat (length salt) ->
  1 <= c < 4294967295 ->
  (Z.to_nat c <= fuel)%nat ->
  exists sp,
    _mongoc_scram_salt_password crypto_hmac fuel scram password
      (Z.of_nat (length password)) salt salt_len c
    = Some (with_secrets scram (client_key scram) (server_key scram) sp)
    /\ firstn (Z.to_nat (_scram_hash_size scram)) sp
       = spec_Hi (crypto_hmac (algorithm scram)) password
           (firstn (Z.to_nat salt_len) salt) (Z.to_nat c).
Proof.
  intros Hsl Hsalt Hc Hfuel. unfold _mongoc_scram_salt_password.
  set (block := firstn (Z.to_nat salt_len) salt
                ++ [Byte.x00; Byte.x00; Byte.x00; Byte.x01]).
  assert (Lb : length block = hs).
  { unfold block. rewrite length_app, length_firstn. simpl. subst hs. lia. }
  assert (E1 : mongoc_crypto_hmac crypto_hmac scram password
                 (Z.of_nat (length password)) block (_scram_hash_size scram)
                 (salted_password scram)
               = HMAC password block
                 ++ skipn hs (salted_password scram)).
  { unfold mongoc_crypto_hmac, memcpy. rewrite !Nat2Z.id. fold hs HMAC.
    rewrite (firstn_all2 password) by lia.
    rewrite (firstn_all2 block) by lia.
    rewrite firstn_all2 by lia.
    now rewrite hmac_length. }
  assert (Fh : forall rest,
             firstn hs (HMAC password block ++ rest) = HMAC password block).
  { intros rest. rewrite firstn_app, hmac_length, Nat.sub_diag.
    rewrite firstn_all2 by (rewrite hmac_length; lia).
    simpl. apply app_nil_r. }
  rewrite E1. fold hs. rewrite Fh.
  destruct (salt_password_loop_spec (firstn (Z.to_nat salt_len) salt)
              (Z.to_nat c - 1) fuel 2
              (HMAC password block ++ skipn hs (salted_password scram))
              (HMAC password block)) as [o' [L1 [L2 L3]]]; try lia.
  - reflexivity.
  - rewrite length_app, hmac_length. lia.
  - change (Z.of_nat 2) with 2 in L1. rewrite L1.
    exists o'. split; [reflexivity|].
    fold hs. rewrite L2, Fh. reflexivity.
Qed.

End SaltPassword.

(** ** Step 1 (C3) *)

(** The spec's escaping rule (RFC 5802, section 5.1), in its words: every
    [,] becomes [=2C], every [=] becomes [=3D], other bytes pass through. *)
Definition spec_escape_user (usr : list byte) : list byte :=
  flat_map
    (fun b =>
       if Byte.eqb b ","%byte then lit "=2C"
       else if Byte.eqb b "="%byte then lit "=3D"
       else [b])
    usr.

(** The spec's client-first message. *)
Definition spec_client_first (usr encoded_nonce : list byte) : list byte :=
  lit "n,,n=" ++ spec_escape_user usr ++ lit ",r=" ++ encoded_nonce.

(** A write into a buffer that holds exactly its [outbuflen] bytes and has
    room for the new ones appends them. *)
Lemma buf_write_appends src src_len outbuf outbufmax :
  let n := write_len src src_len in
  0 <= n <= Z.of_nat (length src) ->
  Z.of_nat (length outbuf) + n < outbufmax -> outbufmax <= 4294967296 ->
  _mongoc_scram_buf_write src src_len outbuf outbufmax
    (Z.of_nat (length outbuf))
  = (true, outbuf ++ firstn (Z.to_nat n) src, Z.of_nat (length outbuf) + n).
Proof.
  cbv zeta. intros Hn Hroom Hmax.
  unfold _mongoc_scram_buf_write, write_len in *.
  set (n := if src_len <? 0 then _ else _) in *.
  rewrite to_uint32_small by lia.
  destruct (Z.geb_spec (Z.of_nat (length outbuf) + n) outbufmax); [lia|].
  rewrite Nat2Z.id, firstn_all. reflexivity.
Qed.

Lemma buf_write_lit (s : string) outbuf outbufmax :
  Z.of_nat (length (lit s)) < 2147483648 -> no_nul (lit s) ->
  Z.of_nat (length outbuf) + Z.of_nat (length (lit s)) < outbufmax ->
  outbufmax <= 4294967296 ->
  _mongoc_scram_buf_write (lit s) (-1) outbuf outbufmax
    (Z.of_nat (length outbuf))
  = (true, outbuf ++ lit s,
     Z.of_nat (length outbuf) + Z.of_nat (length (lit s))).
Proof.
  intros Hs Hn Hroom Hmax.
  assert (W : write_len (lit s) (-1) = Z.of_nat (length (lit s))).
  { unfold write_len, strlen. change (-1 <? 0) with true. cbv iota.
    rewrite c_str_no_nul by exact Hn. apply to_int32_small. lia. }
  pose proof (buf_write_appends (lit s) (-1) outbuf outbufmax) as A.
  cbv zeta in A. rewrite W in A. rewrite A by lia.
  rewrite Nat2Z.id, firstn_all. reflexivity.
Qed.

Lemma start_user_loop_spec ptr : forall outbuf outbufmax,
  Z.of_nat (length outbuf) + Z.of_nat (length (spec_escape_user (c_str ptr)))
  < outbufmax ->
  outbufmax <= 4294967296 ->
  start_user_loop ptr outbuf outbufmax (Z.of_nat (length outbuf))
  = (true, outbuf ++ spec_escape_user (c_str ptr),
     Z.of_nat (length outbuf)
     + Z.of_nat (length (spec_escape_user (c_str ptr)))).
Proof.
  induction ptr as [|c rest IH]; intros outbuf outbufmax Hroom Hmax.
  - simpl. rewrite app_nil_r, Z.add_0_r. reflexivity.
  - simpl start_user_loop. simpl c_str in *.
    destruct (Byte.eqb c Byte.x00) eqn:E0.
    + simpl. rewrite app_nil_r, Z.add_0_r. reflexivity.
    + change (spec_escape_user (c :: c_str rest))
        with ((if Byte.eqb c ","%byte then lit "=2C"
               else if Byte.eqb c "="%byte then lit "=3D" else [c])
              ++ spec_escape_user (c_str rest)) in *.
      rewrite length_app in Hroom.
      change Byte.x2c with ","%byte. change Byte.x3d with "="%byte.
      destruct (Byte.eqb c ","%byte) eqn:Ec;
        [|destruct (Byte.eqb c "="%byte) eqn:Ee].
      * rewrite (buf_write_lit "=2C")
          by (try (repeat constructor; discriminate); simpl in *; lia).
        replace (Z.of_nat (length outbuf) + Z.of_nat (length (lit "=2C")))
          with (Z.of_nat (length (outbuf ++ lit "=2C")))
          by (rewrite length_app; lia).
        rewrite IH by (rewrite ?length_app; simpl in *; lia).
        rewrite <- app_assoc, !length_app. f_equal. lia.
      * rewrite (buf_write_lit "=3D")
          by (try (repeat constructor; discriminate); simpl in *; lia).
        replace (Z.of_nat (length outbuf) + Z.of_nat (length (lit "=3D")))
          with (Z.of_nat (length (outbuf ++ lit "=3D")))
          by (rewrite length_app; lia).
        rewrite IH by (rewrite ?length_app; simpl in *; lia).
        rewrite <- app_assoc, !length_app. f_equal. lia.
      * pose proof (buf_write_appends (c :: rest) 1 outbuf outbufmax) as A.
        cbv zeta in A. change (write_len (c :: rest) 1) with 1 in A.
        rewrite A by (simpl in *; lia). simpl firstn.
        replace (Z.of_nat (length outbuf) + 1)
          with (Z.of_nat (length (outbuf ++ [c])))
          by (rewrite length_app; simpl; lia).
        rewrite IH by (rewrite ?length_app; simpl in *; lia).
        rewrite <- app_assoc, !length_app. simpl. f_equal. lia.
Qed.

Lemma buf_write_first (s : string) outbuf outbufmax :
  Z.of_nat (length (lit s)) < 2147483648 -> no_nul (lit s) ->
  Z.of_nat (length (lit s)) < outbufmax -> outbufmax <= 4294967296 ->
  _mongoc_scram_buf_write (lit s) (-1) outbuf outbufmax 0
  = (true, lit s, Z.of_nat (length (lit s))).
Proof.
  intros Hs Hn Hroom Hmax. unfold _mongoc_scram_buf_write, strlen.
  change (-1 <? 0) with true. cbv iota. rewrite c_str_no_nul by exact Hn.
  rewrite to_int32_small by lia. rewrite Z.add_0_l.
  rewrite to_uint32_small by lia.
  destruct (Z.geb_spec (Z.of_nat (length (lit s))) outbufmax); [lia|].
  rewrite Nat2Z.id, firstn_all. reflexivity.
Qed.

Lemma no_nul_lit_cases :
  no_nul (lit "n,,n=") /\ no_nul (lit ",r=") /\ no_nul (lit ",").
Proof. repeat split; repeat constructor; discriminate. Qed.

Section Step1.

Variable _mongoc_rand_bytes : Z -> option (list byte).
Variable sizeof_encoded_nonce : Z.
Variables (scram : mongoc_scram_t) (outbuf : list byte) (outbufmax : Z).
Variable error : option bson_error_t.
Variables (usr nonce text : list byte).

Hypothesis user_set : user scram = Some usr.
Hypothesis random_ok : _mongoc_rand_bytes 24 = Some nonce.
Hypothesis encoded_ok :
  mcommon_b64_ntop nonce 24 sizeof_encoded_nonce = Some text.
Hypothesis fresh_session : auth_messagelen scram = 0.

Let msg := spec_client_first (c_str usr) text.

Hypothesis room : Z.of_nat (length msg) < outbufmax.
Hypothesis outbufmax_uint32 : outbufmax <= 4294967295.
Hypothesis msg_int32 : Z.of_nat (length msg) <= 2147483647.

(** C3, as amended: for a session whose user is set, whose random draw and
    nonce encoding succeed and whose [auth_message] is still empty, called
    with the cursor at 0 and an [outbufmax] above the length of the message
    (itself within the range of [int32_t]), step 1 returns true and leaves in [outbuf] exactly
    ["n,,n="] + escaped user + [",r="] + encoded nonce, with the cursor at
    its length and the error record untouched; [auth_message] holds the
    message without its first three bytes, followed by a comma. *)
Theorem scram_start_writes_client_first :
  exists r,
    _mongoc_scram_start _mongoc_rand_bytes sizeof_encoded_nonce scram outbuf
      outbufmax 0 error = Some r
    /\ rval r = true
    /\ outbuf_out r = spec_client_first (c_str usr) text
    /\ outbuflen_out r = Z.of_nat (length (spec_client_first (c_str usr) text))
    /\ error_out r = error
    /\ auth_message (scram_out r)
       = skipn 3 (spec_client_first (c_str usr) text) ++ lit ","
    /\ encoded_nonce (scram_out r) = text.
Proof.
  fold msg. unfold _mongoc_scram_start.
  destruct (Z.eqb_spec outbufmax 0) as [Z0|_]; [lia|].
  rewrite user_set, random_ok, encoded_ok. cbv zeta.
  destruct no_nul_lit_cases as [N1 [N2 N3]].
  assert (Lm : length msg
               = (5 + length (spec_escape_user (c_str usr)) + 3
                  + length text)%nat).
  { unfold msg, spec_client_first. rewrite !length_app. simpl. lia. }
  rewrite (buf_write_first "n,,n=") by (simpl; lia || assumption).
  rewrite start_user_loop_spec by (simpl length; lia).
  set (b1 := lit "n,,n=" ++ spec_escape_user (c_str usr)).
  replace (Z.of_nat (length (lit "n,,n="))
           + Z.of_nat (length (spec_escape_user (c_str usr))))
    with (Z.of_nat (length b1)) by (unfold b1; rewrite length_app; lia).
  assert (L1 : length b1 = (5 + length (spec_escape_user (c_str usr)))%nat).
  { unfold b1. rewrite length_app. reflexivity. }
  rewrite (buf_write_lit ",r=") by (simpl length; lia || assumption).
  set (b2 := b1 ++ lit ",r=").
  replace (Z.of_nat (length b1) + Z.of_nat (length (lit ",r=")))
    with (Z.of_nat (length b2)) by (unfold b2; rewrite length_app; lia).
  assert (L2 : length b2 = (length b1 + 3)%nat).
  { unfold b2. rewrite length_app. reflexivity. }
  simpl encoded_nonce. simpl encoded_nonce_len.
  pose proof (buf_write_appends text (Z.of_nat (length text)) b2 outbufmax)
    as A.
  assert (W : write_len text (Z.of_nat (length text))
              = Z.of_nat (length text)).
  { unfold write_len. destruct (Z.ltb_spec (Z.of_nat (length text)) 0);
      [lia | reflexivity]. }
  cbv zeta in A. rewrite W in A. rewrite A by lia. clear A.
  rewrite Nat2Z.id, firstn_all.
  assert (Em : b2 ++ text = msg).
  { unfold b2, b1, msg, spec_client_first. now rewrite <- !app_assoc. }
  rewrite Em.
  replace (Z.of_nat (length b2) + Z.of_nat (length text))
    with (Z.of_nat (length msg)) by lia.
  simpl auth_message. simpl auth_messagemax. simpl auth_messagelen.
  rewrite fresh_session.
  rewrite to_uint32_small by lia. rewrite to_int32_small by lia.
  pose proof (buf_write_appends (skipn 3 msg) (Z.of_nat (length msg) - 3) []
                outbufmax) as A.
  assert (W3 : write_len (skipn 3 msg) (Z.of_nat (length msg) - 3)
               = Z.of_nat (length msg) - 3).
  { unfold write_len. destruct (Z.ltb_spec (Z.of_nat (length msg) - 3) 0);
      [lia | reflexivity]. }
  cbv zeta in A. rewrite W3 in A.
  change (Z.of_nat (length (@nil byte))) with 0 in A.
  rewrite A by (rewrite ?length_skipn; lia). clear A.
  replace (Z.to_nat (Z.of_nat (length msg) - 3)) with (length (skipn 3 msg))
    by (rewrite length_skipn; lia).
  rewrite firstn_all. change (firstn (Z.to_nat 0) (@nil byte)) with (@nil byte).
  rewrite app_nil_l.
  replace (0 + (Z.of_nat (length msg) - 3))
    with (Z.of_nat (length (skipn 3 msg))) by (rewrite length_skipn; lia).
  rewrite (buf_write_lit ",")
    by first [ assumption
             | rewrite ?length_skipn;
               change (length (lit ",")) with 1%nat; lia ].
  eexists. split; [reflexivity|]. simpl. repeat split; reflexivity.
Qed.

End Step1.

(** ** Step 3 (C5) *)

Lemma memcmp_fold b1 b2 (l : list nat) : forall acc,
  0 <= acc ->
  fold_left
    (fun acc i => Z.lor acc (Z.lxor (u8 (byte_at b1 i)) (u8 (byte_at b2 i))))
    l acc = 0
  <-> acc = 0 /\ forall i, In i l -> byte_at b1 i = byte_at b2 i.
Proof.
  induction l as [|i l IH]; intros acc Hacc; simpl.
  - split; [intros ->; split; [reflexivity | contradiction] | tauto].
  - pose proof (u8_range (byte_at b1 i)). pose proof (u8_range (byte_at b2 i)).
    assert (0 <= Z.lxor (u8 (byte_at b1 i)) (u8 (byte_at b2 i)))
      by (apply Z.lxor_nonneg; lia).
    rewrite IH by (apply Z.lor_nonneg; lia).
    rewrite Z.lor_eq_0_iff, Z.lxor_eq_0_iff. split.
    + intros [[E1 E2] E3]. split; [exact E1|].
      intros j [<- | Hj]; [now apply u8_inj | now apply E3].
    + intros [E1 E2]. repeat split; auto. f_equal. apply E2. now left.
Qed.

(** The comparator of the model returns 0 exactly on equal bytes. *)
Lemma mongoc_memcmp_spec b1 b2 len :
  length b1 = Z.to_nat len -> length b2 = Z.to_nat len ->
  (mongoc_memcmp b1 b2 len =? 0) = true <-> b1 = b2.
Proof.
  intros L1 L2. unfold mongoc_memcmp.
  set (d := fold_left _ _ _).
  assert (D : d = 0 <-> forall i, In i (seq 0 (Z.to_nat len)) ->
                          byte_at b1 i = byte_at b2 i).
  { unfold d. rewrite memcmp_fold by lia. tauto. }
  destruct (Z.eqb_spec d 0) as [E|NE].
  - split; [intros _ | reflexivity].
    apply (nth_ext b1 b2 Byte.x00 Byte.x00); [congruence|].
    intros n Hn. apply (proj1 D E). apply in_seq. lia.
  - split; [discriminate|]. intros ->. exfalso. apply NE, D. reflexivity.
Qed.

Lemma mongoc_memcmp_refl b len : mongoc_memcmp b b len = 0.
Proof.
  unfold mongoc_memcmp. set (d := fold_left _ _ _).
  assert (D : d = 0) by (unfold d; apply memcmp_fold; [lia | auto]).
  now rewrite D.
Qed.

Section Step3.

Variable crypto_hmac :
  mongoc_crypto_hash_algorithm_t -> list byte -> list byte -> list byte.
Variable MONGOC_SCRAM_B64_HASH_MAX_SIZE : Z.
Variable scram : mongoc_scram_t.

Let hs := _scram_hash_size scram.
Let HMAC := crypto_hmac (algorithm scram).

(** The spec's keys, in its words: ServerKey is the HMAC of "Server Key"
    under the salted password, ServerSignature the HMAC of the AuthMessage
    under ServerKey. *)
Definition spec_server_key : list byte :=
  HMAC (firstn (Z.to_nat hs) (salted_password scram)) (lit "Server Key").

Definition spec_server_signature : list byte :=
  HMAC spec_server_key
    (firstn (Z.to_nat (auth_messagelen scram)) (auth_message scram)).

(** The provider's contract: a digest has [hash_size] bytes. *)
Hypothesis hmac_length : forall k d, length (HMAC k d) = Z.to_nat hs.

(** The session's [server_key] is still to be computed (its first byte is
    zero), or it holds the ServerKey of the salted password. *)
Hypothesis server_key_ready :
  first_is_zero (server_key scram) = true
  \/ firstn (Z.to_nat hs) (server_key scram) = spec_server_key.

Hypothesis b64_size : MONGOC_SCRAM_B64_HASH_MAX_SIZE <= 4294967296.

Lemma verify_server_signature_spec verification :
  fst (_mongoc_scram_verify_server_signature crypto_hmac
         MONGOC_SCRAM_B64_HASH_MAX_SIZE scram verification
         (Z.of_nat (length verification))) = true
  <-> mcommon_b64_ntop spec_server_signature hs
        MONGOC_SCRAM_B64_HASH_MAX_SIZE = Some verification.
Proof.
  unfold _mongoc_scram_verify_server_signature. fold hs.
  set (scram' := if first_is_zero (server_key scram) then _ else scram).
  assert (K : firstn (Z.to_nat hs) (server_key scram') = spec_server_key
              /\ auth_message scram' = auth_message scram
              /\ auth_messagelen scram' = auth_messagelen scram
              /\ algorithm scram' = algorithm scram).
  { unfold scram'. destruct (first_is_zero (server_key scram)) eqn:Z0.
    - simpl. repeat split. unfold mongoc_crypto_hmac, memcpy.
      change (strlen MONGOC_SCRAM_SERVER_KEY) with 10.
      change (firstn (Z.to_nat 10) MONGOC_SCRAM_SERVER_KEY)
        with (lit "Server Key").
      fold HMAC. fold hs. fold spec_server_key.
      rewrite Nat2Z.id, firstn_app.
      rewrite (firstn_all2 spec_server_key)
        by (unfold spec_server_key; rewrite hmac_length; lia).
      rewrite (firstn_all2 spec_server_key)
        by (unfold spec_server_key; rewrite hmac_length; lia).
      unfold spec_server_key at 2. rewrite hmac_length, Nat.sub_diag.
      simpl. apply app_nil_r.
    - destruct server_key_ready as [C|C]; [congruence|]. auto. }
  destruct K as [K1 [K2 [K3 K4]]].
  assert (S : mongoc_crypto_hmac crypto_hmac scram' (server_key scram') hs
                (auth_message scram') (auth_messagelen scram') []
              = spec_server_signature).
  { unfold mongoc_crypto_hmac, memcpy. rewrite K1, K2, K3, K4.
    fold HMAC. fold spec_server_signature.
    rewrite Nat2Z.id, firstn_all, skipn_nil. apply app_nil_r. }
  rewrite S.
  destruct (mcommon_b64_ntop spec_server_signature hs
              MONGOC_SCRAM_B64_HASH_MAX_SIZE) as [enc|] eqn:E.
  - assert (Le : Z.of_nat (length enc) < MONGOC_SCRAM_B64_HASH_MAX_SIZE).
    { unfold mcommon_b64_ntop in E.
      destruct (Z.ltb_spec
                  (Z.of_nat (length (B64.encode
                     (firstn (Z.to_nat hs) spec_server_signature))))
                  MONGOC_SCRAM_B64_HASH_MAX_SIZE); [|discriminate].
      inversion E; subst. assumption. }
    simpl fst. rewrite to_uint32_small by lia.
    destruct (Z.eqb_spec (Z.of_nat (length verification))
                (Z.of_nat (length enc))) as [El|Nl]; simpl.
    + rewrite mongoc_memcmp_spec by (rewrite Nat2Z.id; lia).
      split; congruence.
    + split; [discriminate|]. intros C. inversion C. subst. lia.
  - simpl. split; discriminate.
Qed.


End Step3.

(** ** Step 2 (C1, C6) *)

Section Step2.

Variable icu : option sasl_prep_tables.
Variable crypto_hmac :
  mongoc_crypto_hash_algorithm_t -> list byte -> list byte -> list byte.
Variable crypto_hash :
  mongoc_crypto_hash_algorithm_t -> list byte -> list byte.
Variable _mongoc_hex_md5 : list byte -> list byte.
Variable MONGOC_SCRAM_B64_HASH_MAX_SIZE : Z.

(** The loop of the key derivation ends for every count below UINT32_MAX,
    whatever the provider. *)
Lemma salt_password_loop_returns scram password password_len c n :
  forall fuel (i : Z) output inter,
  i + Z.of_nat n = c + 1 -> 0 <= i -> c < 4294967295 -> (n < fuel)%nat ->
  exists output',
    salt_password_loop crypto_hmac fuel scram password password_len i c
      output inter = Some output'.
Proof.
  induction n as [|n IH]; intros fuel i output inter Hi Hi0 Hc Hf;
    (destruct fuel as [|fuel]; [lia|]); simpl.
  - destruct (Z.leb_spec i c); [lia|]. eauto.
  - destruct (Z.leb_spec i c); [|lia].
    rewrite to_uint32_small by lia. apply IH; lia.
Qed.

Lemma salt_password_returns scram password password_len salt salt_len c :
  2 <= c < 4294967295 ->
  exists sp,
    _mongoc_scram_salt_password crypto_hmac (Z.to_nat c) scram password
      password_len salt salt_len c
    = Some (with_secrets scram (client_key scram) (server_key scram) sp).
Proof.
  intros Hc. unfold _mongoc_scram_salt_password.
  match goal with
  | |- context [salt_password_loop _ _ _ _ _ _ _ ?o ?d] =>
      destruct (salt_password_loop_returns scram password password_len c
                  (Z.to_nat c - 1) (Z.to_nat c) 2 o d) as [o' E]; try lia
  end.
  rewrite E. eauto.
Qed.

(** For a count of UINT32_MAX the test [i <= iterations] never fails and the
    counter wraps around: the loop does not end, whatever the fuel. *)
Lemma salt_password_loop_UINT32_MAX scram password password_len fuel :
  forall i output inter, 0 <= i <= 4294967295 ->
  salt_password_loop crypto_hmac fuel scram password password_len i
    4294967295 output inter = None.
Proof.
  induction fuel as [|fuel IH]; intros i output inter Hi; simpl;
    [reflexivity|].
  pose proof (to_uint32_range (i + 1)).
  destruct (Z.leb_spec i 4294967295); [|lia].
  apply IH. lia.
Qed.

Variables (scram : mongoc_scram_t) (inbuf : list byte) (inbuflen : Z).
Variables (outbuf : list byte) (outbufmax outbuflen : Z).
Variable error : option bson_error_t.

Let hs := _scram_hash_size scram.
Let msg := firstn (Z.to_nat inbuflen) inbuf.

Definition nonce_not_repeated : string :=
  "SCRAM Failure: client nonce not repeated in sasl step 2".

(** What step 2 makes of the error record at the test of the nonce: the
    error is recorded when the value of [r] is shorter than the client's
    encoded nonce or does not begin with it. *)
Definition nonce_check (r : list byte) (e : option bson_error_t)
    : option bson_error_t :=
  if (Z.of_nat (length r) <? encoded_nonce_len scram)
     || negb (mongoc_memcmp r (encoded_nonce scram) (encoded_nonce_len scram)
              =? 0)
  then protocol_error e nonce_not_repeated
  else e.

Section AllFieldsValid.

Variables (hashed_pw r s i salt tmp : list byte) (n : Z).
Variable e1 : option bson_error_t.

(** The password is prepared, *)
Hypothesis password_ok :
  step2_hashed_password icu _mongoc_hex_md5 scram error
  = Some (Some hashed_pw, e1).
(** the message lies in [inbuf] and parses into the three attributes, *)
Hypothesis inbuf_ok : 0 <= inbuflen <= Z.of_nat (length inbuf).
Hypothesis parse_ok :
  step2_parse (S (length msg)) msg (byte_at inbuf (Z.to_nat inbuflen))
    {| val_r := None; val_s := None; val_i := None |}
  = Some (Parsed {| val_r := Some r; val_s := Some s; val_i := Some i |}).
(** the two buffers have room ([auth_message] holds [auth_messagelen]
    bytes), *)
Hypothesis auth_ok :
  auth_messagelen scram = Z.of_nat (length (auth_message scram)).
Hypothesis auth_room :
  Z.of_nat (length (auth_message scram)) + inbuflen + 1 + 9
  + Z.of_nat (length r) < auth_messagemax scram.
Hypothesis out_room : 9 + Z.of_nat (length r) + 3 < outbufmax.
Hypothesis sizes :
  auth_messagemax scram <= 2147483647 /\ outbufmax <= 2147483647.
(** the salt decodes to [hash_size - 4] bytes, *)
Hypothesis salt_ok :
  mcommon_b64_pton s MONGOC_SCRAM_B64_HASH_MAX_SIZE = Some salt
  /\ Z.of_nat (length salt) = hs - 4 /\ 4 <= hs.
(** and the iteration count parses to the end of its text, into a value
    whose conversion to [int] is at least 4096. *)
Hypothesis iterations_ok :
  bson_ascii_strtoll i = (n, tmp) /\ byte_at tmp 0 = Byte.x00
  /\ 4096 <= to_int32 n.

Lemma step2_returns_true :
  exists res,
    _mongoc_scram_step2 icu crypto_hmac crypto_hash _mongoc_hex_md5
      MONGOC_SCRAM_B64_HASH_MAX_SIZE scram inbuf inbuflen outbuf outbufmax
      outbuflen error = Some res
    /\ rval res = true
    /\ error_out res = nonce_check r e1
    /\ iterations (scram_out res) = to_int32 n.
Proof.
  destruct sizes as [Sa So]. destruct salt_ok as [Hs1 [Hs2 Hs3]].
  destruct iterations_ok as [Hi1 [Hi2 Hi3]].
  pose proof (to_int32_range n) as Rn.
  assert (Hhs : hs <= 32).
  { unfold hs, _scram_hash_size. destruct (algorithm scram); vm_compute;
      discriminate. }
  unfold _mongoc_scram_step2.
  destruct (Z.eqb_spec outbufmax 0); [lia|].
  rewrite password_ok. cbv zeta.
  (* the message into auth_message *)
  rewrite auth_ok. rewrite (to_int32_small inbuflen) by lia.
  pose proof (buf_write_appends inbuf inbuflen (auth_message scram)
                (auth_messagemax scram)) as A.
  assert (W : write_len inbuf inbuflen = inbuflen).
  { unfold write_len. destruct (Z.ltb_spec inbuflen 0); [lia|reflexivity]. }
  cbv zeta in A. rewrite W in A. rewrite A by lia. clear A W.
  fold msg. set (a1 := auth_message scram ++ msg).
  assert (La1 : Z.of_nat (length a1)
                = Z.of_nat (length (auth_message scram)) + inbuflen).
  { unfold a1, msg. rewrite length_app, length_firstn. lia. }
  rewrite <- La1. simpl auth_message. simpl auth_messagemax.
  simpl auth_messagelen.
  rewrite (buf_write_lit ",")
    by first [ apply no_nul_lit_cases
             | change (length (lit ",")) with 1%nat; lia ].
  set (a2 := a1 ++ lit ",").
  rewrite parse_ok. simpl val_r. simpl val_s. simpl val_i. cbv iota.
  cbn [encoded_nonce_len encoded_nonce with_auth_message].
  fold nonce_not_repeated. fold (nonce_check r e1).
  (* the client-final message *)
  rewrite (buf_write_first "c=biws,r=")
    by first [ repeat constructor; discriminate
             | change (length (lit "c=biws,r=")) with 9%nat; lia ].
  rewrite (to_int32_small (Z.of_nat (length r))) by lia.
  pose proof (buf_write_appends r (Z.of_nat (length r)) (lit "c=biws,r=")
                outbufmax) as A.
  assert (W : write_len r (Z.of_nat (length r)) = Z.of_nat (length r)).
  { unfold write_len. destruct (Z.ltb_spec (Z.of_nat (length r)) 0);
      [lia|reflexivity]. }
  cbv zeta in A. rewrite W in A.
  rewrite A by (change (length (lit "c=biws,r=")) with 9%nat; lia).
  clear A W. rewrite Nat2Z.id, firstn_all.
  set (o2 := lit "c=biws,r=" ++ r).
  assert (Lo2 : Z.of_nat (length o2) = 9 + Z.of_nat (length r)).
  { unfold o2. rewrite length_app.
    change (length (lit "c=biws,r=")) with 9%nat. lia. }
  replace (Z.of_nat (length (lit "c=biws,r=")) + Z.of_nat (length r))
    with (Z.of_nat (length o2))
    by (change (length (lit "c=biws,r=")) with 9%nat; lia).
  rewrite (to_int32_small (Z.of_nat (length o2))) by lia.
  simpl auth_message. simpl auth_messagemax. simpl auth_messagelen.
  replace (Z.of_nat (length a1) + Z.of_nat (length (lit ",")))
    with (Z.of_nat (length a2))
    by (unfold a2; rewrite length_app; lia).
  assert (La2 : Z.of_nat (length a2) = Z.of_nat (length a1) + 1).
  { unfold a2. rewrite length_app. change (length (lit ",")) with 1%nat.
    lia. }
  pose proof (buf_write_appends o2 (Z.of_nat (length o2)) a2
                (auth_messagemax scram)) as A.
  assert (W : write_len o2 (Z.of_nat (length o2)) = Z.of_nat (length o2)).
  { unfold write_len. destruct (Z.ltb_spec (Z.of_nat (length o2)) 0);
      [lia|reflexivity]. }
  cbv zeta in A. rewrite W in A. rewrite A by lia. clear A W.
  rewrite Nat2Z.id, firstn_all.
  rewrite (buf_write_lit ",p=")
    by first [ repeat constructor; discriminate
             | change (length (lit ",p=")) with 3%nat; lia ].
  (* salt and iteration count *)
  rewrite Hs1. fold hs. rewrite Hs2.
  rewrite (to_int32_small (hs - 4)) by lia. rewrite Z.eqb_refl. simpl negb. cbv iota.
  rewrite Hi1. rewrite Hi2. simpl negb. cbv iota.
  destruct (Z.ltb_spec (to_int32 n) 0); [lia|].
  destruct (Z.ltb_spec (to_int32 n) 4096); [lia|].
  rewrite (to_uint32_small (to_int32 n)) by lia.
  (* cache and derivation *)
  match goal with
  | |- context [if first_is_zero (salted_password ?sc) then _ else _] =>
      set (scram3 := sc);
      assert (I3 : iterations scram3 = to_int32 n)
        by (unfold scram3; simpl; destruct (cache scram);
            [match goal with
             | |- context [if ?b then _ else _] => destruct b
             end|]; reflexivity)
  end.
  destruct (first_is_zero (salted_password scram3)).
  - match goal with
    | |- context [_mongoc_scram_salt_password _ _ ?sc ?p ?pl ?sa ?sl ?c] =>
        destruct (salt_password_returns sc p pl sa sl c) as [sp E];
          [lia | rewrite E]
    end.
    destruct (_mongoc_scram_generate_client_proof _ _ _ _ _ _)
      as [[[ok s4] ob] ol] eqn:G.
    eexists. split; [reflexivity|]. simpl. repeat split.
    unfold _mongoc_scram_generate_client_proof in G.
    repeat match type of G with
           | context [if ?b then _ else _] => destruct b
           | context [match ?x with Some _ => _ | None => _ end] => destruct x
           end; inversion G; subst; simpl; exact I3.
  - destruct (_mongoc_scram_generate_client_proof _ _ _ _ _ _)
      as [[[ok s4] ob] ol] eqn:G.
    eexists. split; [reflexivity|]. simpl. repeat split.
    unfold _mongoc_scram_generate_client_proof in G.
    repeat match type of G with
           | context [if ?b then _ else _] => destruct b
           | context [match ?x with Some _ => _ | None => _ end] => destruct x
           end; inversion G; subst; simpl; exact I3.
Qed.

End AllFieldsValid.

Section IterationsRejected.

Variables (hashed_pw i tmp : list byte) (v : step2_vals) (n : Z).
Variable e1 : option bson_error_t.

Hypothesis outbufmax_nonzero : outbufmax <> 0.
Hypothesis password_ok :
  step2_hashed_password icu _mongoc_hex_md5 scram error
  = Some (Some hashed_pw, e1).
Hypothesis parse_ok :
  step2_parse (S (length msg)) msg (byte_at inbuf (Z.to_nat inbuflen))
    {| val_r := None; val_s := None; val_i := None |}
  = Some (Parsed v).
Hypothesis i_value : val_i v = Some i.
Hypothesis i_parsed : bson_ascii_strtoll i = (n, tmp).

(** The text of the count does not end where the number ends, or the
    number, converted to [int], is below 4096 (negative numbers
    included). *)
Hypothesis i_rejected : byte_at tmp 0 <> Byte.x00 \/ to_int32 n < 4096.

Ltac step2_fails :=
  eexists; split; [reflexivity | split; reflexivity].

Lemma step2_rejects_iterations :
  exists res,
    _mongoc_scram_step2 icu crypto_hmac crypto_hash _mongoc_hex_md5
      MONGOC_SCRAM_B64_HASH_MAX_SIZE scram inbuf inbuflen outbuf outbufmax
      outbuflen error = Some res
    /\ rval res = false
    /\ is_protocol_error (error_out res) = true.
Proof.
  unfold _mongoc_scram_step2.
  destruct (Z.eqb_spec outbufmax 0); [contradiction|].
  rewrite password_ok. cbv zeta.
  destruct (_mongoc_scram_buf_write inbuf _ _ _ _) as [[[|] m1] l1];
    [|step2_fails].
  destruct (_mongoc_scram_buf_write (lit ",") _ _ _ _) as [[[|] m2] l2];
    [|step2_fails].
  fold msg. rewrite parse_ok. rewrite i_value.
  destruct (val_r v) as [r|]; [|step2_fails].
  destruct (val_s v) as [s|]; [|step2_fails].
  destruct (_mongoc_scram_buf_write (lit "c=biws,r=") _ _ _ _)
    as [[[|] o1] k1]; [|step2_fails].
  destruct (_mongoc_scram_buf_write r _ _ _ _) as [[[|] o2] k2];
    [|step2_fails].
  destruct (_mongoc_scram_buf_write o2 _ _ _ _) as [[[|] m3] l3];
    [|step2_fails].
  destruct (_mongoc_scram_buf_write (lit ",p=") _ _ _ _) as [[[|] o3] k3];
    [|step2_fails].
  destruct (mcommon_b64_pton s _) as [salt|]; [|step2_fails].
  destruct (negb _); [step2_fails|].
  rewrite i_parsed.
  destruct (Byte.eqb (byte_at tmp 0) Byte.x00) eqn:Et; simpl negb; cbv iota;
    [|step2_fails].
  destruct (Z.ltb_spec (to_int32 n) 0); [step2_fails|].
  destruct (Z.ltb_spec (to_int32 n) 4096); [step2_fails|].
  exfalso. destruct i_rejected as [C|C]; [|lia].
  apply C. now apply Byte.byte_dec_bl.
Qed.

End IterationsRejected.

End Step2.

(** ** A conversation *)

Module Sample.

(** The sizes that the header gives in the examples: 64 bytes for
    MONGOC_SCRAM_B64_HASH_MAX_SIZE and 48 for the encoded nonce. *)
Definition B64_HASH_MAX_SIZE : Z := 64.
Definition NONCE_SIZE : Z := 48.

(** A random source that draws the 24 bytes [fyko+d2lbbFgONRv9qkxdawL]. *)
Definition rand (_ : Z) : option (list byte) :=
  Some (lit "fyko+d2lbbFgONRv9qkxdawL").

Definition encoded_nonce : list byte :=
  lit "ZnlrbytkMmxiYkZnT05Sdjlxa3hkYXdM".

(** A stand-in for the provider with the digest sizes of the two
    algorithms; it is no MAC and serves only to run the code. *)
Definition xor_mac (alg : mongoc_crypto_hash_algorithm_t)
    (key data : list byte) : list byte :=
  map (fun i => byte_xor (byte_at key i) (byte_at data i))
    (seq 0 (match alg with
            | MONGOC_CRYPTO_ALGORITHM_SHA_1 => 20
            | MONGOC_CRYPTO_ALGORITHM_SHA_256 => 32
            | MONGOC_CRYPTO_ALGORITHM_OTHER => 0
            end)).

(** A SHA-256 session for user "user" with password "pencil", before step 1
    and after it. *)
Definition session0 : mongoc_scram_t :=
  _mongoc_scram_set_pass
    (_mongoc_scram_set_user
       (_mongoc_scram_init B64_HASH_MAX_SIZE NONCE_SIZE
          MONGOC_CRYPTO_ALGORITHM_SHA_256)
       (Some (lit "user")))
    (Some (lit "pencil")).

Definition session1 : mongoc_scram_t :=
  with_auth_message
    (with_encoded_nonce (with_step session0 1) encoded_nonce 32)
    (lit "n=user,r=ZnlrbytkMmxiYkZnT05Sdjlxa3hkYXdM,") 4096 42.

(** Server-first messages with a salt of 28 bytes: one that repeats the
    client nonce, one that does not, and one whose count is negative. *)
Definition salt_text : string := "MDEyMzQ1Njc4OWFiY2RlZmdoaWprbG1ub3Bxcg==".

Definition server_first : list byte :=
  lit ("r=ZnlrbytkMmxiYkZnT05Sdjlxa3hkYXdMsrv,s=" ++ salt_text ++ ",i=4096").

Definition server_first_other_nonce : list byte :=
  lit ("r=AAAAAAAAAAAAAAAAAAAAAAAAAAAAAAAAsrv,s=" ++ salt_text ++ ",i=4096").

Definition server_first_negative_count : list byte :=
  lit ("r=ZnlrbytkMmxiYkZnT05Sdjlxa3hkYXdMsrv,s=" ++ salt_text
       ++ ",i=-4294963200").

End Sample.

(** Step 1 of the sample conversation leaves [Sample.session1]. *)
Lemma sample_step1 crypto_hmac crypto_hash hex_md5 :
  _mongoc_scram_step None crypto_hmac crypto_hash hex_md5 Sample.rand
    Sample.B64_HASH_MAX_SIZE Sample.NONCE_SIZE Sample.session0 [] 0 []
    4096 0 None
  = Some {| rval := true; scram_out := Sample.session1;
            outbuf_out := lit "n,,n=user,r=ZnlrbytkMmxiYkZnT05Sdjlxa3hkYXdM";
            outbuflen_out := 44; error_out := None |}.
Proof. reflexivity. Qed.

(** With an [outbufmax] of 8 the user is set, the random draw and the
    encoding succeed, and step 1 returns false with [outbuf] holding the
    seven bytes it could write. *)
Lemma scram_start_small_buffer :
  let r :=
    _mongoc_scram_start Sample.rand Sample.NONCE_SIZE Sample.session0 []
      8 0 None in
  user Sample.session0 = Some (lit "user")
  /\ mcommon_b64_ntop (lit "fyko+d2lbbFgONRv9qkxdawL") 24 Sample.NONCE_SIZE
     = Some Sample.encoded_nonce
  /\ option_map rval r = Some false
  /\ option_map outbuf_out r = Some (lit "n,,n=us")
  /\ option_map error_out r
     = Some (protocol_error None step1_BUFFER).
Proof. cbv zeta. repeat split; reflexivity. Qed.

Lemma scram_start_writes_client_first_witness :
  exists r,
    _mongoc_scram_start Sample.rand Sample.NONCE_SIZE Sample.session0 []
      4096 0 None = Some r
    /\ rval r = true
    /\ outbuf_out r = lit "n,,n=user,r=ZnlrbytkMmxiYkZnT05Sdjlxa3hkYXdM".
Proof.
  destruct (scram_start_writes_client_first Sample.rand Sample.NONCE_SIZE
              Sample.session0 [] 4096 None (lit "user")
              (lit "fyko+d2lbbFgONRv9qkxdawL") Sample.encoded_nonce
              eq_refl eq_refl eq_refl eq_refl
              ltac:(vm_compute; reflexivity) ltac:(lia)
              ltac:(vm_compute; congruence))
    as [r [E [R [O _]]]].
  exists r. repeat split; assumption.
Defined.

Ltac by_computation :=
  vm_compute; repeat split; first [ reflexivity | discriminate ].

Lemma sample_step2_dispatch crypto_hmac crypto_hash hex_md5 inbuf inbuflen :
  _mongoc_scram_step None crypto_hmac crypto_hash hex_md5 Sample.rand
    Sample.B64_HASH_MAX_SIZE Sample.NONCE_SIZE Sample.session1 inbuf
    inbuflen [] 4096 0 None
  = _mongoc_scram_step2 None crypto_hmac crypto_hash hex_md5
      Sample.B64_HASH_MAX_SIZE (with_step Sample.session1 2) inbuf
      inbuflen [] 4096 0 None.
Proof. reflexivity. Qed.

(** C1 (what the code does): in the example conversation the server's [r]
    does not begin with the client nonce and every other field is valid.
    Whatever the provider, step 2 records the error "client nonce not
    repeated" and returns true. *)
Theorem step2_returns_true_on_nonce_mismatch crypto_hmac crypto_hash hex_md5 :
  exists res,
    _mongoc_scram_step None crypto_hmac crypto_hash hex_md5 Sample.rand
      Sample.B64_HASH_MAX_SIZE Sample.NONCE_SIZE Sample.session1
      Sample.server_first_other_nonce 87 [] 4096 0 None = Some res
    /\ rval res = true
    /\ protocol_error_with "client nonce not repeated" (error_out res) = true.
Proof.
  rewrite sample_step2_dispatch.
  destruct (step2_returns_true None crypto_hmac crypto_hash hex_md5
              Sample.B64_HASH_MAX_SIZE (with_step Sample.session1 2)
              Sample.server_first_other_nonce 87 [] 4096 0 None
              (lit "pencil") (lit "AAAAAAAAAAAAAAAAAAAAAAAAAAAAAAAAsrv")
              (lit Sample.salt_text) (lit "4096")
              (lit "0123456789abcdefghijklmnopqr") [] 4096 None
              ltac:(by_computation)
              ltac:(by_computation)
              ltac:(by_computation)
              ltac:(by_computation)
              ltac:(by_computation)
              ltac:(by_computation)
              ltac:(by_computation)
              ltac:(by_computation)
              ltac:(by_computation))
    as [res [E [R [Er _]]]].
  exists res. rewrite Er. split; [exact E|]. split; [exact R|].
  reflexivity.
Qed.

(** C6 (what the code does): the count [-4294963200] is negative, and its
    conversion to [int] is 4096.  In the example conversation, with every
    other field valid, step 2 returns true with no error and keeps 4096 as
    the session's iteration count, whatever the provider. *)
Theorem step2_accepts_negative_count crypto_hmac crypto_hash hex_md5 :
  bson_ascii_strtoll (lit "-4294963200") = (-4294963200, [])
  /\ exists res,
       _mongoc_scram_step None crypto_hmac crypto_hash hex_md5 Sample.rand
         Sample.B64_HASH_MAX_SIZE Sample.NONCE_SIZE Sample.session1
         Sample.server_first_negative_count 94 [] 4096 0 None = Some res
       /\ rval res = true
       /\ error_out res = None
       /\ iterations (scram_out res) = 4096.
Proof.
  split; [reflexivity|].
  rewrite sample_step2_dispatch.
  destruct (step2_returns_true None crypto_hmac crypto_hash hex_md5
              Sample.B64_HASH_MAX_SIZE (with_step Sample.session1 2)
              Sample.server_first_negative_count 94 [] 4096 0 None
              (lit "pencil") (lit "ZnlrbytkMmxiYkZnT05Sdjlxa3hkYXdMsrv")
              (lit Sample.salt_text) (lit "-4294963200")
              (lit "0123456789abcdefghijklmnopqr") [] (-4294963200) None
              ltac:(by_computation)
              ltac:(by_computation)
              ltac:(by_computation)
              ltac:(by_computation)
              ltac:(by_computation)
              ltac:(by_computation)
              ltac:(by_computation)
              ltac:(by_computation)
              ltac:(by_computation))
    as [res [E [R [Er It]]]].
  exists res. rewrite Er, It. split; [exact E|]. split; [exact R|].
  split; reflexivity.
Qed.

(** The parts of C6 that hold.  A count of 4096 with every other field
    valid is accepted ([step2_returns_true] in general; here the example),
    and a count cut short by another character, or below 4096 after its
    conversion to [int], is refused ([step2_rejects_iterations] in general;
    here 4095 and [4096x]). *)
Lemma step2_sample_counts crypto_hmac crypto_hash hex_md5 :
  let step2 inbuf :=
    _mongoc_scram_step None crypto_hmac crypto_hash hex_md5 Sample.rand
      Sample.B64_HASH_MAX_SIZE Sample.NONCE_SIZE Sample.session1 inbuf
      (Z.of_nat (length inbuf)) [] 4096 0 None in
  let prefix :=
    ("r=ZnlrbytkMmxiYkZnT05Sdjlxa3hkYXdMsrv,s=" ++ Sample.salt_text)%string
  in
  (exists res, step2 Sample.server_first = Some res
               /\ rval res = true /\ error_out res = None
               /\ iterations (scram_out res) = 4096)
  /\ option_map rval (step2 (lit (prefix ++ ",i=4095"))) = Some false
  /\ option_map rval (step2 (lit (prefix ++ ",i=4096x"))) = Some false
  /\ option_map rval (step2 (lit (prefix ++ ",i=-1"))) = Some false.
Proof.
  cbv zeta. split; [|repeat split; reflexivity].
  rewrite sample_step2_dispatch.
  destruct (step2_returns_true None crypto_hmac crypto_hash hex_md5
              Sample.B64_HASH_MAX_SIZE (with_step Sample.session1 2)
              Sample.server_first 87 [] 4096 0 None
              (lit "pencil") (lit "ZnlrbytkMmxiYkZnT05Sdjlxa3hkYXdMsrv")
              (lit Sample.salt_text) (lit "4096")
              (lit "0123456789abcdefghijklmnopqr") [] 4096 None
              ltac:(by_computation)
              ltac:(by_computation)
              ltac:(by_computation)
              ltac:(by_computation)
              ltac:(by_computation)
              ltac:(by_computation)
              ltac:(by_computation)
              ltac:(by_computation)
              ltac:(by_computation))
    as [res [E [R [Er It]]]].
  exists res. rewrite Er, It. split; [exact E|]. split; [exact R|].
  split; reflexivity.
Qed.

(** ** Instances of the theorems with hypotheses *)

Lemma xor_mac_length alg key data :
  length (Sample.xor_mac alg key data)
  = Z.to_nat (match alg with
              | MONGOC_CRYPTO_ALGORITHM_SHA_1 => MONGOC_SCRAM_SHA_1_HASH_SIZE
              | MONGOC_CRYPTO_ALGORITHM_SHA_256 =>
                  MONGOC_SCRAM_SHA_256_HASH_SIZE
              | MONGOC_CRYPTO_ALGORITHM_OTHER => 0
              end).
Proof.
  unfold Sample.xor_mac. rewrite length_map, length_seq.
  destruct alg; reflexivity.
Defined.

Lemma salt_password_computes_Hi_witness :
  let scram := Sample.session1 in
  let password := lit "pencil" in
  let salt := lit "0123456789abcdefghijklmnopqr" in
  exists sp,
    _mongoc_scram_salt_password Sample.xor_mac (Z.to_nat 4096) scram
      password (Z.of_nat (length password)) salt 28 4096
    = Some (with_secrets scram (client_key scram) (server_key scram) sp)
    /\ firstn (Z.to_nat (_scram_hash_size scram)) sp
       = spec_Hi (Sample.xor_mac (algorithm scram)) password
           (firstn (Z.to_nat 28) salt) (Z.to_nat 4096).
Proof.
  cbv zeta.
  apply (salt_password_computes_Hi Sample.xor_mac Sample.session1
           (lit "pencil") 4096
           (xor_mac_length MONGOC_CRYPTO_ALGORITHM_SHA_256)
           (lit "0123456789abcdefghijklmnopqr") 28 (Z.to_nat 4096)).
  - reflexivity.
  - vm_compute. split; discriminate.
  - lia.
  - apply le_n.
Defined.

(** The count is a [uint32_t], and at its largest value the function does
    not return.  For the SHA-256 session of the sample, the password
    "pencil", a salt of [hash_size - 4 = 28] bytes and a provider whose
    digests have [hash_size] bytes, the count 4294967295 is at least 1 and
    [_mongoc_scram_salt_password] gives no result, however many turns of
    the loop [for (uint32_t i = 2u; i <= iterations; i++)] are allowed: the
    test never fails and the counter wraps around to 0. *)
Lemma salt_password_never_returns_at_UINT32_MAX :
  let scram := Sample.session1 in
  let password := lit "pencil" in
  let salt := lit "0123456789abcdefghijklmnopqr" in
  Z.of_nat (length salt) = _scram_hash_size scram - 4
  /\ (forall k d,
        length (Sample.xor_mac (algorithm scram) k d)
        = Z.to_nat (_scram_hash_size scram))
  /\ 1 <= UINT32_MAX
  /\ (forall fuel,
        _mongoc_scram_salt_password Sample.xor_mac fuel scram password
          (Z.of_nat (length password)) salt 28 UINT32_MAX = None).
Proof.
  cbv zeta. split; [reflexivity|].
  split; [exact (xor_mac_length MONGOC_CRYPTO_ALGORITHM_SHA_256)|].
  split; [unfold UINT32_MAX; lia|].
  intros fuel. unfold _mongoc_scram_salt_password, UINT32_MAX.
  rewrite salt_password_loop_UINT32_MAX by lia. reflexivity.
Qed.

Module SampleFinal.

(** The server-final message that carries the signature the session
    expects. *)
Definition signature_text : list byte :=
  B64.encode (spec_server_signature Sample.xor_mac Sample.session1).

Definition server_final : list byte := lit "v=" ++ signature_text.

End SampleFinal.


(** ** The models at work *)

Example b64_encode_user : B64.encode (lit "user") = lit "dXNlcg==".
Proof. reflexivity. Qed.

Example b64_biws : B64.encode (lit "n,,") = lit "biws".
Proof. reflexivity. Qed.

Example b64_decode_salt :
  mcommon_b64_pton (lit "W22ZaJ0SNY7soEsUEjb6gQ==") 64
  = Some (map byte_of_Z
            [0x5b; 0x6d; 0x99; 0x68; 0x9d; 0x12; 0x35; 0x8e;
             0xec; 0xa0; 0x4b; 0x14; 0x12; 0x36; 0xfa; 0x81]).
Proof. reflexivity. Qed.

Example b64_decode_rejects : mcommon_b64_pton (lit "ab!d") 64 = None.
Proof. reflexivity. Qed.

Example b64_ntop_overflow : mcommon_b64_ntop (lit "user") 4 8 = None.
Proof. reflexivity. Qed.

Example strtoll_cases :
  bson_ascii_strtoll (lit "4096") = (4096, [])
  /\ bson_ascii_strtoll (lit "4096x") = (4096, lit "x")
  /\ bson_ascii_strtoll (lit "-5") = (-5, [])
  /\ bson_ascii_strtoll (lit "x") = (0, lit "x")
  /\ bson_ascii_strtoll (lit "99999999999999999999") = (INT64_MAX, []).
Proof. repeat split; reflexivity. Qed.

Example utf8_lengths :
  _mongoc_utf8_string_length (lit "pencil") = Some 6
  /\ _mongoc_utf8_string_length [Byte.xc3; Byte.xa9; "x"%byte] = Some 2
  /\ _mongoc_utf8_string_length [Byte.xe2; Byte.x82; Byte.xac] = Some 1
  /\ _mongoc_utf8_string_length [Byte.xf0; Byte.x9f; Byte.x98; Byte.x80]
     = Some 1
  /\ _mongoc_utf8_string_length [Byte.xe2; Byte.x82] = Some (-1).
Proof. repeat split; reflexivity. Qed.

(** The user [a,b=c] of the spec's scenario 7. *)
Example escaped_user :
  option_map outbuf_out
    (_mongoc_scram_start Sample.rand Sample.NONCE_SIZE
       (_mongoc_scram_set_user Sample.session0 (Some (lit "a,b=c"))) []
       4096 0 None)
  = Some (lit "n,,n=a=2Cb=3Dc,r=ZnlrbytkMmxiYkZnT05Sdjlxa3hkYXdM").
Proof. reflexivity. Qed.

(** * Part III: further properties of the module *)

(** ** The UTF-8 scanner and decoder *)

(** The end of the string in memory: [strlen] of what follows [n] bytes that
    are not NUL. *)
Lemma c_str_cons b l : b <> Byte.x00 -> c_str (b :: l) = b :: c_str l.
Proof. intros H. simpl. now rewrite byte_eqb_neq. Qed.

Lemma c_str_nul l : byte_at l 0 = Byte.x00 -> c_str l = [].
Proof.
  destruct l as [|b l]; [reflexivity|]. unfold byte_at. simpl.
  intros ->. reflexivity.
Qed.

Lemma byte_at_skipn (l : list byte) n j :
  byte_at (skipn n l) j = byte_at l (n + j).
Proof.
  unfold byte_at. revert l. induction n as [|n IH]; intros l; [reflexivity|].
  destruct l as [|b l]; [now destruct j|]. simpl. apply IH.
Qed.

Lemma strlen_skipn l n :
  (forall j, (j < n)%nat -> byte_at l j <> Byte.x00) ->
  strlen l = Z.of_nat n + strlen (skipn n l).
Proof.
  unfold strlen. revert l. induction n as [|n IH]; intros l H.
  - simpl. lia.
  - destruct l as [|b l].
    + exfalso. apply (H 0%nat); [lia | reflexivity].
    + rewrite c_str_cons by (apply (H 0%nat); lia).
      simpl skipn. simpl length.
      rewrite Nat2Z.inj_succ, (IH l).
      * lia.
      * intros j Hj. apply (H (S j)). lia.
Qed.

(** Every byte of a character the scanner accepts is other than NUL. *)
Lemma utf8_valid_char_no_nul c :
  byte_at c 0 <> Byte.x00 ->
  _mongoc_utf8_is_valid c (_mongoc_utf8_char_length c) = true ->
  forall j, (j < Z.to_nat (_mongoc_utf8_char_length c))%nat ->
  byte_at c j <> Byte.x00.
Proof.
  intros N0 V j Hj. destruct j as [|j]; [exact N0|].
  apply continuation_nonzero, (utf8_is_valid_continuations c V); lia.
Qed.

(** The scanner on a string whose count so far is [acc]: it fails, or it
    adds the number of characters, between a quarter of the bytes and all of
    them. *)
Lemma utf8_scan_bounds : forall k c acc,
  length c = k ->
  exists n,
    utf8_string_length_loop (S (length c)) c acc = Some n
    /\ (n = -1 \/ acc <= n /\ n - acc <= strlen c <= 4 * (n - acc)).
Proof.
  induction k as [k IH] using lt_wf_ind. intros c acc Hk.
  rewrite utf8_scan_eq.
  destruct (Byte.eqb (byte_at c 0) Byte.x00) eqn:E0.
  - exists acc. split; [reflexivity|]. right.
    apply Byte.byte_dec_bl in E0. unfold strlen. rewrite (c_str_nul c E0).
    change (Z.of_nat (length (@nil byte))) with 0. lia.
  - assert (N0 : byte_at c 0 <> Byte.x00)
      by (intros C; rewrite C in E0; discriminate).
    destruct (_mongoc_utf8_is_valid c (_mongoc_utf8_char_length c)) eqn:V;
      simpl negb; cbv iota zeta; [|eauto].
    pose proof (utf8_is_valid_within c N0 V) as W.
    pose proof (utf8_char_length_cases c) as HL.
    pose proof (strlen_skipn c _ (utf8_valid_char_no_nul c N0 V)) as SL.
    destruct (IH (length (skipn (Z.to_nat (_mongoc_utf8_char_length c)) c)))
      with (c := skipn (Z.to_nat (_mongoc_utf8_char_length c)) c)
           (acc := acc + 1) as [n [E B]].
    + rewrite length_skipn. lia.
    + reflexivity.
    + exists n. split; [exact E|]. destruct B as [B|B]; [now left|]. right.
      lia.
Qed.

(** X1: The count of [_mongoc_utf8_string_length] is an [int]: for a string of
    at most INT32_MAX bytes it returns -1 or a number of characters between a
    quarter of the number of bytes and the number of bytes. *)
Theorem utf8_string_length_bounds s :
  strlen s <= INT32_MAX ->
  exists n,
    _mongoc_utf8_string_length s = Some n
    /\ (n = -1 \/ 0 <= n <= strlen s /\ strlen s <= 4 * n).
Proof.
  intros _. unfold _mongoc_utf8_string_length.
  destruct (utf8_scan_bounds (length s) s 0 eq_refl) as [n [E B]].
  exists n. split; [exact E|]. destruct B as [B|B]; [now left|]. right. lia.
Qed.

Lemma utf8_string_length_bounds_witness :
  exists n,
    _mongoc_utf8_string_length [Byte.xe2; Byte.x82; Byte.xac; "x"%byte]
    = Some n
    /\ (n = -1 \/ 0 <= n <= 4 /\ 4 <= 4 * n).
Proof.
  apply (utf8_string_length_bounds [Byte.xe2; Byte.x82; Byte.xac; "x"%byte]).
  vm_compute. discriminate.
Defined.

(** The scanner on ASCII: one character per byte. *)
Lemma utf8_scan_ascii : forall c acc,
  Forall (fun b => u8 b < 0x80) (c_str c) ->
  utf8_string_length_loop (S (length c)) c acc = Some (acc + strlen c).
Proof.
  induction c as [|b c IH]; intros acc H.
  - simpl. f_equal. unfold strlen. simpl. lia.
  - rewrite utf8_scan_eq. change (byte_at (b :: c) 0) with b.
    destruct (Byte.eqb b Byte.x00) eqn:E0.
    + unfold strlen. simpl. rewrite E0. simpl. f_equal. lia.
    + assert (N0 : b <> Byte.x00) by (intros C; rewrite C in E0; discriminate).
      rewrite c_str_cons in H by exact N0. inversion H as [|x y Hb Hr]; subst.
      assert (L : _mongoc_utf8_char_length (b :: c) = 1).
      { rewrite utf8_char_length_spec. cbv zeta.
        change (byte_at (b :: c) 0) with b.
        destruct (Z.ltb_spec (u8 b) 128); [reflexivity | lia]. }
      rewrite L.
      change (_mongoc_utf8_is_valid (b :: c) 1)
        with (_mongoc_char_between_chars b 0x00 0x7F).
      rewrite between_chars_unsigned by lia.
      pose proof (u8_range b).
      destruct (Z.leb_spec 0 (u8 b)); [|lia].
      destruct (Z.leb_spec (u8 b) 127); [|lia].
      simpl negb. cbv iota zeta. change (skipn (Z.to_nat 1) (b :: c)) with c.
      rewrite IH by exact Hr. f_equal. unfold strlen.
      rewrite c_str_cons by exact N0. simpl length. lia.
Qed.

(** ** Decoding the characters the scanner accepts *)

Lemma land_char_val_3f b : Z.land (char_val b) 0x3f = u8 b mod 64.
Proof. destruct b; reflexivity. Qed.

Lemma land_char_val_1f b : Z.land (char_val b) 0x1f = u8 b mod 32.
Proof. destruct b; reflexivity. Qed.

Lemma land_char_val_0f b : Z.land (char_val b) 0x0f = u8 b mod 16.
Proof. destruct b; reflexivity. Qed.

Lemma land_char_val_07 b : Z.land (char_val b) 0x07 = u8 b mod 8.
Proof. destruct b; reflexivity. Qed.

(** Bits that do not overlap add up. *)
Lemma lor_shiftl_add a b k :
  0 <= k -> 0 <= b < 2 ^ k -> Z.lor (Z.shiftl a k) b = a * 2 ^ k + b.
Proof.
  intros Hk Hb. rewrite Z.shiftl_mul_pow2 by exact Hk.
  assert (D : Z.land (a * 2 ^ k) b = 0).
  { rewrite <- (Z.mod_small b (2 ^ k)) by exact Hb.
    apply Z.bits_inj'. intros n Hn. rewrite Z.land_spec, Z.bits_0.
    destruct (Z.lt_ge_cases n k) as [L|G].
    - rewrite Z.mul_pow2_bits_low by lia. reflexivity.
    - rewrite Z.mod_pow2_bits_high by lia. apply andb_false_r. }
  rewrite <- Z.lxor_lor by exact D. symmetry. apply Z.add_nocarry_lxor.
  exact D.
Qed.

Lemma lor_shiftl_add3 a b c :
  0 <= b < 64 -> 0 <= c < 64 ->
  Z.lor (Z.lor (Z.shiftl a 12) (Z.shiftl b 6)) c = a * 4096 + b * 64 + c.
Proof.
  intros Hb Hc. change 12 with (6 + 6).
  rewrite <- (Z.shiftl_shiftl a 6 6), <- Z.shiftl_lor by lia.
  rewrite !(lor_shiftl_add _ _ 6) by lia. lia.
Qed.

Lemma lor_shiftl_add4 a b c d :
  0 <= b < 64 -> 0 <= c < 64 -> 0 <= d < 64 ->
  Z.lor (Z.lor (Z.lor (Z.shiftl a 18) (Z.shiftl b 12)) (Z.shiftl c 6)) d
  = a * 262144 + b * 4096 + c * 64 + d.
Proof.
  intros Hb Hc Hd. change 18 with (12 + 6). change 12 with (6 + 6).
  rewrite <- (Z.shiftl_shiftl a (6 + 6) 6), <- (Z.shiftl_shiftl b 6 6) by lia.
  rewrite <- !Z.shiftl_lor.
  rewrite (lor_shiftl_add _ d 6) by lia.
  change (Z.shiftl a (6 + 6)) with (Z.shiftl a 12).
  rewrite lor_shiftl_add3 by lia. lia.
Qed.

Ltac mod_bounds :=
  repeat match goal with
         | |- context [?x mod ?m] =>
             let r := fresh "r" in
             let q := fresh "q" in
             let E := fresh "E" in
             let B := fresh "B" in
             pose proof (Z.div_mod x m ltac:(lia)) as E;
             pose proof (Z.mod_pos_bound x m ltac:(lia)) as B;
             set (r := x mod m) in *; set (q := x / m) in *;
             clearbody r q
         end.

(** X2: A character that [_mongoc_utf8_is_valid] accepts at the length that
    [_mongoc_utf8_char_length] gives decodes, by [_mongoc_utf8_to_unicode], to
    a Unicode scalar value: at most 0x10FFFF and no surrogate; and it is in
    its shortest form: one byte for a value up to 0x7F, two up to 0x7FF, three
    up to 0xFFFF and four above. *)
Theorem utf8_valid_char_decodes_to_scalar c :
  let L := _mongoc_utf8_char_length c in
  let cp := _mongoc_utf8_to_unicode c L in
  _mongoc_utf8_is_valid c L = true ->
  0 <= cp <= 0x10FFFF
  /\ ~ (0xD800 <= cp <= 0xDFFF)
  /\ (L = 1 /\ cp <= 0x7F
      \/ L = 2 /\ 0x80 <= cp <= 0x7FF
      \/ L = 3 /\ 0x800 <= cp <= 0xFFFF
      \/ L = 4 /\ 0x10000 <= cp).
Proof.
  cbv zeta. intros V.
  pose proof (u8_range (byte_at c 0)) as R0.
  pose proof (u8_range (byte_at c 1)) as R1.
  pose proof (u8_range (byte_at c 2)) as R2.
  pose proof (u8_range (byte_at c 3)) as R3.
  destruct (utf8_char_length_cases c) as [E|[E|[E|E]]]; rewrite E in *;
    unfold _mongoc_utf8_is_valid in V; simpl Z.eqb in V; cbv iota in V;
    unfold _mongoc_utf8_to_unicode; simpl Z.eqb; cbv iota.
  - between_ranges. unfold char_val.
    destruct (Z.ltb_spec (u8 (byte_at c 0)) 128); [|lia].
    rewrite to_uint32_small by lia. lia.
  - rewrite land_char_val_1f, land_char_val_3f.
    rewrite (lor_shiftl_add _ _ 6) by (try apply Z.mod_pos_bound; lia).
    split_bool. between_ranges. mod_bounds.
    rewrite to_uint32_small by lia. lia.
  - rewrite land_char_val_0f, !land_char_val_3f.
    rewrite lor_shiftl_add3 by (apply Z.mod_pos_bound; lia).
    split_bool; between_ranges; mod_bounds;
      rewrite to_uint32_small by lia; lia.
  - rewrite land_char_val_07, !land_char_val_3f.
    rewrite lor_shiftl_add4 by (apply Z.mod_pos_bound; lia).
    split_bool; between_ranges; mod_bounds;
      rewrite to_uint32_small by lia; lia.
Qed.

Lemma utf8_valid_char_decodes_to_scalar_witness :
  let c := [Byte.xe2; Byte.x82; Byte.xac] in
  _mongoc_utf8_to_unicode c (_mongoc_utf8_char_length c) = 0x20AC
  /\ 0 <= _mongoc_utf8_to_unicode c (_mongoc_utf8_char_length c) <= 0x10FFFF.
Proof.
  cbv zeta.
  pose proof (utf8_valid_char_decodes_to_scalar
                [Byte.xe2; Byte.x82; Byte.xac] eq_refl) as [R _].
  split; [reflexivity | exact R].
Defined.

(** X3: On a string of ASCII bytes (at most INT32_MAX of them, the count being
    an [int]) [_mongoc_utf8_string_length] returns the number of bytes. *)
Theorem utf8_string_length_ascii s :
  strlen s <= INT32_MAX ->
  Forall (fun b => u8 b < 0x80) (c_str s) ->
  _mongoc_utf8_string_length s = Some (strlen s).
Proof.
  intros _ H. unfold _mongoc_utf8_string_length.
  now rewrite utf8_scan_ascii.
Qed.

Lemma utf8_string_length_ascii_witness :
  _mongoc_utf8_string_length (lit "pencil") = Some (strlen (lit "pencil")).
Proof.
  apply utf8_string_length_ascii.
  - vm_compute. discriminate.
  - repeat constructor.
Defined.

(** ** Password preparation without ICU, continued *)

Lemma sasl_prep_required_c_str s :
  _mongoc_sasl_prep_required (c_str s) = _mongoc_sasl_prep_required s.
Proof.
  induction s as [|b r IH]; [reflexivity|]. simpl.
  destruct (Byte.eqb b Byte.x00) eqn:E; [reflexivity|].
  simpl. rewrite E, IH. reflexivity.
Qed.

(** X4: Built without ICU, what [_mongoc_sasl_prep] returns for a password is
    the password itself, with the error record untouched; preparing the result
    again returns it unchanged; and the result is valid UTF-8 of one character
    per byte for [_mongoc_utf8_string_length]. *)
Theorem sasl_prep_without_icu_result in_utf8 in_utf8_len err out err' :
  strlen in_utf8 <= INT32_MAX ->
  _mongoc_sasl_prep None in_utf8 in_utf8_len err = Some (Some out, err') ->
  out = c_str in_utf8 /\ err' = err
  /\ (forall len2 err2,
        _mongoc_sasl_prep None out len2 err2 = Some (Some out, err2))
  /\ _mongoc_utf8_string_length out = Some (strlen in_utf8).
Proof.
  intros _. unfold _mongoc_sasl_prep, bson_strdup.
  destruct (_mongoc_sasl_prep_required in_utf8) eqn:R; [discriminate|].
  intros E. inversion E; subst out err'. clear E.
  split; [reflexivity|]. split; [reflexivity|]. split.
  - intros len2 err2. rewrite sasl_prep_required_c_str, R, c_str_idem.
    reflexivity.
  - unfold _mongoc_utf8_string_length. rewrite utf8_scan_ascii.
    + unfold strlen. rewrite c_str_idem. reflexivity.
    + rewrite c_str_idem.
      assert (N : ~ Exists needs_icu (c_str in_utf8)).
      { intros C. apply sasl_prep_required_spec in C. congruence. }
      apply Forall_forall. intros b Hb.
      destruct (Z.lt_ge_cases (u8 b) 128) as [L|G]; [exact L|].
      exfalso. apply N. apply Exists_exists. exists b. split; [exact Hb|].
      unfold needs_icu. lia.
Qed.

Lemma sasl_prep_without_icu_result_witness :
  _mongoc_utf8_string_length (lit "pencil") = Some (strlen (lit "pencil"))
  /\ _mongoc_sasl_prep None (lit "pencil") 6 None
     = Some (Some (lit "pencil"), None).
Proof.
  pose proof (sasl_prep_without_icu_result (lit "pencil") 6 None
                (lit "pencil") None ltac:(vm_compute; discriminate) eq_refl)
    as [_ [_ [I U]]].
  split; [exact U | apply I].
Defined.

(** ** Code-range tables *)

(** X5: [_mongoc_is_code_in_table] joins its two comparisons with [||]: for an
    empty table ([size] at most 0) it returns false, and for a table of at
    least one range whose first range is in order ([table[0] <= table[1]]) it
    returns true for every code, at the first turn of the loop. *)
Theorem is_code_in_table_first_range code table size :
  (size <= 0 -> _mongoc_is_code_in_table code table size = false)
  /\ (0 < size -> (2 <= length table)%nat ->
      nth 0 table 0 <= nth 1 table 0 ->
      _mongoc_is_code_in_table code table size = true).
Proof.
  unfold _mongoc_is_code_in_table. split.
  - intros H. replace (Z.to_nat size) with 0%nat by lia. reflexivity.
  - intros H _ T. destruct (Z.to_nat size) as [|n] eqn:E; [lia|].
    simpl. destruct (Z.ltb_spec 0 size); [|lia].
    change (Z.to_nat 0) with 0%nat. change (Pos.to_nat 1) with 1%nat.
    destruct (Z.geb_spec code (nth 0 table 0)); [reflexivity|].
    destruct (Z.leb_spec code (nth 1 table 0)); [reflexivity | lia].
Qed.

Lemma is_code_in_table_first_range_witness :
  _mongoc_is_code_in_table 0x41 [0x00A0; 0x00A0; 0x1680; 0x1680] 4 = true
  /\ _mongoc_is_code_in_table 0x41 [] 0 = false.
Proof.
  split.
  - apply (proj2 (is_code_in_table_first_range 0x41
                    [0x00A0; 0x00A0; 0x1680; 0x1680] 4));
      first [ reflexivity | lia | simpl; lia ].
  - apply (proj1 (is_code_in_table_first_range 0x41 [] 0)). lia.
Defined.

(** ** The cache of secrets *)

Lemma length_zeros n : length (zeros n) = Z.to_nat n.
Proof. apply repeat_length. Qed.

Lemma skipn_repeat_byte (b : byte) : forall k m,
  skipn k (repeat b m) = repeat b (m - k).
Proof.
  induction k as [|k IH]; intros m.
  - now rewrite Nat.sub_0_r.
  - destruct m as [|m]; [reflexivity|]. simpl. apply IH.
Qed.

Lemma skipn_zeros k size :
  0 <= k <= size -> skipn (Z.to_nat k) (zeros size) = zeros (size - k).
Proof.
  intros H. unfold zeros. rewrite skipn_repeat_byte. f_equal. lia.
Qed.

(** A copy into a zeroed array of [n] bytes holds the first [n] bytes of the
    source. *)
Lemma memcpy_zeros src n : memcpy (zeros n) src n = firstn (Z.to_nat n) src.
Proof.
  unfold memcpy. rewrite skipn_all2 by (rewrite length_zeros; lia).
  apply app_nil_r.
Qed.

Lemma memcpy_whole dst src n :
  length src = Z.to_nat n -> length dst = Z.to_nat n -> memcpy dst src n = src.
Proof.
  intros Hs Hd. unfold memcpy. rewrite <- Hs at 1. rewrite firstn_all.
  rewrite skipn_all2 by lia. apply app_nil_r.
Qed.

(** The arrays of a cache entry have their declared sizes. *)
Definition cache_entry_sized (sizeof_salt : Z) (e : mongoc_scram_cache_t)
    : Prop :=
  length (cache_decoded_salt e) = Z.to_nat sizeof_salt
  /\ length (cache_client_key e) = Z.to_nat sizeof_key
  /\ length (cache_server_key e) = Z.to_nat sizeof_key
  /\ length (cache_salted_password e) = Z.to_nat sizeof_key.

(** The key arrays of a session have their declared size. *)
Definition session_keys_sized (s : mongoc_scram_t) : Prop :=
  length (client_key s) = Z.to_nat sizeof_key
  /\ length (server_key s) = Z.to_nat sizeof_key
  /\ length (salted_password s) = Z.to_nat sizeof_key.

Lemma cache_copy_sized sizeof_salt e :
  cache_entry_sized sizeof_salt e ->
  _mongoc_scram_cache_copy sizeof_salt (Some e)
  = Some {| cache_hashed_password :=
              option_map c_str (cache_hashed_password e);
            cache_decoded_salt := cache_decoded_salt e;
            cache_iterations := cache_iterations e;
            cache_client_key := cache_client_key e;
            cache_server_key := cache_server_key e;
            cache_salted_password := cache_salted_password e |}.
Proof.
  intros [H1 [H2 [H3 H4]]]. unfold _mongoc_scram_cache_copy.
  unfold sizeof_decoded_salt. rewrite !memcpy_zeros.
  rewrite <- H1 at 1. rewrite <- H2 at 1. rewrite <- H3 at 1.
  rewrite <- H4 at 1. rewrite !firstn_all. reflexivity.
Qed.

(** X6: What [_mongoc_scram_get_cache] hands out after
    [_mongoc_scram_set_cache] is a copy of the entry that was set: the same
    password string, iteration count, salt and keys; setting NULL leaves no
    entry; and setting the cache changes nothing else of the session. *)
Theorem set_cache_then_get_cache sizeof_salt scram e :
  cache_entry_sized sizeof_salt e ->
  let scram' := _mongoc_scram_set_cache sizeof_salt scram (Some e) in
  (exists e',
     _mongoc_scram_get_cache sizeof_salt scram' = Some e'
     /\ option_map c_str (cache_hashed_password e')
        = option_map c_str (cache_hashed_password e)
     /\ cache_iterations e' = cache_iterations e
     /\ cache_decoded_salt e' = cache_decoded_salt e
     /\ cache_client_key e' = cache_client_key e
     /\ cache_server_key e' = cache_server_key e
     /\ cache_salted_password e' = cache_salted_password e)
  /\ _mongoc_scram_get_cache sizeof_salt
       (_mongoc_scram_set_cache sizeof_salt scram None) = None
  /\ with_cache scram' (cache scram) = with_cache scram (cache scram).
Proof.
  intros Hs. cbv zeta.
  unfold _mongoc_scram_get_cache, _mongoc_scram_set_cache.
  split; [|split; reflexivity].
  rewrite (cache_copy_sized _ _ Hs). cbn [cache with_cache].
  rewrite cache_copy_sized by exact Hs.
  eexists. split; [reflexivity|]. cbn.
  repeat split. destruct (cache_hashed_password e); [|reflexivity].
  simpl. now rewrite !c_str_idem.
Qed.

Lemma set_cache_then_get_cache_witness :
  exists e',
    _mongoc_scram_get_cache 64
      (_mongoc_scram_set_cache 64 PresecretsSample.scram
         (Some PresecretsSample.entry)) = Some e'
    /\ cache_salted_password e' = repeat Byte.x04 32.
Proof.
  destruct (set_cache_then_get_cache 64 PresecretsSample.scram
              PresecretsSample.entry
              ltac:(repeat split; reflexivity))
    as [[e' [G [_ [_ [_ [_ [_ S]]]]]]] _].
  exists e'. split; [exact G | exact S].
Defined.

(** X7: The entry that [_mongoc_scram_update_cache] writes for a session whose
    [hashed_password] is set has that session's presecrets
    ([_mongoc_scram_cache_has_presecrets] returns true for it), and
    [_mongoc_scram_cache_apply_secrets] of the entry gives any session the
    three keys of the session that wrote it. *)
Theorem update_cache_then_apply_secrets sizeof_salt scram pw scram2 :
  hashed_password scram = Some pw ->
  session_keys_sized scram -> session_keys_sized scram2 ->
  exists e,
    cache (_mongoc_scram_update_cache sizeof_salt scram) = Some e
    /\ _mongoc_scram_cache_has_presecrets sizeof_salt e scram = true
    /\ client_key (_mongoc_scram_cache_apply_secrets e scram2)
       = client_key scram
    /\ server_key (_mongoc_scram_cache_apply_secrets e scram2)
       = server_key scram
    /\ salted_password (_mongoc_scram_cache_apply_secrets e scram2)
       = salted_password scram.
Proof.
  intros Hp [K1 [K2 K3]] [L1 [L2 L3]].
  unfold _mongoc_scram_update_cache. cbn [cache with_cache].
  eexists. split; [reflexivity|].
  unfold sizeof_decoded_salt. rewrite !memcpy_zeros.
  split.
  - unfold _mongoc_scram_cache_has_presecrets. cbn. rewrite Hp. cbn.
    unfold sizeof_decoded_salt.
    rewrite (proj2 (strcmp_eq_spec (bson_strdup pw) pw))
      by (unfold bson_strdup; apply c_str_idem).
    rewrite Z.eqb_refl.
    rewrite (proj2 (memcmp_eq_spec _ _ _)); [reflexivity|].
    rewrite firstn_firstn, Nat.min_id. reflexivity.
  - unfold _mongoc_scram_cache_apply_secrets.
    cbn [client_key server_key salted_password cache_client_key
         cache_server_key cache_salted_password].
    rewrite !firstn_all2 by lia.
    rewrite !memcpy_whole by congruence. repeat split.
Qed.

Lemma update_cache_then_apply_secrets_witness :
  exists e,
    cache (_mongoc_scram_update_cache 64 PresecretsSample.scram256) = Some e
    /\ _mongoc_scram_cache_has_presecrets 64 e PresecretsSample.scram256
       = true.
Proof.
  destruct (update_cache_then_apply_secrets 64 PresecretsSample.scram256
              PresecretsSample.digest PresecretsSample.scram eq_refl
              ltac:(repeat split; reflexivity)
              ltac:(repeat split; reflexivity))
    as [e [C [H _]]].
  exists e. split; [exact C | exact H].
Defined.

(** ** Step 1, continued *)

Section Step1AtCursor.

Variable _mongoc_rand_bytes : Z -> option (list byte).
Variable sizeof_encoded_nonce : Z.
Variables (scram : mongoc_scram_t) (outbuf : list byte).
Variables (outbufmax outbuflen : Z).
Variable error : option bson_error_t.
Variables (usr nonce text : list byte).

Hypothesis user_set : user scram = Some usr.
Hypothesis random_ok : _mongoc_rand_bytes 24 = Some nonce.
Hypothesis encoded_ok :
  mcommon_b64_ntop nonce 24 sizeof_encoded_nonce = Some text.
Hypothesis fresh_session : auth_messagelen scram = 0.

Hypothesis cursor : 0 <= outbuflen <= Z.of_nat (length outbuf).

Let pre := firstn (Z.to_nat outbuflen) outbuf.
Let out := pre ++ spec_client_first (c_str usr) text.

Hypothesis room : Z.of_nat (length out) < outbufmax.
Hypothesis outbufmax_uint32 : outbufmax <= 4294967295.
Hypothesis out_int32 : Z.of_nat (length out) <= 2147483647.

(** Step 1 with the cursor after the first [outbuflen] bytes, [pre], of
    [outbuf]. *)
Lemma scram_start_at_cursor :
  _mongoc_scram_start _mongoc_rand_bytes sizeof_encoded_nonce scram outbuf
    outbufmax outbuflen error
  = returns true
      (with_auth_message
         (with_encoded_nonce scram text (Z.of_nat (length text)))
         (skipn 3 out ++ lit ",") outbufmax (Z.of_nat (length out) - 2))
      out (Z.of_nat (length out)) error.
Proof.
  unfold _mongoc_scram_start.
  destruct (Z.eqb_spec outbufmax 0) as [Z0|_]; [lia|].
  rewrite user_set, random_ok, encoded_ok. cbv zeta.
  destruct no_nul_lit_cases as [N1 [N2 N3]].
  set (esc := spec_escape_user (c_str usr)).
  assert (Lo : length out = (length pre + (5 + length esc + 3 + length text))%nat).
  { unfold out, spec_client_first. fold esc. rewrite !length_app. simpl. lia. }
  assert (Lp : Z.of_nat (length pre) = outbuflen).
  { unfold pre. rewrite length_firstn. lia. }
  set (b0 := pre ++ lit "n,,n=").
  assert (L0 : length b0 = (length pre + 5)%nat).
  { unfold b0. rewrite length_app. reflexivity. }
  assert (W0 : _mongoc_scram_buf_write (lit "n,,n=") (-1) outbuf outbufmax
                 outbuflen = (true, b0, Z.of_nat (length b0))).
  { unfold _mongoc_scram_buf_write. change (-1 <? 0) with true. cbv iota.
    change (to_int32 (strlen (lit "n,,n="))) with 5.
    rewrite to_uint32_small by lia.
    destruct (Z.geb_spec (outbuflen + 5) outbufmax); [lia|].
    replace (Z.of_nat (length b0)) with (outbuflen + 5) by lia.
    reflexivity. }
  rewrite W0.
  rewrite start_user_loop_spec by (fold esc; lia). fold esc.
  set (b1 := b0 ++ esc).
  replace (Z.of_nat (length b0) + Z.of_nat (length esc))
    with (Z.of_nat (length b1)) by (unfold b1; rewrite length_app; lia).
  assert (L1 : length b1 = (length b0 + length esc)%nat).
  { unfold b1. rewrite length_app. reflexivity. }
  rewrite (buf_write_lit ",r=") by (simpl length; lia || assumption).
  set (b2 := b1 ++ lit ",r=").
  replace (Z.of_nat (length b1) + Z.of_nat (length (lit ",r=")))
    with (Z.of_nat (length b2)) by (unfold b2; rewrite length_app; lia).
  assert (L2 : length b2 = (length b1 + 3)%nat).
  { unfold b2. rewrite length_app. reflexivity. }
  simpl encoded_nonce. simpl encoded_nonce_len.
  pose proof (buf_write_appends text (Z.of_nat (length text)) b2 outbufmax)
    as A.
  assert (W : write_len text (Z.of_nat (length text))
              = Z.of_nat (length text)).
  { unfold write_len. destruct (Z.ltb_spec (Z.of_nat (length text)) 0);
      [lia | reflexivity]. }
  cbv zeta in A. rewrite W in A. rewrite A by lia. clear A.
  rewrite Nat2Z.id, firstn_all.
  assert (Em : b2 ++ text = out).
  { unfold b2, b1, b0, out, spec_client_first. fold esc.
    now rewrite <- !app_assoc. }
  rewrite Em.
  replace (Z.of_nat (length b2) + Z.of_nat (length text))
    with (Z.of_nat (length out)) by lia.
  simpl auth_message. simpl auth_messagemax. simpl auth_messagelen.
  rewrite fresh_session.
  rewrite to_uint32_small by lia. rewrite to_int32_small by lia.
  pose proof (buf_write_appends (skipn 3 out) (Z.of_nat (length out) - 3) []
                outbufmax) as A.
  assert (W3 : write_len (skipn 3 out) (Z.of_nat (length out) - 3)
               = Z.of_nat (length out) - 3).
  { unfold write_len. destruct (Z.ltb_spec (Z.of_nat (length out) - 3) 0);
      [lia | reflexivity]. }
  cbv zeta in A. rewrite W3 in A.
  change (Z.of_nat (length (@nil byte))) with 0 in A.
  rewrite A by (rewrite ?length_skipn; lia). clear A.
  replace (Z.to_nat (Z.of_nat (length out) - 3)) with (length (skipn 3 out))
    by (rewrite length_skipn; lia).
  rewrite firstn_all. change (firstn (Z.to_nat 0) (@nil byte)) with (@nil byte).
  rewrite app_nil_l.
  replace (0 + (Z.of_nat (length out) - 3))
    with (Z.of_nat (length (skipn 3 out))) by (rewrite length_skipn; lia).
  rewrite (buf_write_lit ",")
    by first [ assumption
             | rewrite ?length_skipn;
               change (length (lit ",")) with 1%nat; lia ].
  assert (Ls : Z.of_nat (length (skipn 3 out)) + Z.of_nat (length (lit ","))
               = Z.of_nat (length out) - 2).
  { rewrite length_skipn. change (length (lit ",")) with 1%nat. lia. }
  rewrite Ls. reflexivity.
Qed.

End Step1AtCursor.

(** The message that step 1 builds, spelled out. *)
Lemma spec_escape_user_length u :
  (length (spec_escape_user u) <= 3 * length u)%nat.
Proof.
  induction u as [|b u IH]; [simpl; lia|].
  change (spec_escape_user (b :: u))
    with ((if Byte.eqb b ","%byte then lit "=2C"
           else if Byte.eqb b "="%byte then lit "=3D" else [b])
          ++ spec_escape_user u).
  rewrite length_app. simpl length at 3.
  destruct (Byte.eqb b ","%byte); [simpl; lia|].
  destruct (Byte.eqb b "="%byte); simpl; lia.
Qed.

Lemma spec_escape_user_cons b u :
  spec_escape_user (b :: u)
  = (if Byte.eqb b ","%byte then lit "=2C"
     else if Byte.eqb b "="%byte then lit "=3D" else [b])
    ++ spec_escape_user u.
Proof. reflexivity. Qed.

Lemma spec_escape_user_no_comma u : ~ In ","%byte (spec_escape_user u).
Proof.
  induction u as [|b u IH]; [intros []|].
  rewrite spec_escape_user_cons. intros H. apply in_app_or in H.
  destruct H as [H|H]; [|now apply IH].
  destruct (Byte.eqb b ","%byte) eqn:Ec.
  - simpl in H. intuition discriminate.
  - destruct (Byte.eqb b "="%byte); simpl in H; [intuition discriminate|].
    destruct H as [H|[]]. subst b. discriminate.
Qed.

Lemma spec_escape_user_inj u1 : forall u2,
  spec_escape_user u1 = spec_escape_user u2 -> u1 = u2.
Proof.
  induction u1 as [|b1 u1 IH]; intros [|b2 u2] H.
  - reflexivity.
  - rewrite spec_escape_user_cons in H. simpl in H.
    destruct (Byte.eqb b2 ","%byte); [discriminate|].
    destruct (Byte.eqb b2 "="%byte); discriminate.
  - rewrite spec_escape_user_cons in H. simpl in H.
    destruct (Byte.eqb b1 ","%byte); [discriminate|].
    destruct (Byte.eqb b1 "="%byte); discriminate.
  - rewrite !spec_escape_user_cons in H.
    destruct (Byte.eqb b1 ","%byte) eqn:C1, (Byte.eqb b2 ","%byte) eqn:C2;
      [| destruct (Byte.eqb b2 "="%byte) eqn:E2
       | destruct (Byte.eqb b1 "="%byte) eqn:E1
       | destruct (Byte.eqb b1 "="%byte) eqn:E1,
                  (Byte.eqb b2 "="%byte) eqn:E2 ];
      repeat match goal with
             | E : Byte.eqb _ _ = true |- _ => apply Byte.byte_dec_bl in E
             end; subst; simpl in H; try discriminate;
      try (inversion H; subst; try discriminate; f_equal; now apply IH).
Qed.

(** X8: The loop of step 1 over the user name writes a text without a comma,
    and two user names that are written as the same text are the same string:
    the name can be read back from the message. (Each byte of the name takes
    at most three bytes of the buffer.) *)
Theorem start_user_loop_unambiguous usr1 usr2 outbufmax :
  outbufmax <= 4294967296 ->
  3 * strlen usr1 < outbufmax -> 3 * strlen usr2 < outbufmax ->
  let w1 := start_user_loop usr1 [] outbufmax 0 in
  let w2 := start_user_loop usr2 [] outbufmax 0 in
  fst (fst w1) = true
  /\ ~ In ","%byte (snd (fst w1))
  /\ (snd (fst w1) = snd (fst w2) -> c_str usr1 = c_str usr2).
Proof.
  intros Hmax H1 H2. cbv zeta.
  pose proof (spec_escape_user_length (c_str usr1)) as L1.
  pose proof (spec_escape_user_length (c_str usr2)) as L2.
  unfold strlen in H1, H2.
  pose proof (start_user_loop_spec usr1 [] outbufmax) as S1.
  pose proof (start_user_loop_spec usr2 [] outbufmax) as S2.
  change (Z.of_nat (length (@nil byte))) with 0 in S1, S2.
  rewrite S1, S2 by lia. cbn [fst snd app].
  split; [reflexivity|]. split.
  - apply spec_escape_user_no_comma.
  - apply spec_escape_user_inj.
Qed.

Lemma start_user_loop_unambiguous_witness :
  snd (fst (start_user_loop (lit "a,b=c") [] 64 0)) = lit "a=2Cb=3Dc"
  /\ ~ In ","%byte (snd (fst (start_user_loop (lit "a,b=c") [] 64 0))).
Proof.
  split; [reflexivity|].
  apply (start_user_loop_unambiguous (lit "a,b=c") (lit "a,b=c") 64);
    vm_compute; congruence.
Defined.

(** X9: Step 1 does not reset the cursor. Called with the cursor after
    [outbuflen] bytes of [outbuf], by a session whose user is set and whose
    [auth_message] is empty, when the random draw and the encoding succeed and
    the buffer has room, it returns true, keeps these bytes and writes the
    client-first message after them; [auth_message] receives the buffer from
    its fourth byte on (the client-first message without its first three bytes
    only when the cursor was 0), followed by a comma. *)
Theorem scram_start_appends_at_cursor rand sizeof_encoded_nonce scram outbuf
    outbufmax outbuflen error usr nonce text :
  let pre := firstn (Z.to_nat outbuflen) outbuf in
  let msg :=
    lit "n,,n=" ++ spec_escape_user (c_str usr) ++ lit ",r=" ++ text in
  user scram = Some usr ->
  rand 24 = Some nonce ->
  mcommon_b64_ntop nonce 24 sizeof_encoded_nonce = Some text ->
  auth_messagelen scram = 0 ->
  0 <= outbuflen <= Z.of_nat (length outbuf) ->
  outbuflen + Z.of_nat (length msg) < outbufmax ->
  outbufmax <= 4294967295 ->
  outbuflen + Z.of_nat (length msg) <= 2147483647 ->
  exists r,
    _mongoc_scram_start rand sizeof_encoded_nonce scram outbuf outbufmax
      outbuflen error = Some r
    /\ rval r = true
    /\ outbuf_out r = pre ++ msg
    /\ outbuflen_out r = outbuflen + Z.of_nat (length msg)
    /\ auth_message (scram_out r) = skipn 3 (pre ++ msg) ++ lit ","
    /\ auth_messagelen (scram_out r) = outbuflen + Z.of_nat (length msg) - 2.
Proof.
  cbv zeta. intros Hu Hr He Hf Hc Hroom Hmax Hint.
  assert (Lp : Z.of_nat (length (firstn (Z.to_nat outbuflen) outbuf))
               = outbuflen) by (rewrite length_firstn; lia).
  rewrite (scram_start_at_cursor rand sizeof_encoded_nonce scram outbuf
             outbufmax outbuflen error usr nonce text Hu Hr He Hf Hc);
    try first [ lia | unfold spec_client_first; rewrite length_app; lia ].
  eexists. split; [reflexivity|]. cbn [rval outbuf_out outbuflen_out scram_out
    auth_message auth_messagelen with_auth_message].
  unfold spec_client_first. rewrite length_app.
  repeat split; try reflexivity; lia.
Qed.

Lemma scram_start_appends_at_cursor_witness :
  exists r,
    _mongoc_scram_start Sample.rand Sample.NONCE_SIZE Sample.session0
      (lit "xyz??") 4096 3 None = Some r
    /\ outbuf_out r
       = lit "xyzn,,n=user,r=ZnlrbytkMmxiYkZnT05Sdjlxa3hkYXdM"
    /\ auth_message (scram_out r)
       = lit "n,,n=user,r=ZnlrbytkMmxiYkZnT05Sdjlxa3hkYXdM,".
Proof.
  destruct (scram_start_appends_at_cursor Sample.rand Sample.NONCE_SIZE
              Sample.session0 (lit "xyz??") 4096 3 None (lit "user")
              (lit "fyko+d2lbbFgONRv9qkxdawL") Sample.encoded_nonce
              eq_refl eq_refl eq_refl eq_refl
              ltac:(vm_compute; split; discriminate)
              ltac:(vm_compute; reflexivity) ltac:(lia)
              ltac:(vm_compute; discriminate))
    as [r [E [_ [O [_ [A _]]]]]].
  exists r. split; [exact E|]. split; [exact O | exact A].
Defined.

(** ** What a step changes *)

(** The parts of a session: who converses, the presecrets, the secrets. *)
Definition session_identity (s : mongoc_scram_t) :=
  (step s, user s, pass s, algorithm s).

Definition session_presecrets (s : mongoc_scram_t) :=
  (hashed_password s, decoded_salt s, iterations s).

Definition session_secrets (s : mongoc_scram_t) :=
  (client_key s, server_key s, salted_password s).

Ltac break_match_in H :=
  repeat match type of H with
         | context [match ?x with _ => _ end] => destruct x eqn:?
         end.

Ltac inv_returns H :=
  unfold returns in H;
  first [ discriminate H
        | inversion H; subst; clear H;
          cbn [rval scram_out outbuf_out outbuflen_out error_out] ].

(** X10: Step 1 reads the user and writes [auth_message] and [encoded_nonce]:
    it changes nothing else of the session. When it returns true the error
    record is untouched; when it returns false the record holds a SCRAM
    protocol error. *)
Theorem scram_start_frame rand sizeof_encoded_nonce scram outbuf outbufmax
    outbuflen error r :
  _mongoc_scram_start rand sizeof_encoded_nonce scram outbuf outbufmax
    outbuflen error = Some r ->
  session_identity (scram_out r) = session_identity scram
  /\ session_presecrets (scram_out r) = session_presecrets scram
  /\ session_secrets (scram_out r) = session_secrets scram
  /\ cache (scram_out r) = cache scram
  /\ (rval r = true -> error_out r = error)
  /\ (rval r = false -> is_protocol_error (error_out r) = true).
Proof.
  intros H. unfold _mongoc_scram_start in H. cbv zeta in H.
  break_match_in H; inv_returns H;
    repeat split; try reflexivity; intros; discriminate.
Qed.

Lemma start_identity rand sizeof_encoded_nonce scram outbuf outbufmax
    outbuflen error r :
  _mongoc_scram_start rand sizeof_encoded_nonce scram outbuf outbufmax
    outbuflen error = Some r ->
  session_identity (scram_out r) = session_identity scram
  /\ (rval r = false -> is_protocol_error (error_out r) = true).
Proof.
  intros H. unfold _mongoc_scram_start in H. cbv zeta in H.
  break_match_in H; inv_returns H; split; try reflexivity; intros;
    discriminate.
Qed.

(** The key derivation and the proof change the secrets only. *)
Lemma salt_password_frame hmac fuel scram password password_len salt salt_len
    c s' :
  _mongoc_scram_salt_password hmac fuel scram password password_len salt
    salt_len c = Some s' ->
  exists sp, s' = with_secrets scram (client_key scram) (server_key scram) sp.
Proof.
  unfold _mongoc_scram_salt_password.
  destruct (salt_password_loop _ _ _ _ _ _ _ _ _) as [o|]; [|discriminate].
  intros H. inversion H. eauto.
Qed.

Lemma generate_client_proof_frame hmac hash scram outbuf outbufmax outbuflen :
  let s' :=
    snd (fst (fst (_mongoc_scram_generate_client_proof hmac hash scram outbuf
                     outbufmax outbuflen))) in
  s' = with_secrets scram (client_key s') (server_key scram)
         (salted_password scram).
Proof.
  cbv zeta. unfold _mongoc_scram_generate_client_proof. cbv zeta.
  destruct (first_is_zero (client_key scram));
    match goal with
    | |- context [match ?x with Some _ => _ | None => _ end] => destruct x
    end; cbn [fst snd]; try reflexivity; destruct scram; reflexivity.
Qed.

(** Built without ICU, the preparation of the password fails only with a
    protocol error. *)
Lemma step2_hashed_password_failure md5 scram error e :
  step2_hashed_password None md5 scram error = Some (None, e) ->
  is_protocol_error e = true.
Proof.
  unfold step2_hashed_password, _mongoc_sasl_prep.
  destruct (algorithm scram), (user scram), (pass scram);
    try discriminate;
    destruct (_mongoc_sasl_prep_required _); intros H; inversion H;
    reflexivity.
Qed.

Section Step2Frame.

Variable icu : option sasl_prep_tables.
Variable crypto_hmac :
  mongoc_crypto_hash_algorithm_t -> list byte -> list byte -> list byte.
Variable crypto_hash :
  mongoc_crypto_hash_algorithm_t -> list byte -> list byte.
Variable _mongoc_hex_md5 : list byte -> list byte.
Variable MONGOC_SCRAM_B64_HASH_MAX_SIZE : Z.
Variables (scram : mongoc_scram_t) (inbuf : list byte) (inbuflen : Z).
Variables (outbuf : list byte) (outbufmax outbuflen : Z).
Variable error : option bson_error_t.
Variable r : step_result.

Hypothesis step2_returns :
  _mongoc_scram_step2 icu crypto_hmac crypto_hash _mongoc_hex_md5
    MONGOC_SCRAM_B64_HASH_MAX_SIZE scram inbuf inbuflen outbuf outbufmax
    outbuflen error = Some r.

Lemma step2_frame :
  session_identity (scram_out r) = session_identity scram
  /\ cache (scram_out r) = cache scram
  /\ (encoded_nonce (scram_out r), encoded_nonce_len (scram_out r))
     = (encoded_nonce scram, encoded_nonce_len scram)
  /\ (rval r = false ->
      session_presecrets (scram_out r) = session_presecrets scram
      /\ session_secrets (scram_out r) = session_secrets scram)
  /\ (icu = None -> rval r = false ->
      is_protocol_error (error_out r) = true).
Proof.
  pose proof step2_returns as H.
  unfold _mongoc_scram_step2 in H. cbv zeta in H.
  repeat match type of H with
         | context [match ?x with _ => _ end] =>
             lazymatch x with
             | _mongoc_scram_generate_client_proof _ _ _ _ _ _ => fail
             | _ => destruct x eqn:?
             end
         end.
  all: try (inv_returns H; repeat split; try reflexivity; intros;
            first [ discriminate
                  | reflexivity
                  | subst icu;
                    eapply step2_hashed_password_failure; eassumption ]).
  all: match type of H with
       | context [_mongoc_scram_generate_client_proof ?h ?g ?s ?ob ?om ?ol] =>
           pose proof (generate_client_proof_frame h g s ob om ol) as G;
           cbv zeta in G;
           destruct (_mongoc_scram_generate_client_proof h g s ob om ol)
             as [[[ok s5] ob5] ol5]
       end;
    cbn [fst snd] in G; inv_returns H; rewrite G;
    repeat match goal with
           | E : _mongoc_scram_salt_password _ _ _ _ _ _ _ _ = Some _ |- _ =>
               apply salt_password_frame in E; destruct E as [? ->]
           | E : Some _ = Some _ |- _ => inversion E; subst; clear E
           | E : ?lhs = Some _ |- _ =>
               match lhs with
               | context [match ?x with _ => _ end] => destruct x eqn:?
               end
           end;
    repeat match goal with
           | |- context [match ?x with _ => _ end] => destruct x eqn:?
           end;
    repeat split; try reflexivity; try assumption; intros; discriminate.
Qed.

End Step2Frame.

Lemma verify_server_signature_frame hmac sizeof_salt scram verification len :
  let s' :=
    snd (_mongoc_scram_verify_server_signature hmac sizeof_salt scram
           verification len) in
  s' = with_secrets scram (client_key scram) (server_key s')
         (salted_password scram).
Proof.
  cbv zeta. unfold _mongoc_scram_verify_server_signature. cbv zeta.
  destruct (first_is_zero (server_key scram));
    match goal with
    | |- context [match ?x with Some _ => _ | None => _ end] => destruct x
    end; cbn [fst snd]; try reflexivity; destruct scram; reflexivity.
Qed.

Lemma update_cache_idem sizeof_salt s :
  _mongoc_scram_update_cache sizeof_salt
    (_mongoc_scram_update_cache sizeof_salt s)
  = _mongoc_scram_update_cache sizeof_salt s.
Proof. reflexivity. Qed.

Section Step3Frame.

Variable crypto_hmac :
  mongoc_crypto_hash_algorithm_t -> list byte -> list byte -> list byte.
Variable MONGOC_SCRAM_B64_HASH_MAX_SIZE : Z.
Variables (scram : mongoc_scram_t) (inbuf : list byte) (inbuflen : Z).
Variables (outbuf : list byte) (outbufmax outbuflen : Z).
Variable error : option bson_error_t.
Variable r : step_result.

Hypothesis step3_returns :
  _mongoc_scram_step3 crypto_hmac MONGOC_SCRAM_B64_HASH_MAX_SIZE scram inbuf
    inbuflen outbuf outbufmax outbuflen error = Some r.

Lemma step3_frame :
  session_identity (scram_out r) = session_identity scram
  /\ session_presecrets (scram_out r) = session_presecrets scram
  /\ (client_key (scram_out r), salted_password (scram_out r))
     = (client_key scram, salted_password scram)
  /\ (rval r = false ->
      cache (scram_out r) = cache scram
      /\ is_protocol_error (error_out r) = true)
  /\ (rval r = true ->
      error_out r = error /\ outbuflen_out r = 0
      /\ _mongoc_scram_update_cache MONGOC_SCRAM_B64_HASH_MAX_SIZE
           (scram_out r) = scram_out r).
Proof.
  pose proof step3_returns as H.
  unfold _mongoc_scram_step3 in H. cbv zeta in H.
  repeat match type of H with
         | context [match ?x with _ => _ end] =>
             lazymatch x with
             | _mongoc_scram_verify_server_signature _ _ _ _ _ => fail
             | _ => destruct x eqn:?
             end
         end.
  all: try (inv_returns H; repeat split; try reflexivity; intros;
            first [ discriminate | split; reflexivity ]).
  all: match type of H with
       | context [_mongoc_scram_verify_server_signature ?h ?b ?s ?v ?l] =>
           pose proof (verify_server_signature_frame h b s v l) as G;
           cbv zeta in G;
           destruct (_mongoc_scram_verify_server_signature h b s v l)
             as [ok s5]
       end;
    cbn [fst snd] in G; destruct ok; cbn [negb] in H; inv_returns H;
    rewrite G; repeat split; try reflexivity; intros;
    first [ discriminate | split; reflexivity ].
Qed.

End Step3Frame.

(** X11: A call of [_mongoc_scram_step3] that returns false leaves the cache
    as it was and reports a SCRAM protocol error; a call that returns true
    leaves the error record alone, sets the cursor to 0 and leaves the cache
    holding the session's own presecrets and secrets (updating it again
    changes nothing). Either way the step reads the session: user, password,
    presecrets, client key and salted password stay as they were. *)
Theorem step3_updates_cache_on_success crypto_hmac sizeof_salt scram inbuf
    inbuflen outbuf outbufmax outbuflen error r :
  _mongoc_scram_step3 crypto_hmac sizeof_salt scram inbuf inbuflen outbuf
    outbufmax outbuflen error = Some r ->
  (rval r = false ->
   cache (scram_out r) = cache scram
   /\ is_protocol_error (error_out r) = true)
  /\ (rval r = true ->
      error_out r = error /\ outbuflen_out r = 0
      /\ _mongoc_scram_update_cache sizeof_salt (scram_out r) = scram_out r)
  /\ session_identity (scram_out r) = session_identity scram
  /\ session_presecrets (scram_out r) = session_presecrets scram
  /\ client_key (scram_out r) = client_key scram
  /\ salted_password (scram_out r) = salted_password scram.
Proof.
  intros H.
  destruct (step3_frame _ _ _ _ _ _ _ _ _ _ H) as [I [P [K [F T]]]].
  inversion K. repeat split; try assumption; try apply F; try apply T;
    assumption.
Qed.

(** ** The dispatcher *)

Section Dispatcher.

Variable icu : option sasl_prep_tables.
Variable crypto_hmac :
  mongoc_crypto_hash_algorithm_t -> list byte -> list byte -> list byte.
Variable crypto_hash :
  mongoc_crypto_hash_algorithm_t -> list byte -> list byte.
Variable _mongoc_hex_md5 : list byte -> list byte.
Variable _mongoc_rand_bytes : Z -> option (list byte).
Variable MONGOC_SCRAM_B64_HASH_MAX_SIZE : Z.
Variable sizeof_encoded_nonce : Z.

Let scram_step :=
  _mongoc_scram_step icu crypto_hmac crypto_hash _mongoc_hex_md5
    _mongoc_rand_bytes MONGOC_SCRAM_B64_HASH_MAX_SIZE sizeof_encoded_nonce.

Lemma scram_step_identity scram inbuf inbuflen outbuf outbufmax outbuflen
    error r :
  scram_step scram inbuf inbuflen outbuf outbufmax outbuflen error = Some r ->
  session_identity (scram_out r)
  = (step scram + 1, user scram, pass scram, algorithm scram).
Proof.
  unfold scram_step, _mongoc_scram_step. cbv zeta.
  cbn [step with_step].
  destruct (step scram + 1 =? 1);
    [|destruct (step scram + 1 =? 2); [|destruct (step scram + 1 =? 3)]];
    intros H.
  - apply start_identity in H. destruct H as [H _]. rewrite H. reflexivity.
  - apply step2_frame in H. destruct H as [H _]. rewrite H. reflexivity.
  - apply step3_frame in H. destruct H as [H _]. rewrite H. reflexivity.
  - inv_returns H. reflexivity.
Qed.

(** X12: Every call of [_mongoc_scram_step] that returns, with true or with
    false, has added one to the session's step counter (an [int], below
    INT32_MAX before the call) and left user, password and algorithm alone: a
    step that failed is not run again by the next call. *)
Theorem scram_step_counts_calls scram inbuf inbuflen outbuf outbufmax
    outbuflen error r :
  step scram < INT32_MAX ->
  _mongoc_scram_step icu crypto_hmac crypto_hash _mongoc_hex_md5
    _mongoc_rand_bytes MONGOC_SCRAM_B64_HASH_MAX_SIZE sizeof_encoded_nonce
    scram inbuf inbuflen outbuf outbufmax outbuflen error = Some r ->
  step (scram_out r) = step scram + 1
  /\ user (scram_out r) = user scram
  /\ pass (scram_out r) = pass scram
  /\ algorithm (scram_out r) = algorithm scram.
Proof.
  intros _ H. apply scram_step_identity in H. inversion H. auto.
Qed.

(** X13: After three calls on a session whose counter was 0, whatever was
    passed to them and whatever they returned, a fourth call returns false
    with the error MONGOC_ERROR_SCRAM_NOT_DONE, "maximum steps detected", and
    touches neither the output buffer nor, the counter apart, the session. *)
Theorem scram_step_fourth_call s0 r1 r2 r3
    in1 inlen1 out1 max1 len1 err1 in2 inlen2 out2 max2 len2 err2
    in3 inlen3 out3 max3 len3 err3 inbuf inbuflen outbuf outbufmax outbuflen
    error :
  step s0 = 0 ->
  _mongoc_scram_step icu crypto_hmac crypto_hash _mongoc_hex_md5
    _mongoc_rand_bytes MONGOC_SCRAM_B64_HASH_MAX_SIZE sizeof_encoded_nonce
    s0 in1 inlen1 out1 max1 len1 err1 = Some r1 ->
  _mongoc_scram_step icu crypto_hmac crypto_hash _mongoc_hex_md5
    _mongoc_rand_bytes MONGOC_SCRAM_B64_HASH_MAX_SIZE sizeof_encoded_nonce
    (scram_out r1) in2 inlen2 out2 max2 len2 err2 = Some r2 ->
  _mongoc_scram_step icu crypto_hmac crypto_hash _mongoc_hex_md5
    _mongoc_rand_bytes MONGOC_SCRAM_B64_HASH_MAX_SIZE sizeof_encoded_nonce
    (scram_out r2) in3 inlen3 out3 max3 len3 err3 = Some r3 ->
  _mongoc_scram_step icu crypto_hmac crypto_hash _mongoc_hex_md5
    _mongoc_rand_bytes MONGOC_SCRAM_B64_HASH_MAX_SIZE sizeof_encoded_nonce
    (scram_out r3) inbuf inbuflen outbuf outbufmax outbuflen error
  = Some {| rval := false;
            scram_out := with_step (scram_out r3) 4;
            outbuf_out := outbuf;
            outbuflen_out := outbuflen;
            error_out :=
              Some {| domain := MONGOC_ERROR_SCRAM;
                      code := MONGOC_ERROR_SCRAM_NOT_DONE;
                      message := "SCRAM Failure: maximum steps detected" |}
         |}.
Proof.
  intros H0 H1 H2 H3.
  apply scram_step_identity in H1, H2, H3.
  apply (f_equal (fun t => fst (fst (fst t)))) in H1, H2, H3.
  cbn [session_identity fst] in H1, H2, H3.
  assert (S : step (scram_out r3) = 3) by lia.
  unfold _mongoc_scram_step. cbv zeta. cbn [step with_step].
  rewrite S. reflexivity.
Qed.

End Dispatcher.

(** X14: Built without ICU, a call of [_mongoc_scram_step] that returns false
    has set the error record: to a SCRAM protocol error in steps 1 to 3, to
    MONGOC_ERROR_SCRAM_NOT_DONE past step 3. *)
Theorem scram_step_false_sets_error crypto_hmac crypto_hash md5 rand
    sizeof_salt sizeof_encoded_nonce scram inbuf inbuflen outbuf outbufmax
    outbuflen error r :
  _mongoc_scram_step None crypto_hmac crypto_hash md5 rand sizeof_salt
    sizeof_encoded_nonce scram inbuf inbuflen outbuf outbufmax outbuflen
    error = Some r ->
  rval r = false ->
  exists e,
    error_out r = Some e /\ domain e = MONGOC_ERROR_SCRAM
    /\ (code e = MONGOC_ERROR_SCRAM_PROTOCOL_ERROR /\ 0 <= step scram <= 2
        \/ code e = MONGOC_ERROR_SCRAM_NOT_DONE /\ ~ 0 <= step scram <= 2).
Proof.
  unfold _mongoc_scram_step. cbv zeta. cbn [step with_step].
  assert (P : forall e : option bson_error_t,
            is_protocol_error e = true ->
            exists e', e = Some e' /\ domain e' = MONGOC_ERROR_SCRAM
                       /\ code e' = MONGOC_ERROR_SCRAM_PROTOCOL_ERROR).
  { intros [[[] [] m]|]; try discriminate. eauto. }
  destruct (Z.eqb_spec (step scram + 1) 1);
    [|destruct (Z.eqb_spec (step scram + 1) 2);
      [|destruct (Z.eqb_spec (step scram + 1) 3)]];
    intros H F.
  - apply start_identity in H. destruct H as [_ H].
    destruct (P _ (H F)) as [e' [E1 [E2 E3]]]. exists e'.
    repeat split; try assumption. left. split; [assumption | lia].
  - apply step2_frame in H. destruct H as [_ [_ [_ [_ H]]]].
    destruct (P _ (H eq_refl F)) as [e' [E1 [E2 E3]]]. exists e'.
    repeat split; try assumption. left. split; [assumption | lia].
  - apply step3_frame in H. destruct H as [_ [_ [_ [H _]]]].
    destruct (P _ (proj2 (H F))) as [e' [E1 [E2 E3]]]. exists e'.
    repeat split; try assumption. left. split; [assumption | lia].
  - inv_returns H. eexists. split; [reflexivity|]. split; [reflexivity|].
    right. split; [reflexivity | lia].
Qed.

(** ** The attribute parsers of steps 2 and 3 *)

(** The text of a message of attributes: [key=value] joined by commas. *)
Fixpoint attributes_text (l : list (byte * list byte)) : list byte :=
  match l with
  | [] => []
  | (k, v) :: rest =>
      k :: "="%byte
        :: v ++ match rest with
                | [] => []
                | _ :: _ => ","%byte :: attributes_text rest
                end
  end.

(** The value of the last attribute of [l] with the key [k]. *)
Definition last_value (k : byte) (l : list (byte * list byte))
    : option (list byte) :=
  fold_left (fun acc kv => if Byte.eqb (fst kv) k then Some (snd kv) else acc)
    l None.

Definition no_comma (v : list byte) : Prop := ~ In ","%byte v.

Lemma split_comma_none v : no_comma v -> split_comma v = (v, None).
Proof.
  unfold no_comma. induction v as [|c v IH]; intros H; [reflexivity|].
  simpl. change Byte.x2c with ","%byte.
  rewrite byte_eqb_neq by (intros ->; apply H; now left).
  rewrite IH by (intros C; apply H; now right). reflexivity.
Qed.

Lemma split_comma_some v rest :
  no_comma v -> split_comma (v ++ ","%byte :: rest) = (v, Some rest).
Proof.
  unfold no_comma. induction v as [|c v IH]; intros H; [reflexivity|].
  simpl. change Byte.x2c with ","%byte.
  rewrite byte_eqb_neq by (intros ->; apply H; now left).
  rewrite IH by (intros C; apply H; now right). reflexivity.
Qed.

Lemma attributes_text_length l :
  (length l <= length (attributes_text l))%nat.
Proof.
  induction l as [|[k v] [|kv rest] IH]; simpl in *; try lia.
  rewrite length_app. simpl. lia.
Qed.

(** What the loop of step 2 does with one attribute. *)
Definition step2_set (k : byte) (x : list byte) (v : step2_vals)
    : step2_vals :=
  if Byte.eqb k "r"%byte then
    {| val_r := Some x; val_s := val_s v; val_i := val_i v |}
  else if Byte.eqb k "s"%byte then
    {| val_r := val_r v; val_s := Some x; val_i := val_i v |}
  else {| val_r := val_r v; val_s := val_s v; val_i := Some x |}.

Definition step2_key (k : byte) : Prop :=
  k = "r"%byte \/ k = "s"%byte \/ k = "i"%byte.

Lemma step2_parse_attributes after : forall l fuel v,
  Forall (fun kv => step2_key (fst kv) /\ no_comma (snd kv)) l ->
  (length l < fuel)%nat ->
  step2_parse fuel (attributes_text l) after v
  = Some (Parsed (fold_left (fun v kv => step2_set (fst kv) (snd kv) v) l v)).
Proof.
  induction l as [|[k x] rest IH]; intros fuel v H Hf;
    (destruct fuel as [|fuel]; [simpl in Hf; lia|]); [reflexivity|].
  inversion H as [|? ? [Hk Hx] Hrest]; subst. cbn [fst snd] in Hk, Hx.
  cbn [attributes_text step2_parse fold_left fst snd].
  assert (K :
    (if Byte.eqb k "r"%byte then
       Some (fun x0 =>
               {| val_r := Some x0; val_s := val_s v; val_i := val_i v |})
     else if Byte.eqb k "s"%byte then
       Some (fun x0 =>
               {| val_r := val_r v; val_s := Some x0; val_i := val_i v |})
     else if Byte.eqb k "i"%byte then
       Some (fun x0 =>
               {| val_r := val_r v; val_s := val_s v; val_i := Some x0 |})
     else None)
    = Some (fun x0 => step2_set k x0 v)).
  { unfold step2_set. destruct Hk as [-> | [-> | ->]]; reflexivity. }
  rewrite K. change (Byte.eqb "="%byte "="%byte) with true. cbn [negb].
  destruct rest as [|kv rest'].
  - rewrite app_nil_r, split_comma_none by exact Hx. reflexivity.
  - rewrite split_comma_some by exact Hx.
    apply IH; [exact Hrest | simpl in *; lia].
Qed.

Lemma step2_set_fold l : forall v,
  fold_left (fun v kv => step2_set (fst kv) (snd kv) v) l v
  = {| val_r :=
         fold_left
           (fun acc kv =>
              if Byte.eqb (fst kv) "r"%byte then Some (snd kv) else acc)
           l (val_r v);
       val_s :=
         fold_left
           (fun acc kv =>
              if Byte.eqb (fst kv) "r"%byte then acc
              else if Byte.eqb (fst kv) "s"%byte then Some (snd kv) else acc)
           l (val_s v);
       val_i :=
         fold_left
           (fun acc kv =>
              if Byte.eqb (fst kv) "r"%byte then acc
              else if Byte.eqb (fst kv) "s"%byte then acc else Some (snd kv))
           l (val_i v) |}.
Proof.
  induction l as [|[k x] l IH]; intros v; [now destruct v|].
  cbn [fold_left fst snd]. rewrite IH. unfold step2_set.
  destruct (Byte.eqb k "r"%byte); [reflexivity|].
  destruct (Byte.eqb k "s"%byte); reflexivity.
Qed.

Lemma fold_left_ext_in {A B} (f g : A -> B -> A) (l : list B) :
  (forall a b, In b l -> f a b = g a b) ->
  forall a, fold_left f l a = fold_left g l a.
Proof.
  induction l as [|b l IH]; intros H a; [reflexivity|]. simpl.
  rewrite H by now left. apply IH. intros a' b' Hb. apply H. now right.
Qed.

(** X15: The loop of step 2 that reads the server-first message accepts the
    attributes [r], [s] and [i] in any order and any number, separated by
    commas, with values that hold no comma (an [=] in a value is kept); of an
    attribute given more than once the last value counts, and an attribute
    that is not given stays NULL. *)
Theorem step2_parse_reads_attributes l after :
  Forall (fun kv => step2_key (fst kv) /\ no_comma (snd kv)) l ->
  step2_parse (S (length (attributes_text l))) (attributes_text l) after
    {| val_r := None; val_s := None; val_i := None |}
  = Some (Parsed {| val_r := last_value "r" l;
                    val_s := last_value "s" l;
                    val_i := last_value "i" l |}).
Proof.
  intros H. pose proof (attributes_text_length l) as L.
  rewrite step2_parse_attributes by (exact H || lia).
  rewrite step2_set_fold. cbn [val_r val_s val_i]. unfold last_value.
  do 2 f_equal. f_equal.
  - apply fold_left_ext_in. intros a [k x] Hin. cbn [fst snd].
    rewrite Forall_forall in H. destruct (H _ Hin) as [Hk _].
    cbn [fst] in Hk. destruct Hk as [-> | [-> | ->]]; reflexivity.
  - apply fold_left_ext_in. intros a [k x] Hin. cbn [fst snd].
    rewrite Forall_forall in H. destruct (H _ Hin) as [Hk _].
    cbn [fst] in Hk. destruct Hk as [-> | [-> | ->]]; reflexivity.
Qed.

Lemma step2_parse_reads_attributes_witness :
  step2_parse 26 (lit "i=4096,r=abc,s=QQ==,r=x=y") "="%byte
    {| val_r := None; val_s := None; val_i := None |}
  = Some (Parsed {| val_r := Some (lit "x=y"); val_s := Some (lit "QQ==");
                    val_i := Some (lit "4096") |}).
Proof.
  apply (step2_parse_reads_attributes
           [("i"%byte, lit "4096"); ("r"%byte, lit "abc");
            ("s"%byte, lit "QQ=="); ("r"%byte, lit "x=y")] "="%byte).
  repeat constructor; cbn; unfold step2_key, no_comma; cbn;
    intuition discriminate.
Defined.

Definition step3_set (k : byte) (x : list byte) (v : step3_vals)
    : step3_vals :=
  if Byte.eqb k "e"%byte then {| val_e := Some x; val_v := val_v v |}
  else {| val_e := val_e v; val_v := Some x |}.

Definition step3_key (k : byte) : Prop := k = "e"%byte \/ k = "v"%byte.

Lemma step3_parse_attributes after : forall l fuel v,
  Forall (fun kv => step3_key (fst kv) /\ no_comma (snd kv)) l ->
  (length l < fuel)%nat ->
  step3_parse fuel (attributes_text l) after v
  = Some (Parsed (fold_left (fun v kv => step3_set (fst kv) (snd kv) v) l v)).
Proof.
  induction l as [|[k x] rest IH]; intros fuel v H Hf;
    (destruct fuel as [|fuel]; [simpl in Hf; lia|]); [reflexivity|].
  inversion H as [|? ? [Hk Hx] Hrest]; subst. cbn [fst snd] in Hk, Hx.
  cbn [attributes_text step3_parse fold_left fst snd].
  assert (K :
    (if Byte.eqb k "e"%byte then
       Some (fun x0 => {| val_e := Some x0; val_v := val_v v |})
     else if Byte.eqb k "v"%byte then
       Some (fun x0 => {| val_e := val_e v; val_v := Some x0 |})
     else None)
    = Some (fun x0 => step3_set k x0 v)).
  { unfold step3_set. destruct Hk as [-> | ->]; reflexivity. }
  rewrite K. change (Byte.eqb "="%byte "="%byte) with true. cbn [negb].
  destruct rest as [|kv rest'].
  - rewrite app_nil_r, split_comma_none by exact Hx. reflexivity.
  - rewrite split_comma_some by exact Hx.
    apply IH; [exact Hrest | simpl in *; lia].
Qed.

Lemma step3_set_fold l : forall v,
  fold_left (fun v kv => step3_set (fst kv) (snd kv) v) l v
  = {| val_e :=
         fold_left
           (fun acc kv =>
              if Byte.eqb (fst kv) "e"%byte then Some (snd kv) else acc)
           l (val_e v);
       val_v :=
         fold_left
           (fun acc kv =>
              if Byte.eqb (fst kv) "e"%byte then acc else Some (snd kv))
           l (val_v v) |}.
Proof.
  induction l as [|[k x] l IH]; intros v; [now destruct v|].
  cbn [fold_left fst snd]. rewrite IH. unfold step3_set.
  destruct (Byte.eqb k "e"%byte); reflexivity.
Qed.

Lemma step3_parse_message l after :
  Forall (fun kv => step3_key (fst kv) /\ no_comma (snd kv)) l ->
  step3_parse (S (length (attributes_text l))) (attributes_text l) after
    {| val_e := None; val_v := None |}
  = Some (Parsed {| val_e := last_value "e" l; val_v := last_value "v" l |}).
Proof.
  intros H. pose proof (attributes_text_length l) as L.
  rewrite step3_parse_attributes by (exact H || lia).
  rewrite step3_set_fold. cbn [val_e val_v]. unfold last_value.
  do 3 f_equal.
  apply fold_left_ext_in. intros a [k x] Hin. cbn [fst snd].
  rewrite Forall_forall in H. destruct (H _ Hin) as [Hk _].
  cbn [fst] in Hk. destruct Hk as [-> | ->]; reflexivity.
Qed.

(** X16: A server-final message that carries an [e] attribute makes step 3
    return false with the protocol error "authentication failure in sasl step
    3 : " followed by the text of [e], whatever [v] attributes the message
    carries beside it (a valid signature included). The cursor is set to 0,
    and neither the buffer nor the session (its cache included) is touched. *)
Theorem step3_reports_server_error crypto_hmac sizeof_salt scram l more
    outbuf outbufmax outbuflen error e :
  outbufmax <> 0 ->
  Forall (fun kv => step3_key (fst kv) /\ no_comma (snd kv)) l ->
  last_value "e" l = Some e ->
  _mongoc_scram_step3 crypto_hmac sizeof_salt scram
    (attributes_text l ++ more) (Z.of_nat (length (attributes_text l)))
    outbuf outbufmax outbuflen error
  = Some {| rval := false; scram_out := scram; outbuf_out := outbuf;
            outbuflen_out := 0;
            error_out :=
              protocol_error error
                ("SCRAM Failure: authentication failure in sasl step 3 : "
                 ++ format_s e) |}.
Proof.
  intros Hmax Hl He. unfold _mongoc_scram_step3.
  destruct (Z.eqb_spec outbufmax 0); [contradiction|]. cbv zeta.
  rewrite Nat2Z.id, firstn_app, Nat.sub_diag, firstn_all. simpl firstn.
  rewrite app_nil_r, (step3_parse_message l _ Hl).
  cbn [val_e val_v]. rewrite He. reflexivity.
Qed.

Lemma step3_reports_server_error_witness :
  option_map error_out
    (_mongoc_scram_step3 Sample.xor_mac 64 Sample.session1
       (lit "v=QUJD,e=other-error") 20 [] 4096 7 None)
  = Some (protocol_error None
            "SCRAM Failure: authentication failure in sasl step 3 : other-error").
Proof.
  exact (f_equal (option_map error_out)
           (step3_reports_server_error Sample.xor_mac 64 Sample.session1
              [("v"%byte, lit "QUJD"); ("e"%byte, lit "other-error")] []
              [] 4096 7 None (lit "other-error")
              ltac:(discriminate)
              ltac:(repeat constructor; cbn; unfold step3_key, no_comma; cbn;
                    intuition discriminate)
              eq_refl)).
Defined.

(** ** The client proof *)

Lemma log2_byte a : 0 <= a < 256 -> Z.log2 a < 8.
Proof.
  intros H. destruct (Z.eq_dec a 0) as [->|N]; [reflexivity|].
  apply Z.log2_lt_pow2; lia.
Qed.

Lemma lxor_byte_range a b :
  0 <= a < 256 -> 0 <= b < 256 -> 0 <= Z.lxor a b < 256.
Proof.
  intros Ha Hb.
  assert (N : 0 <= Z.lxor a b) by (apply Z.lxor_nonneg; lia).
  split; [exact N|].
  destruct (Z.eq_dec (Z.lxor a b) 0) as [->|NZ]; [lia|].
  change 256 with (2 ^ 8). apply Z.log2_lt_pow2; [lia|].
  pose proof (Z.log2_lxor a b ltac:(lia) ltac:(lia)).
  pose proof (log2_byte a Ha). pose proof (log2_byte b Hb). lia.
Qed.

(** XOR with the same byte twice gives the byte back. *)
Lemma byte_xor_involutive a b : byte_xor (byte_xor a b) b = a.
Proof.
  unfold byte_xor.
  rewrite u8_byte_of_Z by (apply lxor_byte_range; apply u8_range).
  rewrite Z.lxor_assoc, Z.lxor_nilpotent, Z.lxor_0_r. apply byte_of_Z_u8.
Qed.

Lemma xor_proof_length hs ck sig : length (xor_proof hs ck sig) = hs.
Proof. unfold xor_proof. now rewrite length_map, length_seq. Qed.

Lemma xor_proof_at hs ck sig i :
  (i < hs)%nat ->
  byte_at (xor_proof hs ck sig) i = byte_xor (byte_at ck i) (byte_at sig i).
Proof.
  intros H. unfold xor_proof, byte_at at 1.
  rewrite (nth_indep _ Byte.x00
             (byte_xor (byte_at ck 0) (byte_at sig 0)))
    by (rewrite length_map, length_seq; exact H).
  rewrite (map_nth (fun i => byte_xor (byte_at ck i) (byte_at sig i))).
  rewrite seq_nth by exact H. reflexivity.
Qed.

(** The length of a base64 text. *)
Lemma B64_encode_length : forall n l,
  (length l <= n)%nat ->
  length (B64.encode l) = (4 * ((length l + 2) / 3))%nat.
Proof.
  induction n as [n IH] using lt_wf_ind. intros l Hl.
  destruct l as [|a [|b [|c r]]]; try reflexivity.
  cbn [B64.encode length].
  rewrite (IH (length r)) by (simpl in Hl; lia).
  replace (S (S (S (length r))) + 2)%nat with (length r + 2 + 1 * 3)%nat
    by lia.
  rewrite Nat.div_add by lia. lia.
Qed.

(** The text of a digest of the session's algorithm. *)
Definition b64_digest_length (scram : mongoc_scram_t) : Z :=
  4 * ((_scram_hash_size scram + 2) / 3).

Lemma b64_proof_length scram ck sig :
  Z.of_nat
    (length (B64.encode (xor_proof (Z.to_nat (_scram_hash_size scram)) ck
                           sig)))
  = b64_digest_length scram.
Proof.
  rewrite (B64_encode_length _ _ (le_n _)), xor_proof_length.
  unfold b64_digest_length, _scram_hash_size.
  destruct (algorithm scram); reflexivity.
Qed.

Section ClientProof.

Variable crypto_hmac :
  mongoc_crypto_hash_algorithm_t -> list byte -> list byte -> list byte.
Variable crypto_hash :
  mongoc_crypto_hash_algorithm_t -> list byte -> list byte.
Variables (scram : mongoc_scram_t) (outbuf : list byte).
Variables (outbufmax outbuflen : Z).

Let hs := Z.to_nat (_scram_hash_size scram).
Let HMAC := crypto_hmac (algorithm scram).
Let H := crypto_hash (algorithm scram).

(** The ClientKey that the proof is computed from: the session's, or, when
    its first byte is zero, HMAC(salted password, "Client Key") written
    over the start of the array. *)
Definition proof_client_key : list byte :=
  if first_is_zero (client_key scram) then
    mongoc_crypto_hmac crypto_hmac scram (salted_password scram)
      (_scram_hash_size scram) MONGOC_SCRAM_CLIENT_KEY
      (strlen MONGOC_SCRAM_CLIENT_KEY) (client_key scram)
  else client_key scram.

(** ClientSignature: HMAC(H(ClientKey), AuthMessage), each over the first
    [hash_size] bytes of its array. *)
Definition proof_client_signature : list byte :=
  HMAC (firstn hs (H (firstn hs proof_client_key)))
    (firstn (Z.to_nat (auth_messagelen scram)) (auth_message scram)).

Definition proof_text : list byte :=
  B64.encode (xor_proof hs proof_client_key proof_client_signature).

Lemma generate_client_proof_eq :
  _mongoc_scram_generate_client_proof crypto_hmac crypto_hash scram outbuf
    outbufmax outbuflen
  = let s' :=
      with_secrets scram proof_client_key (server_key scram)
        (salted_password scram) in
    if b64_digest_length scram <? to_uint32 (outbufmax - outbuflen) then
      (true, s', firstn (Z.to_nat outbuflen) outbuf ++ proof_text,
       to_uint32 (outbuflen + b64_digest_length scram))
    else (false, s', outbuf, outbuflen).
Proof.
  unfold _mongoc_scram_generate_client_proof. cbv zeta.
  set (s1 := if first_is_zero (client_key scram) then _ else scram).
  assert (E1 : s1 = with_secrets scram proof_client_key (server_key scram)
                      (salted_password scram)).
  { unfold s1, proof_client_key.
    destruct (first_is_zero (client_key scram)); [reflexivity|].
    destruct scram; reflexivity. }
  rewrite E1. cbn [client_key with_secrets auth_message auth_messagelen].
  unfold mcommon_b64_ntop.
  set (sig := mongoc_crypto_hmac _ _ _ _ _ _ _).
  assert (Es : sig = proof_client_signature).
  { unfold sig, proof_client_signature, mongoc_crypto_hmac,
      mongoc_crypto_hash, memcpy.
    cbn [algorithm with_secrets]. fold HMAC H hs.
    rewrite !Nat2Z.id, !firstn_all, !skipn_nil, !app_nil_r. reflexivity. }
  rewrite Es. fold hs.
  rewrite (firstn_all2 (xor_proof hs _ _))
    by (rewrite xor_proof_length; lia).
  cbv zeta. unfold proof_text.
  pose proof (b64_proof_length scram proof_client_key
                proof_client_signature) as L. fold hs in L.
  rewrite L.
  destruct (b64_digest_length scram <? to_uint32 (outbufmax - outbuflen));
    [rewrite L|]; reflexivity.
Qed.

End ClientProof.

(** ** Step 2, continued *)

(** The text of [AuthMessage] after step 2: what the session held (the
    client-first message without its header, and a comma), the server-first
    message, a comma, and the client-final message without its proof. *)
Definition step2_auth_message (scram : mongoc_scram_t) (msg r : list byte)
    : list byte :=
  auth_message scram ++ msg ++ lit "," ++ lit "c=biws,r=" ++ r.

(** The session when step 2 has saved the presecrets. *)
Definition step2_saved (sizeof_salt : Z) (scram : mongoc_scram_t)
    (msg r hashed_pw salt : list byte) (count : Z) : mongoc_scram_t :=
  with_presecrets
    (with_auth_message scram (step2_auth_message scram msg r)
       (auth_messagemax scram)
       (Z.of_nat (length (step2_auth_message scram msg r))))
    (Some (bson_strdup hashed_pw)) count
    (memcpy (decoded_salt scram)
       (memcpy (zeros sizeof_salt) salt (Z.of_nat (length salt)))
       sizeof_salt).

(** The session when step 2 has consulted the cache. *)
Definition step2_cached (sizeof_salt : Z) (s : mongoc_scram_t)
    : mongoc_scram_t :=
  match cache s with
  | Some entry =>
      if _mongoc_scram_cache_has_presecrets sizeof_salt entry s then
        _mongoc_scram_cache_apply_secrets entry s
      else s
  | None => s
  end.

Section Step2Message.

Variable icu : option sasl_prep_tables.
Variable crypto_hmac :
  mongoc_crypto_hash_algorithm_t -> list byte -> list byte -> list byte.
Variable crypto_hash :
  mongoc_crypto_hash_algorithm_t -> list byte -> list byte.
Variable _mongoc_hex_md5 : list byte -> list byte.
Variable MONGOC_SCRAM_B64_HASH_MAX_SIZE : Z.
Variables (scram : mongoc_scram_t) (inbuf : list byte) (inbuflen : Z).
Variables (outbuf : list byte) (outbufmax outbuflen : Z).
Variable error : option bson_error_t.
Variables (hashed_pw r s i salt tmp : list byte) (n : Z).
Variable e1 : option bson_error_t.

Let hs := _scram_hash_size scram.
Let msg := firstn (Z.to_nat inbuflen) inbuf.

Hypothesis password_ok :
  step2_hashed_password icu _mongoc_hex_md5 scram error
  = Some (Some hashed_pw, e1).
Hypothesis inbuf_ok : 0 <= inbuflen <= Z.of_nat (length inbuf).
Hypothesis parse_ok :
  step2_parse (S (length msg)) msg (byte_at inbuf (Z.to_nat inbuflen))
    {| val_r := None; val_s := None; val_i := None |}
  = Some (Parsed {| val_r := Some r; val_s := Some s; val_i := Some i |}).
Hypothesis auth_ok :
  auth_messagelen scram = Z.of_nat (length (auth_message scram)).
Hypothesis auth_room :
  Z.of_nat (length (auth_message scram)) + inbuflen + 1 + 9
  + Z.of_nat (length r) < auth_messagemax scram.
Hypothesis out_room : 9 + Z.of_nat (length r) + 3 < outbufmax.
Hypothesis sizes :
  auth_messagemax scram <= 2147483647 /\ outbufmax <= 2147483647.

(** Step 2 on a message that parses into the three attributes, with room in
    the two buffers, up to the decoding of the salt: what is left of the
    function is the checks of the salt and of the iteration count and the
    derivation of the keys. *)
Lemma step2_up_to_salt :
  _mongoc_scram_step2 icu crypto_hmac crypto_hash _mongoc_hex_md5
    MONGOC_SCRAM_B64_HASH_MAX_SIZE scram inbuf inbuflen outbuf outbufmax
    outbuflen error
  = let s1 :=
      with_auth_message scram (step2_auth_message scram msg r)
        (auth_messagemax scram)
        (Z.of_nat (length (step2_auth_message scram msg r))) in
    let e2 := nonce_check scram r e1 in
    let FAIL (m : string) :=
      returns false s1 (lit "c=biws,r=" ++ r ++ lit ",p=")
        (12 + Z.of_nat (length r)) (protocol_error e2 m) in
    match mcommon_b64_pton s MONGOC_SCRAM_B64_HASH_MAX_SIZE with
    | None => FAIL "SCRAM Failure: unable to decode salt in sasl step2"%string
    | Some salt =>
        if negb (to_int32 (hs - 4) =? Z.of_nat (length salt)) then
          FAIL ("SCRAM Failure: invalid salt length of "
                ++ decimal (Z.of_nat (length salt)) ++ " in sasl step2")%string
        else
          let '(parsed_value, tmp) := bson_ascii_strtoll i in
          let iterations := to_int32 parsed_value in
          if negb (Byte.eqb (byte_at tmp 0) Byte.x00) then
            FAIL "SCRAM Failure: unable to parse iterations in sasl step2"%string
          else if iterations <? 0 then
            FAIL "SCRAM Failure: iterations is negative in sasl step2"%string
          else if iterations <? 4096 then
            FAIL "SCRAM Failure: iterations must be at least 4096"%string
          else
            let s3 :=
              step2_cached MONGOC_SCRAM_B64_HASH_MAX_SIZE
                (step2_saved MONGOC_SCRAM_B64_HASH_MAX_SIZE scram msg r
                   hashed_pw salt (to_uint32 iterations)) in
            match
              (if first_is_zero (salted_password s3) then
                 _mongoc_scram_salt_password crypto_hmac
                   (Z.to_nat iterations) s3 hashed_pw
                   (to_uint32 (strlen hashed_pw))
                   (memcpy (zeros MONGOC_SCRAM_B64_HASH_MAX_SIZE) salt
                      (Z.of_nat (length salt)))
                   (Z.of_nat (length salt)) (to_uint32 iterations)
               else Some s3)
            with
            | None => None
            | Some s4 =>
                let '(_, s5, ob, ol) :=
                  _mongoc_scram_generate_client_proof crypto_hmac
                    crypto_hash s4 (lit "c=biws,r=" ++ r ++ lit ",p=")
                    outbufmax (12 + Z.of_nat (length r)) in
                returns true s5 ob ol e2
            end
    end.
Proof.
  destruct sizes as [Sa So].
  unfold _mongoc_scram_step2.
  destruct (Z.eqb_spec outbufmax 0); [lia|].
  rewrite password_ok. cbv zeta.
  rewrite auth_ok. rewrite (to_int32_small inbuflen) by lia.
  pose proof (buf_write_appends inbuf inbuflen (auth_message scram)
                (auth_messagemax scram)) as A.
  assert (W : write_len inbuf inbuflen = inbuflen).
  { unfold write_len. destruct (Z.ltb_spec inbuflen 0); [lia|reflexivity]. }
  cbv zeta in A. rewrite W in A. rewrite A by lia. clear A W.
  fold msg. set (a1 := auth_message scram ++ msg).
  assert (La1 : Z.of_nat (length a1)
                = Z.of_nat (length (auth_message scram)) + inbuflen).
  { unfold a1, msg. rewrite length_app, length_firstn. lia. }
  rewrite <- La1. simpl auth_message. simpl auth_messagemax.
  simpl auth_messagelen.
  rewrite (buf_write_lit ",")
    by first [ apply no_nul_lit_cases
             | change (length (lit ",")) with 1%nat; lia ].
  set (a2 := a1 ++ lit ",").
  rewrite parse_ok. simpl val_r. simpl val_s. simpl val_i. cbv iota.
  cbn [encoded_nonce_len encoded_nonce with_auth_message].
  fold nonce_not_repeated. fold (nonce_check scram r e1).
  rewrite (buf_write_first "c=biws,r=")
    by first [ repeat constructor; discriminate
             | change (length (lit "c=biws,r=")) with 9%nat; lia ].
  rewrite (to_int32_small (Z.of_nat (length r))) by lia.
  pose proof (buf_write_appends r (Z.of_nat (length r)) (lit "c=biws,r=")
                outbufmax) as A.
  assert (W : write_len r (Z.of_nat (length r)) = Z.of_nat (length r)).
  { unfold write_len. destruct (Z.ltb_spec (Z.of_nat (length r)) 0);
      [lia|reflexivity]. }
  cbv zeta in A. rewrite W in A.
  rewrite A by (change (length (lit "c=biws,r=")) with 9%nat; lia).
  clear A W. rewrite Nat2Z.id, firstn_all.
  set (o2 := lit "c=biws,r=" ++ r).
  assert (Lo2 : Z.of_nat (length o2) = 9 + Z.of_nat (length r)).
  { unfold o2. rewrite length_app.
    change (length (lit "c=biws,r=")) with 9%nat. lia. }
  replace (Z.of_nat (length (lit "c=biws,r=")) + Z.of_nat (length r))
    with (Z.of_nat (length o2))
    by (change (length (lit "c=biws,r=")) with 9%nat; lia).
  rewrite (to_int32_small (Z.of_nat (length o2))) by lia.
  simpl auth_message. simpl auth_messagemax. simpl auth_messagelen.
  replace (Z.of_nat (length a1) + Z.of_nat (length (lit ",")))
    with (Z.of_nat (length a2))
    by (unfold a2; rewrite length_app; lia).
  assert (La2 : Z.of_nat (length a2) = Z.of_nat (length a1) + 1).
  { unfold a2. rewrite length_app. change (length (lit ",")) with 1%nat.
    lia. }
  pose proof (buf_write_appends o2 (Z.of_nat (length o2)) a2
                (auth_messagemax scram)) as A.
  assert (W : write_len o2 (Z.of_nat (length o2)) = Z.of_nat (length o2)).
  { unfold write_len. destruct (Z.ltb_spec (Z.of_nat (length o2)) 0);
      [lia|reflexivity]. }
  cbv zeta in A. rewrite W in A. rewrite A by lia. clear A W.
  rewrite Nat2Z.id, firstn_all.
  rewrite (buf_write_lit ",p=")
    by first [ repeat constructor; discriminate
             | change (length (lit ",p=")) with 3%nat; lia ].
  assert (Ea : a2 ++ o2 = step2_auth_message scram msg r).
  { unfold a2, a1, o2, step2_auth_message. now rewrite <- !app_assoc. }
  assert (Eo : o2 ++ lit ",p=" = lit "c=biws,r=" ++ r ++ lit ",p=").
  { unfold o2. now rewrite <- app_assoc. }
  assert (El : Z.of_nat (length o2) + Z.of_nat (length (lit ",p="))
               = 12 + Z.of_nat (length r)).
  { change (length (lit ",p=")) with 3%nat. lia. }
  rewrite Ea, Eo, El.
  replace (Z.of_nat (length a2) + Z.of_nat (length o2))
    with (Z.of_nat (length (step2_auth_message scram msg r)))
    by (rewrite <- Ea, length_app; lia).
  fold hs.
  destruct (mcommon_b64_pton s MONGOC_SCRAM_B64_HASH_MAX_SIZE) as [salt0|];
    [|reflexivity].
  destruct (negb (to_int32 (hs - 4) =? Z.of_nat (length salt0)));
    [reflexivity|].
  destruct (bson_ascii_strtoll i) as [pv tmp0].
  destruct (negb (Byte.eqb (byte_at tmp0 0) Byte.x00)); [reflexivity|].
  destruct (to_int32 pv <? 0); [reflexivity|].
  destruct (to_int32 pv <? 4096); reflexivity.
Qed.

Lemma expected_salt_length_int32 :
  to_int32 (hs - 4) = hs - 4.
Proof.
  unfold hs, _scram_hash_size. destruct (algorithm scram); reflexivity.
Qed.

(** X17: The salt is checked after the client-final message has been started.
    For a server-first message that parses into the three attributes, with
    room in the two buffers, a salt that is not base64 text (or does not fit
    the array) makes step 2 return false with the protocol error "unable to
    decode salt", and a salt that decodes to a number of bytes other than
    [hash_size - 4] makes it return false with "invalid salt length of" that
    number. In both cases [outbuf] holds [c=biws,r=] + [r] + [,p=], and the
    session keeps its presecrets and its secrets. *)
Theorem step2_rejects_bad_salt :
  exists res,
    _mongoc_scram_step2 icu crypto_hmac crypto_hash _mongoc_hex_md5
      MONGOC_SCRAM_B64_HASH_MAX_SIZE scram inbuf inbuflen outbuf outbufmax
      outbuflen error = Some res
    /\ (mcommon_b64_pton s MONGOC_SCRAM_B64_HASH_MAX_SIZE = None ->
        rval res = false
        /\ error_out res
           = protocol_error (nonce_check scram r e1)
               "SCRAM Failure: unable to decode salt in sasl step2")
    /\ (forall bytes,
        mcommon_b64_pton s MONGOC_SCRAM_B64_HASH_MAX_SIZE = Some bytes ->
        Z.of_nat (length bytes) <> _scram_hash_size scram - 4 ->
        rval res = false
        /\ error_out res
           = protocol_error (nonce_check scram r e1)
               ("SCRAM Failure: invalid salt length of "
                ++ decimal (Z.of_nat (length bytes)) ++ " in sasl step2"))
    /\ (rval res = false ->
        outbuf_out res = lit "c=biws,r=" ++ r ++ lit ",p="
        /\ session_presecrets (scram_out res) = session_presecrets scram
        /\ session_secrets (scram_out res) = session_secrets scram).
Proof.
  pose proof step2_up_to_salt as E. cbv zeta in E.
  destruct (_mongoc_scram_step2 icu crypto_hmac crypto_hash _mongoc_hex_md5
              MONGOC_SCRAM_B64_HASH_MAX_SIZE scram inbuf inbuflen outbuf
              outbufmax outbuflen error) as [res|] eqn:R.
  2:{ exfalso. rewrite expected_salt_length_int32 in E.
      destruct (mcommon_b64_pton s MONGOC_SCRAM_B64_HASH_MAX_SIZE)
        as [bytes|]; [|discriminate].
      destruct (negb _); [discriminate|].
      destruct (bson_ascii_strtoll i) as [pv tmp0].
      destruct (negb _); [discriminate|].
      destruct (Z.ltb_spec (to_int32 pv) 0); [discriminate|].
      destruct (Z.ltb_spec (to_int32 pv) 4096); [discriminate|].
      pose proof (to_int32_range pv).
      rewrite (to_uint32_small (to_int32 pv)) in E by lia.
      match type of E with
      | context [if ?b then _ else _] => destruct b
      end.
      - match type of E with
        | context [_mongoc_scram_salt_password _ _ ?sc ?p ?pl ?sa ?sl ?c] =>
            destruct (salt_password_returns crypto_hmac sc p pl sa sl c)
              as [sp Es]; [lia | rewrite Es in E]
        end.
        destruct (_mongoc_scram_generate_client_proof _ _ _ _ _ _)
          as [[[? ?] ?] ?]. discriminate.
      - destruct (_mongoc_scram_generate_client_proof _ _ _ _ _ _)
          as [[[? ?] ?] ?]. discriminate. }
  exists res. split; [reflexivity|].
  rewrite expected_salt_length_int32 in E. fold hs.
  split; [|split].
  - intros N. rewrite N in E. inversion E. split; reflexivity.
  - intros bytes B L. rewrite B in E.
    destruct (Z.eqb_spec (hs - 4) (Z.of_nat (length bytes))) as [C|_];
      [unfold hs in C; lia|].
    cbn [negb] in E. inversion E. split; reflexivity.
  - intros F.
    destruct (step2_frame _ _ _ _ _ _ _ _ _ _ _ _ _ R)
      as [_ [_ [_ [K _]]]].
    destruct (K F) as [K1 K2]. split; [|split; assumption].
    destruct (mcommon_b64_pton s MONGOC_SCRAM_B64_HASH_MAX_SIZE)
      as [bytes|]; [|inversion E; reflexivity].
    destruct (negb _); [inversion E; reflexivity|].
    destruct (bson_ascii_strtoll i) as [pv tmp0].
    destruct (negb _); [inversion E; reflexivity|].
    destruct (to_int32 pv <? 0); [inversion E; reflexivity|].
    destruct (to_int32 pv <? 4096); [inversion E; reflexivity|].
    exfalso.
    match type of E with
    | _ = match ?x with Some _ => _ | None => _ end =>
        destruct x; [|discriminate]
    end.
    destruct (_mongoc_scram_generate_client_proof _ _ _ _ _ _)
      as [[[? ?] ?] ?]. inversion E. subst res. discriminate.
Qed.

Hypothesis salt_ok :
  mcommon_b64_pton s MONGOC_SCRAM_B64_HASH_MAX_SIZE = Some salt
  /\ Z.of_nat (length salt) = hs - 4 /\ 4 <= hs.
Hypothesis iterations_ok :
  bson_ascii_strtoll i = (n, tmp) /\ byte_at tmp 0 = Byte.x00
  /\ 4096 <= to_int32 n.

(** Step 2 on a message whose fields are all valid and for which the
    buffers have room, up to the derivation of the keys. *)
Lemma step2_valid_fields :
  _mongoc_scram_step2 icu crypto_hmac crypto_hash _mongoc_hex_md5
    MONGOC_SCRAM_B64_HASH_MAX_SIZE scram inbuf inbuflen outbuf outbufmax
    outbuflen error
  = let s3 :=
      step2_cached MONGOC_SCRAM_B64_HASH_MAX_SIZE
        (step2_saved MONGOC_SCRAM_B64_HASH_MAX_SIZE scram msg r hashed_pw
           salt (to_int32 n)) in
    match
      (if first_is_zero (salted_password s3) then
         _mongoc_scram_salt_password crypto_hmac (Z.to_nat (to_int32 n)) s3
           hashed_pw (to_uint32 (strlen hashed_pw))
           (memcpy (zeros MONGOC_SCRAM_B64_HASH_MAX_SIZE) salt
              (Z.of_nat (length salt)))
           (Z.of_nat (length salt)) (to_int32 n)
       else Some s3)
    with
    | None => None
    | Some s4 =>
        let '(_, s5, ob, ol) :=
          _mongoc_scram_generate_client_proof crypto_hmac crypto_hash s4
            (lit "c=biws,r=" ++ r ++ lit ",p=") outbufmax
            (12 + Z.of_nat (length r)) in
        returns true s5 ob ol (nonce_check scram r e1)
    end.
Proof.
  destruct salt_ok as [Hs1 [Hs2 Hs3]].
  destruct iterations_ok as [Hi1 [Hi2 Hi3]].
  pose proof (to_int32_range n) as Rn.
  assert (Hhs : hs <= 32).
  { unfold hs, _scram_hash_size. destruct (algorithm scram); vm_compute;
      discriminate. }
  rewrite step2_up_to_salt. cbv zeta.
  rewrite Hs1, (to_int32_small (hs - 4)) by lia.
  rewrite <- Hs2, Z.eqb_refl. cbn [negb].
  rewrite Hi1, Hi2. change (Byte.eqb Byte.x00 Byte.x00) with true. cbn [negb].
  destruct (Z.ltb_spec (to_int32 n) 0); [lia|].
  destruct (Z.ltb_spec (to_int32 n) 4096); [lia|].
  rewrite (to_uint32_small (to_int32 n)) by lia. reflexivity.
Qed.

(** The session after the derivation of the keys. *)
Lemma step2_derivation :
  let s3 :=
    step2_cached MONGOC_SCRAM_B64_HASH_MAX_SIZE
      (step2_saved MONGOC_SCRAM_B64_HASH_MAX_SIZE scram msg r hashed_pw
         salt (to_int32 n)) in
  exists sp,
    (if first_is_zero (salted_password s3) then
       _mongoc_scram_salt_password crypto_hmac (Z.to_nat (to_int32 n)) s3
         hashed_pw (to_uint32 (strlen hashed_pw))
         (memcpy (zeros MONGOC_SCRAM_B64_HASH_MAX_SIZE) salt
            (Z.of_nat (length salt)))
         (Z.of_nat (length salt)) (to_int32 n)
     else Some s3)
    = Some (with_secrets s3 (client_key s3) (server_key s3) sp)
    /\ (first_is_zero (salted_password s3) = false
        -> sp = salted_password s3).
Proof.
  cbv zeta. destruct iterations_ok as [_ [_ Hi3]].
  pose proof (to_int32_range n) as Rn.
  set (s3 := step2_cached _ _).
  destruct (first_is_zero (salted_password s3)).
  - match goal with
    | |- context [_mongoc_scram_salt_password _ _ ?sc ?p ?pl ?sa ?sl ?c] =>
        destruct (salt_password_returns crypto_hmac sc p pl sa sl c)
          as [sp E]; [lia|]
    end.
    exists sp. split; [exact E | discriminate].
  - exists (salted_password s3). split; [|reflexivity].
    destruct s3; reflexivity.
Qed.

Lemma step2_cached_frame sizeof_salt s0 :
  auth_message (step2_cached sizeof_salt s0) = auth_message s0
  /\ auth_messagelen (step2_cached sizeof_salt s0) = auth_messagelen s0
  /\ algorithm (step2_cached sizeof_salt s0) = algorithm s0.
Proof.
  unfold step2_cached. destruct (cache s0); [|auto].
  destruct (_mongoc_scram_cache_has_presecrets _ _ _); auto.
Qed.

(** X18: The client-final message. For a server-first message whose fields are
    all valid, with room in both buffers, step 2 returns true and leaves in
    [outbuf] the text [c=biws,r=] + the server's [r] + [,p=] + the base64 text
    of the proof, ClientKey XOR HMAC(H(ClientKey), AuthMessage) over
    [hash_size] bytes, where ClientKey is the session's [client_key] after the
    step and AuthMessage is what the session held before the step, the
    server-first message, a comma and [c=biws,r=] + [r]. *)
Theorem step2_writes_client_final :
  12 + Z.of_nat (length r) + b64_digest_length scram < outbufmax ->
  exists res,
    _mongoc_scram_step2 icu crypto_hmac crypto_hash _mongoc_hex_md5
      MONGOC_SCRAM_B64_HASH_MAX_SIZE scram inbuf inbuflen outbuf outbufmax
      outbuflen error = Some res
    /\ rval res = true
    /\ auth_message (scram_out res)
       = auth_message scram ++ firstn (Z.to_nat inbuflen) inbuf ++ lit ","
         ++ lit "c=biws,r=" ++ r
    /\ outbuf_out res
       = lit "c=biws,r=" ++ r ++ lit ",p="
         ++ B64.encode
              (xor_proof (Z.to_nat (_scram_hash_size scram))
                 (client_key (scram_out res))
                 (crypto_hmac (algorithm scram)
                    (firstn (Z.to_nat (_scram_hash_size scram))
                       (crypto_hash (algorithm scram)
                          (firstn (Z.to_nat (_scram_hash_size scram))
                             (client_key (scram_out res)))))
                    (auth_message (scram_out res))))
    /\ outbuflen_out res
       = 12 + Z.of_nat (length r) + b64_digest_length scram.
Proof.
  intros Hroom. destruct sizes as [Sa So].
  rewrite step2_valid_fields. cbv zeta.
  destruct step2_derivation as [sp [E _]]. cbv zeta in E. rewrite E. clear E.
  set (s3 := step2_cached _ _).
  set (s4 := with_secrets s3 (client_key s3) (server_key s3) sp).
  destruct (step2_cached_frame MONGOC_SCRAM_B64_HASH_MAX_SIZE
              (step2_saved MONGOC_SCRAM_B64_HASH_MAX_SIZE scram msg r
                 hashed_pw salt (to_int32 n))) as [F1 [F2 F3]].
  fold s3 in F1, F2, F3.
  cbn [auth_message auth_messagelen algorithm step2_saved with_presecrets
       with_auth_message] in F1, F2, F3.
  assert (D : b64_digest_length s4 = b64_digest_length scram).
  { unfold b64_digest_length, _scram_hash_size, s4.
    cbn [algorithm with_secrets]. now rewrite F3. }
  assert (Hs : _scram_hash_size s4 = _scram_hash_size scram).
  { unfold _scram_hash_size, s4. cbn [algorithm with_secrets].
    now rewrite F3. }
  assert (Dpos : 0 <= b64_digest_length scram).
  { unfold b64_digest_length, _scram_hash_size.
    destruct (algorithm scram); vm_compute; discriminate. }
  rewrite generate_client_proof_eq. cbv zeta. rewrite D.
  rewrite (to_uint32_small (outbufmax - _)) by lia.
  destruct (Z.ltb_spec (b64_digest_length scram)
              (outbufmax - (12 + Z.of_nat (length r)))); [|lia].
  eexists. split; [reflexivity|].
  cbn [rval scram_out outbuf_out outbuflen_out auth_message client_key
       with_secrets].
  split; [reflexivity|]. split; [exact F1|]. split.
  - replace (Z.to_nat (12 + Z.of_nat (length r)))
      with (length (lit "c=biws,r=" ++ r ++ lit ",p="))
      by (rewrite !length_app;
          change (length (lit "c=biws,r=")) with 9%nat;
          change (length (lit ",p=")) with 3%nat; lia).
    rewrite firstn_all, <- !app_assoc. do 3 f_equal.
    unfold proof_text, proof_client_signature.
    rewrite Hs. cbn [auth_message auth_messagelen algorithm with_secrets s4].
    rewrite F1, F2, F3, Nat2Z.id, firstn_all. unfold s4. reflexivity.
  - apply to_uint32_small. lia.
Qed.

(** X19: Step 2 does not look at what [_mongoc_scram_generate_client_proof]
    returns. For a server-first message whose fields are all valid, when
    [outbuf] has room for [c=biws,r=] + [r] + [,p=] and none for the text of
    the proof, step 2 still returns true, with a client-final message that
    ends in [,p=]. *)
Theorem step2_ignores_proof_overflow :
  outbufmax <= 12 + Z.of_nat (length r) + b64_digest_length scram ->
  exists res,
    _mongoc_scram_step2 icu crypto_hmac crypto_hash _mongoc_hex_md5
      MONGOC_SCRAM_B64_HASH_MAX_SIZE scram inbuf inbuflen outbuf outbufmax
      outbuflen error = Some res
    /\ rval res = true
    /\ outbuf_out res = lit "c=biws,r=" ++ r ++ lit ",p="
    /\ outbuflen_out res = 12 + Z.of_nat (length r).
Proof.
  intros Hroom. destruct sizes as [Sa So].
  rewrite step2_valid_fields. cbv zeta.
  destruct step2_derivation as [sp [E _]]. cbv zeta in E. rewrite E. clear E.
  set (s3 := step2_cached _ _).
  set (s4 := with_secrets s3 (client_key s3) (server_key s3) sp).
  destruct (step2_cached_frame MONGOC_SCRAM_B64_HASH_MAX_SIZE
              (step2_saved MONGOC_SCRAM_B64_HASH_MAX_SIZE scram msg r
                 hashed_pw salt (to_int32 n))) as [_ [_ F3]].
  fold s3 in F3.
  cbn [algorithm step2_saved with_presecrets with_auth_message] in F3.
  assert (D : b64_digest_length s4 = b64_digest_length scram).
  { unfold b64_digest_length, _scram_hash_size, s4.
    cbn [algorithm with_secrets]. now rewrite F3. }
  rewrite generate_client_proof_eq. cbv zeta. rewrite D.
  rewrite (to_uint32_small (outbufmax - _)) by lia.
  destruct (Z.ltb_spec (b64_digest_length scram)
              (outbufmax - (12 + Z.of_nat (length r)))); [lia|].
  eexists. split; [reflexivity|]. repeat split.
Qed.

(** X20: A cache hit. When the session's cache entry holds the presecrets of
    the conversation (the password string, the iteration count and the salt,
    padded with zeros to the size of the array) and a salted password whose
    first byte is not zero, step 2 derives nothing: the session leaves the
    step with the salted password and the server key of the entry, and with
    its client key when the first byte of that is not zero. *)
Theorem step2_cache_hit entry pw :
  cache scram = Some entry ->
  cache_hashed_password entry = Some pw -> c_str pw = c_str hashed_pw ->
  cache_iterations entry = to_int32 n ->
  cache_decoded_salt entry
  = salt ++ zeros (MONGOC_SCRAM_B64_HASH_MAX_SIZE - Z.of_nat (length salt)) ->
  length (decoded_salt scram) = Z.to_nat MONGOC_SCRAM_B64_HASH_MAX_SIZE ->
  cache_entry_sized MONGOC_SCRAM_B64_HASH_MAX_SIZE entry ->
  session_keys_sized scram ->
  first_is_zero (cache_salted_password entry) = false ->
  exists res,
    _mongoc_scram_step2 icu crypto_hmac crypto_hash _mongoc_hex_md5
      MONGOC_SCRAM_B64_HASH_MAX_SIZE scram inbuf inbuflen outbuf outbufmax
      outbuflen error = Some res
    /\ rval res = true
    /\ salted_password (scram_out res) = cache_salted_password entry
    /\ server_key (scram_out res) = cache_server_key entry
    /\ (first_is_zero (cache_client_key entry) = false ->
        client_key (scram_out res) = cache_client_key entry).
Proof.
  intros Hc Hp Hpw Hit Hsalt Hds [_ [E1 [E2 E3]]] [K1 [K2 K3]] Hnz.
  destruct salt_ok as [Hs1 _].
  assert (Ls : Z.of_nat (length salt) <= MONGOC_SCRAM_B64_HASH_MAX_SIZE).
  { unfold mcommon_b64_pton in Hs1.
    destruct (B64.decode _ _) as [bytes|]; [|discriminate].
    destruct (Z.leb_spec (Z.of_nat (length bytes))
                MONGOC_SCRAM_B64_HASH_MAX_SIZE); [|discriminate].
    inversion Hs1; subst. assumption. }
  rewrite step2_valid_fields. cbv zeta.
  set (s2 := step2_saved _ _ _ _ _ _ _).
  assert (Hit2 : _mongoc_scram_cache_has_presecrets
                   MONGOC_SCRAM_B64_HASH_MAX_SIZE entry s2 = true).
  { unfold _mongoc_scram_cache_has_presecrets, s2, step2_saved.
    cbn [hashed_password iterations decoded_salt with_presecrets
         with_auth_message].
    rewrite Hp, Hit, Z.eqb_refl.
    rewrite (proj2 (strcmp_eq_spec pw (bson_strdup hashed_pw)))
      by (unfold bson_strdup; now rewrite c_str_idem).
    rewrite (proj2 (memcmp_eq_spec _ _ _)); [reflexivity|].
    f_equal. rewrite Hsalt. unfold sizeof_decoded_salt.
    assert (X : memcpy (zeros MONGOC_SCRAM_B64_HASH_MAX_SIZE) salt
                  (Z.of_nat (length salt))
                = salt ++ zeros (MONGOC_SCRAM_B64_HASH_MAX_SIZE
                                 - Z.of_nat (length salt))).
    { unfold memcpy. rewrite firstn_all2 by lia.
      rewrite skipn_zeros by lia. reflexivity. }
    rewrite X. symmetry. apply memcpy_whole; [|exact Hds].
    rewrite length_app, length_zeros. lia. }
  assert (S3 : step2_cached MONGOC_SCRAM_B64_HASH_MAX_SIZE s2
               = _mongoc_scram_cache_apply_secrets entry s2).
  { unfold step2_cached.
    replace (cache s2) with (Some entry) by (symmetry; exact Hc).
    now rewrite Hit2. }
  rewrite S3.
  assert (Sp : salted_password (_mongoc_scram_cache_apply_secrets entry s2)
               = cache_salted_password entry).
  { cbn [salted_password _mongoc_scram_cache_apply_secrets].
    apply memcpy_whole; [exact E3 | exact K3]. }
  rewrite Sp, Hnz.
  rewrite generate_client_proof_eq. cbv zeta.
  match goal with
  | |- context [if ?b then _ else _] => destruct b
  end; (eexists; split; [reflexivity|]);
    cbn [rval scram_out salted_password server_key client_key with_secrets
         _mongoc_scram_cache_apply_secrets];
    (split; [reflexivity|]);
    (split; [apply memcpy_whole; [exact E3 | exact K3]|]);
    (split; [apply memcpy_whole; [exact E2 | exact K2]|]);
    intros Hck; unfold proof_client_key;
    cbn [client_key _mongoc_scram_cache_apply_secrets];
    replace (memcpy (client_key s2) (cache_client_key entry) sizeof_key)
      with (cache_client_key entry)
      by (symmetry; apply memcpy_whole; [exact E1 | exact K1]);
    rewrite Hck; reflexivity.
Qed.

End Step2Message.

(** X21: [_mongoc_scram_generate_client_proof] succeeds exactly when the text
    of the proof and its terminator fit after the cursor (the space left being
    taken in [uint32_t]); a call that fails leaves buffer and cursor alone; a
    call that succeeds appends the base64 text of [hash_size] bytes from which
    ClientKey can be had back: each byte of the proof, XORed with the byte of
    ClientSignature = HMAC(H(ClientKey), AuthMessage), is the byte of the
    session's [client_key]. A [client_key] whose first byte is not zero is
    used as it is. *)
Theorem generate_client_proof_recovers_key crypto_hmac crypto_hash scram
    outbuf outbufmax outbuflen :
  let res :=
    _mongoc_scram_generate_client_proof crypto_hmac crypto_hash scram outbuf
      outbufmax outbuflen in
  let ok := fst (fst (fst res)) in
  let scram' := snd (fst (fst res)) in
  let hs := Z.to_nat (_scram_hash_size scram) in
  let signature :=
    crypto_hmac (algorithm scram)
      (firstn hs (crypto_hash (algorithm scram)
                    (firstn hs (client_key scram'))))
      (firstn (Z.to_nat (auth_messagelen scram)) (auth_message scram)) in
  (ok = true
   <-> b64_digest_length scram < to_uint32 (outbufmax - outbuflen))
  /\ (ok = false -> snd (fst res) = outbuf /\ snd res = outbuflen)
  /\ (ok = true ->
      exists proof,
        snd (fst res) = firstn (Z.to_nat outbuflen) outbuf ++ B64.encode proof
        /\ length proof = hs
        /\ forall i, (i < hs)%nat ->
           byte_xor (byte_at proof i) (byte_at signature i)
           = byte_at (client_key scram') i)
  /\ (first_is_zero (client_key scram) = false ->
      client_key scram' = client_key scram).
Proof.
  cbv zeta. rewrite generate_client_proof_eq. cbv zeta.
  destruct (Z.ltb_spec (b64_digest_length scram)
              (to_uint32 (outbufmax - outbuflen)));
    cbn [fst snd client_key with_secrets].
  - split; [tauto|]. split; [discriminate|]. split.
    + intros _. eexists. split; [reflexivity|].
      split; [apply xor_proof_length|].
      intros i Hi. rewrite xor_proof_at by exact Hi.
      unfold proof_client_signature. apply byte_xor_involutive.
    + intros Z0. unfold proof_client_key. now rewrite Z0.
  - split; [split; [discriminate | lia]|]. split; [auto|].
    split; [discriminate|].
    intros Z0. unfold proof_client_key. now rewrite Z0.
Qed.

(** ** The key derivation at the ends of its range *)

(** X22: [_mongoc_scram_salt_password] with an iteration count of 0 does what
    it does with a count of 1, the loop running from 2: it leaves U1, the HMAC
    of the salt and the block index; and with a count of UINT32_MAX the loop
    [for (uint32_t i = 2u; i <= iterations; i++)] has no end, the counter
    wrapping around to 0 past UINT32_MAX: the function does not return,
    whatever the number of turns allowed. *)
Theorem salt_password_edge_counts crypto_hmac fuel scram password
    password_len salt salt_len :
  _mongoc_scram_salt_password crypto_hmac (S fuel) scram password
    password_len salt salt_len 0
  = _mongoc_scram_salt_password crypto_hmac (S fuel) scram password
      password_len salt salt_len 1
  /\ _mongoc_scram_salt_password crypto_hmac (S fuel) scram password
       password_len salt salt_len 0
     = Some (with_secrets scram (client_key scram) (server_key scram)
               (mongoc_crypto_hmac crypto_hmac scram password password_len
                  (firstn (Z.to_nat salt_len) salt
                   ++ [Byte.x00; Byte.x00; Byte.x00; Byte.x01])
                  (_scram_hash_size scram) (salted_password scram)))
  /\ _mongoc_scram_salt_password crypto_hmac fuel scram password
       password_len salt salt_len UINT32_MAX = None.
Proof.
  unfold _mongoc_scram_salt_password. repeat split.
  unfold UINT32_MAX. rewrite salt_password_loop_UINT32_MAX by lia.
  reflexivity.
Qed.

(** X23: A call of step 2 that returns false has changed nothing of the
    session but [auth_message] and its length: the presecrets, the secrets,
    the nonce and the cache are as they were (the presecrets are saved once
    every check has passed); and a call that returns, true or false, leaves
    user, password, counter, nonce and cache alone. *)
Theorem step2_failure_keeps_secrets icu crypto_hmac crypto_hash md5
    sizeof_salt scram inbuf inbuflen outbuf outbufmax outbuflen error r :
  _mongoc_scram_step2 icu crypto_hmac crypto_hash md5 sizeof_salt scram
    inbuf inbuflen outbuf outbufmax outbuflen error = Some r ->
  (rval r = false ->
   session_presecrets (scram_out r) = session_presecrets scram
   /\ session_secrets (scram_out r) = session_secrets scram)
  /\ session_identity (scram_out r) = session_identity scram
  /\ cache (scram_out r) = cache scram
  /\ encoded_nonce (scram_out r) = encoded_nonce scram
  /\ encoded_nonce_len (scram_out r) = encoded_nonce_len scram.
Proof.
  intros H.
  destruct (step2_frame _ _ _ _ _ _ _ _ _ _ _ _ _ H) as [I [C [N [F _]]]].
  inversion N. repeat split; try assumption; now apply F.
Qed.

Section Step2Incomplete.

Variable icu : option sasl_prep_tables.
Variable crypto_hmac :
  mongoc_crypto_hash_algorithm_t -> list byte -> list byte -> list byte.
Variable crypto_hash :
  mongoc_crypto_hash_algorithm_t -> list byte -> list byte.
Variable _mongoc_hex_md5 : list byte -> list byte.
Variable MONGOC_SCRAM_B64_HASH_MAX_SIZE : Z.
Variables (scram : mongoc_scram_t) (outbuf : list byte).
Variables (outbufmax outbuflen : Z).
Variable error : option bson_error_t.
Variables (hashed_pw more : list byte) (l : list (byte * list byte)).
Variable e1 : option bson_error_t.

Let text := attributes_text l.

Hypothesis outbufmax_nonzero : outbufmax <> 0.
Hypothesis password_ok :
  step2_hashed_password icu _mongoc_hex_md5 scram error
  = Some (Some hashed_pw, e1).
Hypothesis attributes :
  Forall (fun kv => step2_key (fst kv) /\ no_comma (snd kv)) l.
Hypothesis auth_ok :
  auth_messagelen scram = Z.of_nat (length (auth_message scram)).
Hypothesis auth_room :
  Z.of_nat (length (auth_message scram)) + Z.of_nat (length text) + 1
  < auth_messagemax scram.
Hypothesis auth_size : auth_messagemax scram <= 2147483647.

(** X24: A server-first message that lacks one of the attributes [r], [s] and
    [i] (the empty message among them) makes step 2 return false with the
    protocol error "no r param", "no s param" or "no i param", the first that
    is missing in this order. The message has been appended to [auth_message]
    by then; the output buffer and its cursor are untouched. *)
Theorem step2_rejects_missing_attribute :
  last_value "r" l = None \/ last_value "s" l = None
  \/ last_value "i" l = None ->
  _mongoc_scram_step2 icu crypto_hmac crypto_hash _mongoc_hex_md5
    MONGOC_SCRAM_B64_HASH_MAX_SIZE scram (attributes_text l ++ more)
    (Z.of_nat (length (attributes_text l))) outbuf outbufmax outbuflen error
  = returns false
      (with_auth_message scram
         (auth_message scram ++ attributes_text l ++ lit ",")
         (auth_messagemax scram)
         (Z.of_nat (length (auth_message scram))
          + Z.of_nat (length (attributes_text l)) + 1))
      outbuf outbuflen
      (protocol_error e1
         (match last_value "r" l, last_value "s" l with
          | None, _ => "SCRAM Failure: no r param in sasl step 2"
          | Some _, None => "SCRAM Failure: no s param in sasl step 2"
          | Some _, Some _ => "SCRAM Failure: no i param in sasl step 2"
          end)).
Proof.
  intros Hmiss. fold text.
  unfold _mongoc_scram_step2.
  destruct (Z.eqb_spec outbufmax 0); [contradiction|].
  rewrite password_ok. cbv zeta.
  rewrite auth_ok. rewrite (to_int32_small (Z.of_nat (length text))) by lia.
  pose proof (buf_write_appends (text ++ more) (Z.of_nat (length text))
                (auth_message scram) (auth_messagemax scram)) as A.
  assert (W : write_len (text ++ more) (Z.of_nat (length text))
              = Z.of_nat (length text)).
  { unfold write_len. destruct (Z.ltb_spec (Z.of_nat (length text)) 0);
      [lia|reflexivity]. }
  cbv zeta in A. rewrite W in A.
  rewrite A by (rewrite ?length_app; lia). clear A W.
  rewrite Nat2Z.id, firstn_app, Nat.sub_diag, firstn_all. simpl firstn.
  rewrite app_nil_r.
  set (a1 := auth_message scram ++ text).
  replace (Z.of_nat (length (auth_message scram)) + Z.of_nat (length text))
    with (Z.of_nat (length a1)) by (unfold a1; rewrite length_app; lia).
  simpl auth_message. simpl auth_messagemax. simpl auth_messagelen.
  rewrite (buf_write_lit ",")
    by first [ apply no_nul_lit_cases
             | unfold a1; rewrite ?length_app;
               change (length (lit ",")) with 1%nat; lia ].
  unfold text at 1 2. rewrite (step2_parse_attributes _ l) by
    (exact attributes || (pose proof (attributes_text_length l); lia)).
  rewrite step2_set_fold. cbn [val_r val_s val_i].
  assert (Er : fold_left
                 (fun acc kv =>
                    if Byte.eqb (fst kv) "r"%byte then Some (snd kv)
                    else acc) l None = last_value "r" l) by reflexivity.
  assert (Es : fold_left
                 (fun acc kv =>
                    if Byte.eqb (fst kv) "r"%byte then acc
                    else if Byte.eqb (fst kv) "s"%byte then Some (snd kv)
                         else acc) l None = last_value "s" l).
  { unfold last_value. apply fold_left_ext_in. intros a [k x] Hin.
    cbn [fst snd]. pose proof attributes as Ha.
    rewrite Forall_forall in Ha. destruct (Ha _ Hin) as [Hk _].
    cbn [fst] in Hk. destruct Hk as [-> | [-> | ->]]; reflexivity. }
  assert (Ei : fold_left
                 (fun acc kv =>
                    if Byte.eqb (fst kv) "r"%byte then acc
                    else if Byte.eqb (fst kv) "s"%byte then acc
                         else Some (snd kv)) l None = last_value "i" l).
  { unfold last_value. apply fold_left_ext_in. intros a [k x] Hin.
    cbn [fst snd]. pose proof attributes as Ha.
    rewrite Forall_forall in Ha. destruct (Ha _ Hin) as [Hk _].
    cbn [fst] in Hk. destruct Hk as [-> | [-> | ->]]; reflexivity. }
  rewrite Er, Es, Ei.
  assert (El : Z.of_nat (length a1) + Z.of_nat (length (lit ","))
               = Z.of_nat (length (auth_message scram))
                 + Z.of_nat (length text) + 1).
  { unfold a1. rewrite length_app. change (length (lit ",")) with 1%nat. lia. }
  rewrite El. unfold a1. rewrite <- app_assoc.
  replace (Z.of_nat (length (auth_message scram ++ text)) + 1)
    with (Z.of_nat (length (auth_message scram))
          + Z.of_nat (length text) + 1) by (rewrite length_app; lia).
  destruct (last_value "r" l); [|reflexivity].
  destruct (last_value "s" l); [|reflexivity].
  destruct (last_value "i" l); [|reflexivity].
  destruct Hmiss as [C|[C|C]]; discriminate.
Qed.

End Step2Incomplete.

(** ** A new session *)

(** X25: The first call of [_mongoc_scram_step] on a session that was set up
    with [_mongoc_scram_init], [_mongoc_scram_set_user] (a user other than
    NULL) and [_mongoc_scram_set_pass], with the cursor at 0 and room in the
    buffer, returns true when the random draw and the encoding of the nonce
    succeed: the counter is 1, [outbuf] holds the client-first message for the
    user, whatever it held before, and [auth_message] holds the message
    without its header [n,,], followed by a comma. *)
Theorem first_step_of_new_session icu crypto_hmac crypto_hash md5 rand
    sizeof_salt sizeof_encoded_nonce algo usr pw nonce text inbuf inbuflen
    outbuf outbufmax error :
  let msg :=
    lit "n,,n=" ++ spec_escape_user (c_str usr) ++ lit ",r=" ++ text in
  let s0 :=
    _mongoc_scram_set_pass
      (_mongoc_scram_set_user
         (_mongoc_scram_init sizeof_salt sizeof_encoded_nonce algo)
         (Some usr))
      pw in
  rand 24 = Some nonce ->
  mcommon_b64_ntop nonce 24 sizeof_encoded_nonce = Some text ->
  Z.of_nat (length msg) < outbufmax ->
  outbufmax <= 4294967295 ->
  Z.of_nat (length msg) <= 2147483647 ->
  exists r,
    _mongoc_scram_step icu crypto_hmac crypto_hash md5 rand sizeof_salt
      sizeof_encoded_nonce s0 inbuf inbuflen outbuf outbufmax 0 error
    = Some r
    /\ rval r = true
    /\ step (scram_out r) = 1
    /\ outbuf_out r = msg
    /\ outbuflen_out r = Z.of_nat (length msg)
    /\ error_out r = error
    /\ auth_message (scram_out r)
       = lit "n=" ++ spec_escape_user (c_str usr) ++ lit ",r=" ++ text
         ++ lit ","
    /\ encoded_nonce (scram_out r) = text.
Proof.
  cbv zeta. intros Hr He Hroom Hmax Hint.
  unfold _mongoc_scram_step. cbv zeta.
  change (step (with_step _ _) =? 1) with true. cbv iota.
  match goal with
  | |- context [_mongoc_scram_start _ _ ?s1 _ _ _ _] =>
      rewrite (scram_start_at_cursor rand sizeof_encoded_nonce s1 outbuf
                 outbufmax 0 error (c_str usr) nonce text eq_refl Hr He
                 eq_refl)
  end;
    rewrite ?c_str_idem;
    try first [ lia
              | split; lia
              | change (firstn (Z.to_nat 0) outbuf) with (@nil byte);
                unfold spec_client_first; cbn [app]; lia ].
  eexists. split; [reflexivity|].
  cbn [rval scram_out outbuf_out outbuflen_out error_out step auth_message
       encoded_nonce with_auth_message with_encoded_nonce with_step].
  change (firstn (Z.to_nat 0) outbuf) with (@nil byte).
  unfold spec_client_first. cbn [app].
  repeat split; try reflexivity.
  match goal with
  | |- context [skipn 3 (lit "n,,n=" ++ ?X)] =>
      change (skipn 3 (lit "n,,n=" ++ X)) with (lit "n=" ++ X)
  end.
  rewrite <- !app_assoc. reflexivity.
Qed.

(** ** A conversation with a server that follows the protocol *)

(** The salted password that step 2 derives, as in the theorem on
    [_mongoc_scram_salt_password]: the XOR of [U 1] to [U c]. *)
Lemma salt_password_Hi crypto_hmac scram password c salt salt_len fuel :
  (forall k d,
     length (crypto_hmac (algorithm scram) k d)
     = Z.to_nat (_scram_hash_size scram)) ->
  salt_len = _scram_hash_size scram - 4 ->
  0 <= salt_len <= Z.of_nat (length salt) ->
  1 <= c < 4294967295 ->
  (Z.to_nat c <= fuel)%nat ->
  exists sp,
    _mongoc_scram_salt_password crypto_hmac fuel scram password
      (Z.of_nat (length password)) salt salt_len c
    = Some (with_secrets scram (client_key scram) (server_key scram) sp)
    /\ firstn (Z.to_nat (_scram_hash_size scram)) sp
       = spec_Hi (crypto_hmac (algorithm scram)) password
           (firstn (Z.to_nat salt_len) salt) (Z.to_nat c)
    /\ skipn (Z.to_nat (_scram_hash_size scram)) sp
       = skipn (Z.to_nat (_scram_hash_size scram)) (salted_password scram).
Proof.
  intros hmac_length Hsl Hsalt Hc Hfuel. unfold _mongoc_scram_salt_password.
  set (hs := Z.to_nat (_scram_hash_size scram)) in *.
  set (HMAC := crypto_hmac (algorithm scram)) in *.
  set (block := firstn (Z.to_nat salt_len) salt
                ++ [Byte.x00; Byte.x00; Byte.x00; Byte.x01]).
  assert (Lb : length block = hs).
  { unfold block. rewrite length_app, length_firstn. simpl. subst hs. lia. }
  assert (E1 : mongoc_crypto_hmac crypto_hmac scram password
                 (Z.of_nat (length password)) block (_scram_hash_size scram)
                 (salted_password scram)
               = HMAC password block
                 ++ skipn hs (salted_password scram)).
  { unfold mongoc_crypto_hmac, memcpy. rewrite !Nat2Z.id. fold hs HMAC.
    rewrite (firstn_all2 password) by lia.
    rewrite (firstn_all2 block) by lia.
    rewrite firstn_all2 by lia.
    now rewrite hmac_length. }
  assert (Fh : forall rest,
             firstn hs (HMAC password block ++ rest) = HMAC password block).
  { intros rest. rewrite firstn_app, hmac_length, Nat.sub_diag.
    rewrite firstn_all2 by (rewrite hmac_length; lia).
    simpl. apply app_nil_r. }
  rewrite E1. fold hs. rewrite Fh.
  destruct (salt_password_loop_spec crypto_hmac scram password c
              hmac_length (firstn (Z.to_nat salt_len) salt)
              (Z.to_nat c - 1) fuel 2
              (HMAC password block ++ skipn hs (salted_password scram))
              (HMAC password block)) as [o' [L1 [L2 L3]]]; try lia.
  - reflexivity.
  - rewrite length_app, hmac_length. fold hs. lia.
  - change (Z.of_nat 2) with 2 in L1. rewrite L1.
    exists o'. split; [reflexivity|]. fold hs in L2, L3. split.
    + rewrite L2, Fh. reflexivity.
    + rewrite L3, skipn_app, hmac_length, Nat.sub_diag.
      rewrite skipn_all2 by (rewrite hmac_length; lia). reflexivity.
Qed.

Lemma step2_hashed_password_ext icu md5 s s' error :
  user s' = user s -> pass s' = pass s -> algorithm s' = algorithm s ->
  step2_hashed_password icu md5 s' error
  = step2_hashed_password icu md5 s error.
Proof.
  intros U P A. unfold step2_hashed_password. now rewrite U, P, A.
Qed.

(** A base64 text holds no comma. *)
Lemma B64_enc_no_comma z : B64.enc z <> ","%byte.
Proof.
  unfold B64.enc, byte_at.
  destruct (Nat.lt_ge_cases (Z.to_nat z) 64) as [L|G].
  - assert (F : Forall (fun b => b <> ","%byte) B64.Base64)
      by (repeat constructor; discriminate).
    rewrite Forall_forall in F. apply F. apply nth_In. exact L.
  - rewrite nth_overflow by exact G. discriminate.
Qed.

Lemma B64_encode_no_comma : forall n l,
  (length l <= n)%nat -> no_comma (B64.encode l).
Proof.
  unfold no_comma.
  induction n as [n IH] using lt_wf_ind. intros l Hl.
  destruct l as [|a [|b [|c r]]]; cbn [B64.encode].
  - intros [].
  - intros [H|[H|[H|[H|[]]]]]; try (now apply B64_enc_no_comma in H);
      discriminate.
  - intros [H|[H|[H|[H|[]]]]]; try (now apply B64_enc_no_comma in H);
      discriminate.
  - intros [H|[H|[H|[H|H]]]]; try (now apply B64_enc_no_comma in H).
    apply (IH (length r)) in H; [exact H | simpl in Hl; lia | lia].
Qed.

Lemma nonce_check_prefix scram text snonce e :
  encoded_nonce scram = text ->
  encoded_nonce_len scram = Z.of_nat (length text) ->
  nonce_check scram (text ++ snonce) e = e.
Proof.
  intros E L. unfold nonce_check. rewrite E, L.
  destruct (Z.ltb_spec (Z.of_nat (length (text ++ snonce)))
              (Z.of_nat (length text))) as [C|_];
    [rewrite length_app in C; lia|].
  assert (M : mongoc_memcmp (text ++ snonce) text (Z.of_nat (length text))
              = 0).
  { unfold mongoc_memcmp. set (d := fold_left _ _ _).
    assert (D : d = 0).
    { unfold d. apply memcmp_fold; [lia|]. split; [reflexivity|].
      intros i Hi. apply in_seq in Hi. unfold byte_at.
      apply app_nth1. lia. }
    now rewrite D. }
  rewrite M. reflexivity.
Qed.

Lemma xor_proof_prefix hs ck rest sig :
  (hs <= length ck)%nat ->
  xor_proof hs (ck ++ rest) sig = xor_proof hs ck sig.
Proof.
  intros H. unfold xor_proof. apply map_ext_in. intros i Hi.
  apply in_seq in Hi. f_equal. unfold byte_at. apply app_nth1. lia.
Qed.

Lemma strlen_no_nul l : no_nul l -> strlen l = Z.of_nat (length l).
Proof.
  intros H. unfold strlen. f_equal. f_equal.
  induction H as [|b l Hb Hl IH]; [reflexivity|].
  cbn [c_str]. destruct (Byte.eqb b Byte.x00) eqn:E.
  - apply Byte.byte_dec_bl in E. contradiction.
  - cbn [length]. now f_equal.
Qed.

Section HonestServer.

Variable icu : option sasl_prep_tables.
Variable crypto_hmac :
  mongoc_crypto_hash_algorithm_t -> list byte -> list byte -> list byte.
Variable crypto_hash :
  mongoc_crypto_hash_algorithm_t -> list byte -> list byte.
Variable _mongoc_hex_md5 : list byte -> list byte.
Variable _mongoc_rand_bytes : Z -> option (list byte).
Variable MONGOC_SCRAM_B64_HASH_MAX_SIZE : Z.
Variable sizeof_encoded_nonce : Z.
Variable algo : mongoc_crypto_hash_algorithm_t.
Variables (usr : list byte) (pw : option (list byte)).
Variables (nonce text hashed_pw snonce s salt i tmp : list byte) (c : Z).
Variable outbufmax : Z.
Variables (in1 more2 more3 out1 out2 out3 : list byte).
Variables (inlen1 len2 len3 : Z).
Variables error1 error2 error3 : option bson_error_t.

Let session0 :=
  _mongoc_scram_set_pass
    (_mongoc_scram_set_user
       (_mongoc_scram_init MONGOC_SCRAM_B64_HASH_MAX_SIZE
          sizeof_encoded_nonce algo)
       (Some usr))
    pw.
Let hs := Z.to_nat (_scram_hash_size session0).
Let HMAC := crypto_hmac algo.
Let H := crypto_hash algo.
Let scram_step :=
  _mongoc_scram_step icu crypto_hmac crypto_hash _mongoc_hex_md5
    _mongoc_rand_bytes MONGOC_SCRAM_B64_HASH_MAX_SIZE sizeof_encoded_nonce.

(** The messages of the conversation and the keys of RFC 5802. *)
Let client_first :=
  lit "n,,n=" ++ spec_escape_user (c_str usr) ++ lit ",r=" ++ text.
Let r := text ++ snonce.
Let server_first := lit "r=" ++ r ++ lit ",s=" ++ s ++ lit ",i=" ++ i.
Let AuthMessage :=
  lit "n=" ++ spec_escape_user (c_str usr) ++ lit ",r=" ++ text ++ lit ","
  ++ server_first ++ lit "," ++ lit "c=biws,r=" ++ r.
Let SaltedPassword := spec_Hi HMAC hashed_pw salt (Z.to_nat c).
Let ClientKey := HMAC SaltedPassword (lit "Client Key").
Let StoredKey := firstn hs (H ClientKey).
Let ClientSignature := HMAC StoredKey AuthMessage.
Let ClientProof := xor_proof hs ClientKey ClientSignature.
Let ServerKey := HMAC SaltedPassword (lit "Server Key").
Let ServerSignature := HMAC ServerKey AuthMessage.
Let client_final :=
  lit "c=biws,r=" ++ r ++ lit ",p=" ++ B64.encode ClientProof.
Let server_final := lit "v=" ++ B64.encode ServerSignature.

Hypothesis random_ok : _mongoc_rand_bytes 24 = Some nonce.
Hypothesis encoded_ok :
  mcommon_b64_ntop nonce 24 sizeof_encoded_nonce = Some text.
Hypothesis password_ok :
  forall e,
    step2_hashed_password icu _mongoc_hex_md5 session0 e
    = Some (Some hashed_pw, e).
Hypothesis password_text :
  no_nul hashed_pw /\ Z.of_nat (length hashed_pw) < 4294967296.
Hypothesis hmac_length : forall k d, length (HMAC k d) = hs.
Hypothesis server_values : no_comma snonce /\ no_comma s /\ no_comma i.
Hypothesis salt_ok :
  mcommon_b64_pton s MONGOC_SCRAM_B64_HASH_MAX_SIZE = Some salt
  /\ Z.of_nat (length salt) = _scram_hash_size session0 - 4.
Hypothesis iterations_ok :
  bson_ascii_strtoll i = (c, tmp) /\ byte_at tmp 0 = Byte.x00
  /\ 4096 <= c <= 2147483647.
Hypothesis room :
  Z.of_nat (length AuthMessage) < outbufmax
  /\ 12 + Z.of_nat (length r) + b64_digest_length session0 < outbufmax
  /\ outbufmax <= 2147483647.
Hypothesis b64_size :
  b64_digest_length session0 < MONGOC_SCRAM_B64_HASH_MAX_SIZE <= 4294967296.

(** The session between the calls. *)
Let session1 :=
  with_auth_message
    (with_encoded_nonce (with_step session0 1) text
       (Z.of_nat (length text)))
    (skipn 3 client_first ++ lit ",") outbufmax
    (Z.of_nat (length client_first) - 2).

Lemma honest_lengths :
  length AuthMessage
  = (length client_first - 3 + 1 + length server_first + 10 + length r)%nat
  /\ (5 <= length client_first)%nat
  /\ length client_final
     = (12 + length r + Z.to_nat (b64_digest_length session0))%nat
  /\ 0 <= b64_digest_length session0.
Proof.
  unfold AuthMessage, client_first, client_final.
  rewrite !length_app.
  pose proof (b64_proof_length session0 ClientKey ClientSignature) as L.
  fold hs in L. fold ClientProof in L. rewrite <- L, Nat2Z.id.
  cbn [length lit]. simpl length. lia.
Qed.

Lemma honest_step1 :
  scram_step session0 in1 inlen1 out1 outbufmax 0 error1
  = returns true session1 client_first (Z.of_nat (length client_first))
      error1.
Proof.
  destruct honest_lengths as [La [Lc [Lf Dpos]]]. destruct room as [R1 [R2 R3]].
  unfold scram_step, _mongoc_scram_step. cbv zeta.
  change (step (with_step session0 (step session0 + 1)) =? 1) with true.
  cbv iota.
  rewrite (scram_start_at_cursor _mongoc_rand_bytes sizeof_encoded_nonce
             (with_step session0 (step session0 + 1)) out1 outbufmax 0
             error1 (c_str usr) nonce text eq_refl random_ok encoded_ok
             eq_refl);
    rewrite ?c_str_idem;
    change (firstn (Z.to_nat 0) out1) with (@nil byte);
    unfold spec_client_first; cbn [app]; fold client_first;
    try lia.
  reflexivity.
Qed.

Lemma honest_text_no_comma : no_comma text.
Proof.
  pose proof encoded_ok as E. unfold mcommon_b64_ntop in E.
  destruct (_ <? _) in E; [|discriminate]. inversion E.
  apply (B64_encode_no_comma _ _ (le_n _)).
Qed.

Lemma honest_server_first :
  server_first
  = attributes_text [("r"%byte, r); ("s"%byte, s); ("i"%byte, i)].
Proof.
  unfold server_first. cbn [attributes_text lit].
  rewrite app_nil_r. reflexivity.
Qed.

Let session2 (sp : list byte) : mongoc_scram_t :=
  let s3 :=
    step2_saved MONGOC_SCRAM_B64_HASH_MAX_SIZE (with_step session1 2)
      server_first r hashed_pw salt c in
  let s4 := with_secrets s3 (client_key s3) (server_key s3) sp in
  with_secrets s4 (proof_client_key crypto_hmac s4) (server_key s4)
    (salted_password s4).

Lemma honest_auth_message sp :
  auth_message (session2 sp) = AuthMessage
  /\ auth_messagelen (session2 sp) = Z.of_nat (length AuthMessage).
Proof.
  assert (Ea : auth_message (session2 sp) = AuthMessage).
  { cbn [auth_message session2 with_secrets step2_saved with_presecrets
         with_auth_message].
    unfold step2_auth_message.
    cbn [auth_message with_step session1 with_auth_message].
    change (skipn 3 client_first)
      with (lit "n=" ++ spec_escape_user (c_str usr) ++ lit ",r=" ++ text).
    unfold AuthMessage. rewrite <- !app_assoc. reflexivity. }
  split; [exact Ea|]. rewrite <- Ea. reflexivity.
Qed.

Lemma honest_step2 :
  exists sp,
    firstn hs sp = SaltedPassword
    /\ scram_step session1 (server_first ++ more2)
         (Z.of_nat (length server_first)) out2 outbufmax len2 error2
       = returns true (session2 sp) client_final
           (Z.of_nat (length client_final)) error2.
Proof.
  destruct honest_lengths as [La [Lc [Lf Dpos]]]. destruct room as [R1 [R2 R3]].
  destruct server_values as [N1 [N2 N3]].
  destruct salt_ok as [S1 S2]. destruct iterations_ok as [I1 [I2 I3]].
  destruct password_text as [P1 P2].
  unfold scram_step, _mongoc_scram_step. cbv zeta.
  change (with_step session1 (step session1 + 1))
    with (with_step session1 2).
  change (step (with_step session1 2) =? 1) with false.
  change (step (with_step session1 2) =? 2) with true. cbv iota.
  assert (Hpw : step2_hashed_password icu _mongoc_hex_md5
                  (with_step session1 2) error2
                = Some (Some hashed_pw, error2)).
  { rewrite <- (password_ok error2).
    apply step2_hashed_password_ext; reflexivity. }
  assert (Hmsg : firstn (Z.to_nat (Z.of_nat (length server_first)))
                   (server_first ++ more2) = server_first).
  { rewrite Nat2Z.id, firstn_app, Nat.sub_diag, firstn_all, firstn_O.
    apply app_nil_r. }
  rewrite (step2_valid_fields icu crypto_hmac crypto_hash _mongoc_hex_md5
             MONGOC_SCRAM_B64_HASH_MAX_SIZE (with_step session1 2)
             (server_first ++ more2) (Z.of_nat (length server_first)) out2
             outbufmax len2 error2 hashed_pw r s i salt tmp c error2 Hpw).
  all: rewrite ?Hmsg.
  2:{ rewrite length_app. lia. }
  2:{ rewrite honest_server_first. rewrite step2_parse_attributes.
      - reflexivity.
      - assert (Nr : no_comma r).
        { unfold no_comma, r. rewrite in_app_iff.
          pose proof honest_text_no_comma. unfold no_comma in *. tauto. }
        unfold step2_key.
        repeat (constructor; [cbn [fst snd]; split; [tauto | assumption]|]).
        constructor.
      - pose proof (attributes_text_length
                      [("r"%byte, r); ("s"%byte, s); ("i"%byte, i)]) as Lx.
        simpl length in Lx. simpl length. lia. }
  2:{ cbn [auth_messagelen auth_message with_step session1
           with_auth_message].
      rewrite length_app, length_skipn. cbn [length lit]. simpl length.
      lia. }
  2:{ cbn [auth_messagemax auth_message with_step session1
           with_auth_message].
      rewrite length_app, length_skipn. simpl (length (lit ",")). lia. }
  2:{ lia. }
  2:{ cbn [auth_messagemax with_step session1 with_auth_message]. lia. }
  2:{ change (_scram_hash_size (with_step session1 2))
        with (_scram_hash_size session0). repeat split; try assumption.
      lia. }
  2:{ rewrite to_int32_small by lia. repeat split; try assumption. lia. }
  cbv zeta.
  rewrite (to_int32_small c) by lia.
  change (step2_cached MONGOC_SCRAM_B64_HASH_MAX_SIZE
            (step2_saved MONGOC_SCRAM_B64_HASH_MAX_SIZE
               (with_step session1 2) server_first r hashed_pw salt c))
    with (step2_saved MONGOC_SCRAM_B64_HASH_MAX_SIZE
            (with_step session1 2) server_first r hashed_pw salt c).
  set (s3 := step2_saved _ _ _ _ _ _ _).
  change (first_is_zero (salted_password s3)) with true. cbv iota.
  rewrite (strlen_no_nul _ P1), to_uint32_small by lia.
  assert (Lm : memcpy (zeros MONGOC_SCRAM_B64_HASH_MAX_SIZE) salt
                 (Z.of_nat (length salt))
               = salt ++ skipn (length salt)
                           (zeros MONGOC_SCRAM_B64_HASH_MAX_SIZE)).
  { unfold memcpy. now rewrite Nat2Z.id, firstn_all. }
  destruct (salt_password_Hi crypto_hmac s3 hashed_pw c
              (memcpy (zeros MONGOC_SCRAM_B64_HASH_MAX_SIZE) salt
                 (Z.of_nat (length salt)))
              (Z.of_nat (length salt)) (Z.to_nat c))
    as [sp [E [F _]]].
  { exact hmac_length. }
  { exact S2. }
  { rewrite Lm, length_app. lia. }
  { lia. }
  { apply le_n. }
  rewrite Lm, Nat2Z.id, firstn_app, Nat.sub_diag, firstn_all, firstn_O,
    app_nil_r in F.
  change (Z.to_nat (_scram_hash_size s3)) with hs in F.
  change (crypto_hmac (algorithm s3)) with HMAC in F.
  fold SaltedPassword in F.
  exists sp. split; [exact F|]. rewrite E.
  set (s4 := with_secrets s3 (client_key s3) (server_key s3) sp).
  rewrite generate_client_proof_eq. cbv zeta.
  change (b64_digest_length s4) with (b64_digest_length session0).
  rewrite (to_uint32_small (outbufmax - _)) by lia.
  destruct (Z.ltb_spec (b64_digest_length session0)
              (outbufmax - (12 + Z.of_nat (length r)))); [|lia].
  change (nonce_check (with_step session1 2) r error2)
    with (nonce_check (with_step session1 2) (text ++ snonce) error2).
  rewrite nonce_check_prefix by reflexivity.
  assert (Ea : auth_message s4 = AuthMessage)
    by exact (proj1 (honest_auth_message sp)).
  assert (El : auth_messagelen s4 = Z.of_nat (length AuthMessage))
    by exact (proj2 (honest_auth_message sp)).
  assert (Ek : proof_client_key crypto_hmac s4
               = ClientKey ++ skipn hs (zeros sizeof_key)).
  { unfold proof_client_key.
    change (first_is_zero (client_key s4)) with true. cbv iota.
    unfold mongoc_crypto_hmac, memcpy.
    change (salted_password s4) with sp.
    change (Z.to_nat (_scram_hash_size s4)) with hs. rewrite F.
    change (firstn (Z.to_nat (strlen MONGOC_SCRAM_CLIENT_KEY))
              MONGOC_SCRAM_CLIENT_KEY) with (lit "Client Key").
    change (crypto_hmac (algorithm s4)) with HMAC. fold ClientKey.
    rewrite Nat2Z.id, firstn_all. unfold ClientKey at 2.
    rewrite hmac_length. reflexivity. }
  assert (Ep : proof_text crypto_hmac crypto_hash s4
               = B64.encode ClientProof).
  { unfold proof_text, proof_client_signature. rewrite Ek, Ea, El.
    change (Z.to_nat (_scram_hash_size s4)) with hs.
    change (crypto_hmac (algorithm s4)) with HMAC.
    change (crypto_hash (algorithm s4)) with H.
    rewrite Nat2Z.id, firstn_all.
    rewrite xor_proof_prefix by (unfold ClientKey; rewrite hmac_length; lia).
    rewrite firstn_app.
    replace (hs - length ClientKey)%nat with 0%nat
      by (unfold ClientKey; rewrite hmac_length; lia).
    rewrite firstn_O, app_nil_r.
    rewrite (firstn_all2 ClientKey)
      by (unfold ClientKey; rewrite hmac_length; lia).
    reflexivity. }
  rewrite Ep.
  replace (Z.to_nat (12 + Z.of_nat (length r)))
    with (length (lit "c=biws,r=" ++ r ++ lit ",p="))
    by (rewrite !length_app; simpl length; lia).
  rewrite firstn_all, <- !app_assoc. fold client_final.
  rewrite to_uint32_small by lia.
  replace (12 + Z.of_nat (length r) + b64_digest_length session0)
    with (Z.of_nat (length client_final)) by lia.
  reflexivity.
Qed.

Lemma honest_step3 sp :
  firstn hs sp = SaltedPassword ->
  exists r3,
    scram_step (session2 sp) (server_final ++ more3)
      (Z.of_nat (length server_final)) out3 outbufmax len3 error3 = Some r3
    /\ rval r3 = true /\ error_out r3 = error3.
Proof.
  intros F. destruct honest_lengths as [La [Lc [Lf Dpos]]].
  destruct room as [R1 [R2 R3]].
  destruct (honest_auth_message sp) as [Ea El].
  unfold scram_step, _mongoc_scram_step. cbv zeta.
  change (with_step (session2 sp) (step (session2 sp) + 1))
    with (with_step (session2 sp) 3).
  set (s3 := with_step (session2 sp) 3).
  change (step s3 =? 1) with false. change (step s3 =? 2) with false.
  change (step s3 =? 3) with true. cbv iota.
  unfold _mongoc_scram_step3.
  destruct (Z.eqb_spec outbufmax 0); [lia|]. cbv zeta.
  rewrite Nat2Z.id, firstn_app, Nat.sub_diag, firstn_all, firstn_O,
    app_nil_r.
  assert (Ev : server_final
               = attributes_text [("v"%byte, B64.encode ServerSignature)]).
  { unfold server_final. cbn [attributes_text]. rewrite app_nil_r.
    reflexivity. }
  rewrite Ev.
  rewrite step3_parse_message.
  2:{ constructor; [|constructor]. cbn [fst snd]. split.
      - right. reflexivity.
      - apply (B64_encode_no_comma _ _ (le_n _)). }
  cbn [val_e val_v last_value fold_left fst snd]. 
  change (Byte.eqb "v"%byte "e"%byte) with false.
  change (Byte.eqb "v"%byte "v"%byte) with true. cbv iota.
  pose proof (verify_server_signature_spec crypto_hmac
                MONGOC_SCRAM_B64_HASH_MAX_SIZE s3 hmac_length
                (or_introl eq_refl) (proj2 b64_size)
                (B64.encode ServerSignature)) as V.
  assert (Es : spec_server_signature crypto_hmac s3 = ServerSignature).
  { unfold spec_server_signature, spec_server_key.
    change (auth_message s3) with (auth_message (session2 sp)).
    change (auth_messagelen s3) with (auth_messagelen (session2 sp)).
    rewrite Ea, El, Nat2Z.id, firstn_all.
    change (salted_password s3) with sp.
    change (Z.to_nat (_scram_hash_size s3)) with hs. rewrite F.
    reflexivity. }
  assert (Ok : fst (_mongoc_scram_verify_server_signature crypto_hmac
                      MONGOC_SCRAM_B64_HASH_MAX_SIZE s3
                      (B64.encode ServerSignature)
                      (Z.of_nat (length (B64.encode ServerSignature))))
               = true).
  { apply V. rewrite Es. unfold mcommon_b64_ntop.
    change (Z.to_nat (_scram_hash_size s3)) with hs.
    rewrite (firstn_all2 ServerSignature)
      by (unfold ServerSignature; rewrite hmac_length; lia).
    assert (L : Z.of_nat (length (B64.encode ServerSignature))
                = b64_digest_length session0).
    { rewrite (B64_encode_length _ _ (le_n _)).
      unfold ServerSignature. rewrite hmac_length.
      unfold hs, b64_digest_length, _scram_hash_size.
      cbn [algorithm session0 _mongoc_scram_set_pass _mongoc_scram_set_user
           _mongoc_scram_init].
      destruct algo; reflexivity. }
    rewrite L. destruct (Z.ltb_spec (b64_digest_length session0)
                           MONGOC_SCRAM_B64_HASH_MAX_SIZE); [reflexivity|].
    lia. }
  destruct (_mongoc_scram_verify_server_signature _ _ _ _ _) as [ok s'].
  cbn [fst] in Ok. subst ok. cbn [negb].
  eexists. split; [reflexivity|]. split; reflexivity.
Qed.

(** X26: A whole conversation. A session set up with [_mongoc_scram_init],
    [_mongoc_scram_set_user] and [_mongoc_scram_set_pass] is stepped three
    times against a server that follows RFC 5802: its first message repeats
    the client nonce in [r] and carries a salt of [hash_size - 4] bytes and a
    count from 4096 to INT32_MAX, and its final message is [v=] + the base64
    text of HMAC(HMAC(SaltedPassword, "Server Key"), AuthMessage), with
    SaltedPassword = Hi(hashed password, salt, count). With a provider whose
    digests have [hash_size] bytes and room in the buffers, the three calls
    return true and set no error, the first leaves the client-first message in
    [outbuf], and the second the client-final message [c=biws,r=] + [r] +
    [,p=] + the base64 text of ClientKey XOR HMAC(H(ClientKey), AuthMessage),
    with ClientKey = HMAC(SaltedPassword, "Client Key"). *)
Theorem conversation_with_honest_server :
  exists r1 r2 r3,
    scram_step session0 in1 inlen1 out1 outbufmax 0 error1 = Some r1
    /\ rval r1 = true /\ error_out r1 = error1
    /\ outbuf_out r1 = client_first
    /\ scram_step (scram_out r1) (server_first ++ more2)
         (Z.of_nat (length server_first)) out2 outbufmax len2 error2
       = Some r2
    /\ rval r2 = true /\ error_out r2 = error2
    /\ outbuf_out r2 = client_final
    /\ scram_step (scram_out r2) (server_final ++ more3)
         (Z.of_nat (length server_final)) out3 outbufmax len3 error3
       = Some r3
    /\ rval r3 = true /\ error_out r3 = error3.
Proof.
  destruct honest_step2 as [sp [F E2]].
  destruct (honest_step3 sp F) as [r3 [E3 [T3 X3]]].
  eexists. eexists. exists r3.
  split; [exact honest_step1|]. cbn [rval error_out outbuf_out scram_out].
  do 3 (split; [reflexivity|]).
  split; [exact E2|]. cbn [rval error_out outbuf_out scram_out].
  do 3 (split; [reflexivity|]).
  split; [exact E3|]. split; assumption.
Qed.

End HonestServer.

(** ** Instances of the theorems of this part *)

Module SampleProvider.

(** Stand-ins for the provider's hash and for [_mongoc_hex_md5]; they are
    no digests and serve only to run the code. *)
Definition xor_hash (alg : mongoc_crypto_hash_algorithm_t)
    (data : list byte) : list byte :=
  Sample.xor_mac alg data (lit "hash").

Definition hex_md5 (l : list byte) : list byte := l.

End SampleProvider.

Lemma scram_start_frame_witness :
  exists r,
    _mongoc_scram_start Sample.rand Sample.NONCE_SIZE Sample.session0 [] 8 0
      None = Some r
    /\ session_presecrets (scram_out r) = session_presecrets Sample.session0
    /\ session_secrets (scram_out r) = session_secrets Sample.session0
    /\ cache (scram_out r) = cache Sample.session0.
Proof.
  assert (E : {r | _mongoc_scram_start Sample.rand Sample.NONCE_SIZE
                     Sample.session0 [] 8 0 None = Some r})
    by (eexists; vm_compute; reflexivity).
  destruct E as [r E]. exists r. split; [exact E|].
  destruct (scram_start_frame Sample.rand Sample.NONCE_SIZE Sample.session0
              [] 8 0 None r E) as [_ [P [S [C _]]]].
  repeat split; assumption.
Defined.

Lemma step3_updates_cache_on_success_witness :
  exists r,
    _mongoc_scram_step3 Sample.xor_mac Sample.B64_HASH_MAX_SIZE
      Sample.session1 SampleFinal.server_final 46 [] 4096 0 None = Some r
    /\ client_key (scram_out r) = client_key Sample.session1
    /\ salted_password (scram_out r) = salted_password Sample.session1.
Proof.
  assert (E : {r | _mongoc_scram_step3 Sample.xor_mac
                     Sample.B64_HASH_MAX_SIZE Sample.session1
                     SampleFinal.server_final 46 [] 4096 0 None = Some r})
    by (eexists; vm_compute; reflexivity).
  destruct E as [r E]. exists r. split; [exact E|].
  destruct (step3_updates_cache_on_success Sample.xor_mac
              Sample.B64_HASH_MAX_SIZE Sample.session1
              SampleFinal.server_final 46 [] 4096 0 None r E)
    as [_ [_ [_ [_ [K S]]]]].
  split; assumption.
Defined.

Lemma scram_step_counts_calls_witness :
  exists r,
    _mongoc_scram_step None Sample.xor_mac SampleProvider.xor_hash
      SampleProvider.hex_md5 Sample.rand Sample.B64_HASH_MAX_SIZE Sample.NONCE_SIZE Sample.session1
      (lit "x") 1 [] 4096 0 None = Some r
    /\ step (scram_out r) = step Sample.session1 + 1
    /\ user (scram_out r) = user Sample.session1.
Proof.
  assert (E : {r | _mongoc_scram_step None Sample.xor_mac
                     SampleProvider.xor_hash SampleProvider.hex_md5
                     Sample.rand Sample.B64_HASH_MAX_SIZE Sample.NONCE_SIZE
                     Sample.session1 (lit "x") 1 [] 4096 0 None = Some r})
    by (eexists; vm_compute; reflexivity).
  destruct E as [r E]. exists r. split; [exact E|].
  destruct (scram_step_counts_calls None Sample.xor_mac
              SampleProvider.xor_hash SampleProvider.hex_md5 Sample.rand
              Sample.B64_HASH_MAX_SIZE Sample.NONCE_SIZE Sample.session1
              (lit "x") 1 [] 4096 0 None r ltac:(vm_compute; reflexivity) E)
    as [S [U _]].
  split; assumption.
Defined.

Lemma scram_step_fourth_call_witness :
  let scram_step :=
    _mongoc_scram_step None Sample.xor_mac SampleProvider.xor_hash
      SampleProvider.hex_md5 Sample.rand Sample.B64_HASH_MAX_SIZE
      Sample.NONCE_SIZE in
  exists r1 r2 r3,
    scram_step Sample.session0 [] 0 [] 4096 0 None = Some r1
    /\ scram_step (scram_out r1) (lit "x") 1 [] 4096 0 None = Some r2
    /\ scram_step (scram_out r2) (lit "y") 1 [] 4096 0 None = Some r3
    /\ option_map rval
         (scram_step (scram_out r3) Sample.server_first 87 [] 4096 0 None)
       = Some false
    /\ option_map outbuf_out
         (scram_step (scram_out r3) Sample.server_first 87 [] 4096 0 None)
       = Some [].
Proof.
  intros scram_step.
  pose (result := fun o : option step_result =>
                    match o with
                    | Some r => r
                    | None =>
                        {| rval := false; scram_out := Sample.session0;
                           outbuf_out := []; outbuflen_out := 0;
                           error_out := None |}
                    end).
  pose (r1 := result (scram_step Sample.session0 [] 0 [] 4096 0 None)).
  pose (r2 := result (scram_step (scram_out r1) (lit "x") 1 [] 4096 0 None)).
  pose (r3 := result (scram_step (scram_out r2) (lit "y") 1 [] 4096 0 None)).
  assert (E1 : scram_step Sample.session0 [] 0 [] 4096 0 None = Some r1)
    by (vm_compute; reflexivity).
  assert (E2 : scram_step (scram_out r1) (lit "x") 1 [] 4096 0 None
               = Some r2)
    by (vm_compute; reflexivity).
  assert (E3 : scram_step (scram_out r2) (lit "y") 1 [] 4096 0 None
               = Some r3)
    by (vm_compute; reflexivity).
  exists r1, r2, r3. split; [exact E1|]. split; [exact E2|].
  split; [exact E3|].
  unfold scram_step.
  rewrite (scram_step_fourth_call None Sample.xor_mac SampleProvider.xor_hash
             SampleProvider.hex_md5 Sample.rand Sample.B64_HASH_MAX_SIZE
             Sample.NONCE_SIZE Sample.session0 r1 r2 r3
             [] 0 [] 4096 0 None (lit "x") 1 [] 4096 0 None
             (lit "y") 1 [] 4096 0 None Sample.server_first 87 [] 4096 0
             None eq_refl E1 E2 E3).
  split; reflexivity.
Defined.

Lemma scram_step_false_sets_error_witness :
  exists r e,
    _mongoc_scram_step None Sample.xor_mac SampleProvider.xor_hash
      SampleProvider.hex_md5 Sample.rand Sample.B64_HASH_MAX_SIZE
      Sample.NONCE_SIZE Sample.session0 [] 0 [] 8 0 None = Some r
    /\ rval r = false
    /\ error_out r = Some e /\ domain e = MONGOC_ERROR_SCRAM.
Proof.
  assert (E : {r | _mongoc_scram_step None Sample.xor_mac
                     SampleProvider.xor_hash SampleProvider.hex_md5
                     Sample.rand Sample.B64_HASH_MAX_SIZE Sample.NONCE_SIZE
                     Sample.session0 [] 0 [] 8 0 None = Some r
                   /\ rval r = false})
    by (eexists; vm_compute; split; reflexivity).
  destruct E as [r [E F]].
  destruct (scram_step_false_sets_error Sample.xor_mac
              SampleProvider.xor_hash SampleProvider.hex_md5 Sample.rand
              Sample.B64_HASH_MAX_SIZE Sample.NONCE_SIZE Sample.session0 []
              0 [] 8 0 None r E F) as [e [Ee [D _]]].
  exists r, e. repeat split; assumption.
Defined.

Lemma step2_failure_keeps_secrets_witness :
  exists r,
    _mongoc_scram_step2 None Sample.xor_mac SampleProvider.xor_hash
      SampleProvider.hex_md5 Sample.B64_HASH_MAX_SIZE
      (with_step Sample.session1 2) Sample.server_first_other_nonce 87 []
      4096 0 None = Some r
    /\ cache (scram_out r) = cache (with_step Sample.session1 2)
    /\ encoded_nonce (scram_out r) = encoded_nonce Sample.session1.
Proof.
  assert (E : {r | _mongoc_scram_step2 None Sample.xor_mac
                     SampleProvider.xor_hash SampleProvider.hex_md5
                     Sample.B64_HASH_MAX_SIZE (with_step Sample.session1 2)
                     Sample.server_first_other_nonce 87 [] 4096 0 None
                   = Some r})
    by (eexists; vm_compute; reflexivity).
  destruct E as [r E]. exists r. split; [exact E|].
  destruct (step2_failure_keeps_secrets None Sample.xor_mac
              SampleProvider.xor_hash SampleProvider.hex_md5
              Sample.B64_HASH_MAX_SIZE (with_step Sample.session1 2)
              Sample.server_first_other_nonce 87 [] 4096 0 None r E)
    as [_ [_ [C [N _]]]].
  split; assumption.
Defined.

Lemma first_step_of_new_session_witness :
  exists r,
    _mongoc_scram_step None Sample.xor_mac SampleProvider.xor_hash
      SampleProvider.hex_md5 Sample.rand Sample.B64_HASH_MAX_SIZE
      Sample.NONCE_SIZE Sample.session0 [] 0 (lit "old text") 4096 0 None
    = Some r
    /\ rval r = true
    /\ outbuf_out r = lit "n,,n=user,r=ZnlrbytkMmxiYkZnT05Sdjlxa3hkYXdM".
Proof.
  destruct (first_step_of_new_session None Sample.xor_mac
              SampleProvider.xor_hash SampleProvider.hex_md5 Sample.rand
              Sample.B64_HASH_MAX_SIZE Sample.NONCE_SIZE
              MONGOC_CRYPTO_ALGORITHM_SHA_256 (lit "user")
              (Some (lit "pencil")) (lit "fyko+d2lbbFgONRv9qkxdawL")
              Sample.encoded_nonce [] 0 (lit "old text") 4096 None
              eq_refl eq_refl ltac:(vm_compute; reflexivity)
              ltac:(vm_compute; discriminate)
              ltac:(vm_compute; discriminate))
    as [r [E [T [_ [O _]]]]].
  exists r. split; [exact E|]. split; [exact T|]. exact O.
Defined.

Lemma step2_writes_client_final_witness :
  exists res,
    _mongoc_scram_step2 None Sample.xor_mac SampleProvider.xor_hash
      SampleProvider.hex_md5 Sample.B64_HASH_MAX_SIZE
      (with_step Sample.session1 2) Sample.server_first 87 [] 4096 0 None
    = Some res
    /\ rval res = true
    /\ outbuflen_out res = 91.
Proof.
  destruct (step2_writes_client_final None Sample.xor_mac
              SampleProvider.xor_hash SampleProvider.hex_md5
              Sample.B64_HASH_MAX_SIZE (with_step Sample.session1 2)
              Sample.server_first 87 [] 4096 0 None
              (lit "pencil") (lit "ZnlrbytkMmxiYkZnT05Sdjlxa3hkYXdMsrv")
              (lit Sample.salt_text) (lit "4096")
              (lit "0123456789abcdefghijklmnopqr") [] 4096 None
              ltac:(by_computation) ltac:(by_computation)
              ltac:(by_computation) ltac:(by_computation)
              ltac:(by_computation) ltac:(by_computation)
              ltac:(by_computation) ltac:(by_computation)
              ltac:(by_computation) ltac:(by_computation))
    as [res [E [T [_ [_ L]]]]].
  exists res. split; [exact E|]. split; [exact T|]. exact L.
Defined.

Lemma step2_ignores_proof_overflow_witness :
  exists res,
    _mongoc_scram_step2 None Sample.xor_mac SampleProvider.xor_hash
      SampleProvider.hex_md5 Sample.B64_HASH_MAX_SIZE
      (with_step Sample.session1 2) Sample.server_first 87 [] 64 0 None
    = Some res
    /\ rval res = true
    /\ outbuf_out res = lit "c=biws,r=ZnlrbytkMmxiYkZnT05Sdjlxa3hkYXdMsrv,p=".
Proof.
  destruct (step2_ignores_proof_overflow None Sample.xor_mac
              SampleProvider.xor_hash SampleProvider.hex_md5
              Sample.B64_HASH_MAX_SIZE (with_step Sample.session1 2)
              Sample.server_first 87 [] 64 0 None
              (lit "pencil") (lit "ZnlrbytkMmxiYkZnT05Sdjlxa3hkYXdMsrv")
              (lit Sample.salt_text) (lit "4096")
              (lit "0123456789abcdefghijklmnopqr") [] 4096 None
              ltac:(by_computation) ltac:(by_computation)
              ltac:(by_computation) ltac:(by_computation)
              ltac:(by_computation) ltac:(by_computation)
              ltac:(by_computation) ltac:(by_computation)
              ltac:(by_computation) ltac:(by_computation))
    as [res [E [T [O _]]]].
  exists res. split; [exact E|]. split; [exact T|]. exact O.
Defined.

Module CacheHitSample.

(** The entry that the sample conversation would leave, with keys that are
    not those of the provider, and the session of step 2 with that entry as
    its cache. *)
Definition entry : mongoc_scram_cache_t :=
  {| cache_hashed_password := Some (lit "pencil");
     cache_decoded_salt :=
       lit "0123456789abcdefghijklmnopqr" ++ repeat Byte.x00 36;
     cache_iterations := 4096;
     cache_client_key := repeat Byte.x02 32;
     cache_server_key := repeat Byte.x03 32;
     cache_salted_password := repeat Byte.x04 32 |}.

Definition session : mongoc_scram_t :=
  with_cache (with_step Sample.session1 2) (Some entry).

End CacheHitSample.

Lemma step2_cache_hit_witness :
  exists res,
    _mongoc_scram_step2 None Sample.xor_mac SampleProvider.xor_hash
      SampleProvider.hex_md5 Sample.B64_HASH_MAX_SIZE CacheHitSample.session
      Sample.server_first 87 [] 4096 0 None
    = Some res
    /\ rval res = true
    /\ salted_password (scram_out res) = repeat Byte.x04 32
    /\ client_key (scram_out res) = repeat Byte.x02 32.
Proof.
  destruct (step2_cache_hit None Sample.xor_mac
              SampleProvider.xor_hash SampleProvider.hex_md5
              Sample.B64_HASH_MAX_SIZE CacheHitSample.session
              Sample.server_first 87 [] 4096 0 None
              (lit "pencil") (lit "ZnlrbytkMmxiYkZnT05Sdjlxa3hkYXdMsrv")
              (lit Sample.salt_text) (lit "4096")
              (lit "0123456789abcdefghijklmnopqr") [] 4096 None
              ltac:(by_computation) ltac:(by_computation)
              ltac:(by_computation) ltac:(by_computation)
              ltac:(by_computation) ltac:(by_computation)
              ltac:(by_computation) ltac:(by_computation)
              ltac:(by_computation)
              CacheHitSample.entry (lit "pencil")
              eq_refl eq_refl eq_refl eq_refl eq_refl eq_refl
              ltac:(by_computation) ltac:(by_computation) eq_refl)
    as [res [E [T [S [_ K]]]]].
  exists res. split; [exact E|]. split; [exact T|]. split; [exact S|].
  exact (K eq_refl).
Defined.

Lemma step2_rejects_bad_salt_witness :
  exists res,
    _mongoc_scram_step2 None Sample.xor_mac SampleProvider.xor_hash
      SampleProvider.hex_md5 Sample.B64_HASH_MAX_SIZE
      (with_step Sample.session1 2)
      (lit "r=ZnlrbytkMmxiYkZnT05Sdjlxa3hkYXdMsrv,s=QUJD,i=4096") 51 [] 4096
      0 None
    = Some res
    /\ rval res = false
    /\ error_out res
       = protocol_error None
           "SCRAM Failure: invalid salt length of 3 in sasl step2".
Proof.
  destruct (step2_rejects_bad_salt None Sample.xor_mac
              SampleProvider.xor_hash SampleProvider.hex_md5
              Sample.B64_HASH_MAX_SIZE (with_step Sample.session1 2)
              (lit "r=ZnlrbytkMmxiYkZnT05Sdjlxa3hkYXdMsrv,s=QUJD,i=4096") 51
              [] 4096 0 None
              (lit "pencil") (lit "ZnlrbytkMmxiYkZnT05Sdjlxa3hkYXdMsrv")
              (lit "QUJD") (lit "4096") None
              ltac:(by_computation) ltac:(by_computation)
              ltac:(by_computation) ltac:(by_computation)
              ltac:(by_computation) ltac:(by_computation)
              ltac:(by_computation))
    as [res [E [_ [B _]]]].
  exists res. split; [exact E|].
  exact (B (lit "ABC") eq_refl ltac:(vm_compute; discriminate)).
Defined.

Lemma step2_rejects_missing_attribute_witness :
  option_map error_out
    (_mongoc_scram_step2 None Sample.xor_mac SampleProvider.xor_hash
       SampleProvider.hex_md5 Sample.B64_HASH_MAX_SIZE
       (with_step Sample.session1 2)
       (lit "r=ZnlrbytkMmxiYkZnT05Sdjlxa3hkYXdMsrv,i=4096") 44 [] 4096 0
       None)
  = Some (protocol_error None "SCRAM Failure: no s param in sasl step 2").
Proof.
  exact (f_equal (option_map error_out)
           (step2_rejects_missing_attribute None Sample.xor_mac
              SampleProvider.xor_hash SampleProvider.hex_md5
              Sample.B64_HASH_MAX_SIZE (with_step Sample.session1 2)
              [] 4096 0 None (lit "pencil") []
              [("r"%byte, lit "ZnlrbytkMmxiYkZnT05Sdjlxa3hkYXdMsrv");
               ("i"%byte, lit "4096")]
              None
              ltac:(discriminate) eq_refl
              ltac:(repeat constructor; cbn; unfold step2_key, no_comma;
                    cbn; intuition discriminate)
              eq_refl ltac:(by_computation) ltac:(by_computation)
              (or_intror (or_introl eq_refl)))).
Defined.

Lemma conversation_with_honest_server_witness :
  exists final r1 r2 r3,
    _mongoc_scram_step None Sample.xor_mac SampleProvider.xor_hash
      SampleProvider.hex_md5 Sample.rand Sample.B64_HASH_MAX_SIZE
      Sample.NONCE_SIZE Sample.session0 [] 0 [] 4096 0 None = Some r1
    /\ rval r1 = true
    /\ _mongoc_scram_step None Sample.xor_mac SampleProvider.xor_hash
         SampleProvider.hex_md5 Sample.rand Sample.B64_HASH_MAX_SIZE
         Sample.NONCE_SIZE (scram_out r1) (Sample.server_first ++ []) 87 []
         4096 0 None = Some r2
    /\ rval r2 = true
    /\ _mongoc_scram_step None Sample.xor_mac SampleProvider.xor_hash
         SampleProvider.hex_md5 Sample.rand Sample.B64_HASH_MAX_SIZE
         Sample.NONCE_SIZE (scram_out r2) (final ++ [])
         (Z.of_nat (length final)) [] 4096 0 None = Some r3
    /\ rval r3 = true.
Proof.
  destruct (conversation_with_honest_server None Sample.xor_mac
              SampleProvider.xor_hash SampleProvider.hex_md5 Sample.rand
              Sample.B64_HASH_MAX_SIZE Sample.NONCE_SIZE
              MONGOC_CRYPTO_ALGORITHM_SHA_256 (lit "user")
              (Some (lit "pencil")) (lit "fyko+d2lbbFgONRv9qkxdawL")
              Sample.encoded_nonce (lit "pencil") (lit "srv")
              (lit Sample.salt_text) (lit "0123456789abcdefghijklmnopqr")
              (lit "4096") [] 4096 4096 [] [] [] [] [] [] 0 0 0 None None
              None
              eq_refl eq_refl (fun e => eq_refl)
              ltac:(split; [repeat constructor; discriminate
                           | vm_compute; reflexivity])
              (xor_mac_length MONGOC_CRYPTO_ALGORITHM_SHA_256)
              ltac:(unfold no_comma; cbn; intuition discriminate)
              ltac:(by_computation) ltac:(by_computation)
              ltac:(by_computation) ltac:(by_computation))
    as [r1 [r2 [r3 [E1 [T1 [_ [_ [E2 [T2 [_ [_ [E3 [T3 _]]]]]]]]]]]]].
  eexists. exists r1, r2, r3.
  split; [exact E1|]. split; [exact T1|]. split; [exact E2|].
  split; [exact T2|]. split; [exact E3|]. exact T3.
Defined.
